(** * Expense Tracker: the ledger core of [script.js]

    A shallow embedding of the expense tracker (storage and normalisation,
    filtering, categories, balance, monthly summary, rendering, CSV export,
    the form, add and delete) together with the properties its
    specification states about it and further properties of the code.

    Conventions.
    - A JavaScript number is an IEEE 754 binary64 value: [float].
    - A JavaScript string is a [string]; every character stands for one code
      unit below 256.
    - A [Date] object is its time value in milliseconds since the epoch, or
      [None] for an Invalid Date (time value NaN).
    - The host's local time zone is a fixed offset [tza] in milliseconds
      (local time = UTC + tza); daylight-saving changes are not modelled.
    - Of the page, the filter form, the transaction form and the category
      select are the values they hold, and what the rendering functions
      put on the page is the texts they compute; styling is left out. *)

From Stdlib Require Import ZArith List String Ascii Bool Lia Floats.
From Stdlib Require Import Sorted Permutation OrderedTypeEx.
Import ListNotations.
Set Warnings "-inexact-float,-register-all".

Local Open Scope string_scope.
Local Open Scope list_scope.
Local Open Scope Z_scope.

(* ===================================================================== *)
(** * The JavaScript runtime: strings *)
(* ===================================================================== *)

Module JsString.

(** The double-quote character, code unit 34. *)
Definition dquote_char : ascii := ascii_of_nat 34.
Definition dquote : string := String dquote_char EmptyString.

(** White space and line terminators of ECMAScript that fit in one code
    unit below 256: TAB, LF, VT, FF, CR, SP and NBSP. *)
Definition is_whitespace (c : ascii) : bool :=
  let n := nat_of_ascii c in
  ((9 <=? n) && (n <=? 13) || (n =? 32) || (n =? 160))%nat.

Fixpoint trimStart (s : string) : string :=
  match s with
  | String c s' => if is_whitespace c then trimStart s' else s
  | EmptyString => EmptyString
  end.

(** [trimEnd] keeps a character when it is not white space or when
    something that is kept follows it. *)
Fixpoint trimEnd (s : string) : string :=
  match s with
  | EmptyString => EmptyString
  | String c s' =>
      match trimEnd s' with
      | EmptyString => if is_whitespace c then EmptyString else String c EmptyString
      | r => String c r
      end
  end.

(** [String.prototype.trim]. *)
Definition trim (s : string) : string := trimEnd (trimStart s).

(** [s.slice(b, e)] for indices [0 <= b <= e]. *)
Definition slice (b e : nat) (s : string) : string := substring b (e - b) s.

(** The global replace of [exportToCsv]: every double-quote character of
    [s] is doubled. *)
Fixpoint double_quotes (s : string) : string :=
  match s with
  | EmptyString => EmptyString
  | String c s' =>
      if Ascii.eqb c dquote_char
      then String dquote_char (String dquote_char (double_quotes s'))
      else String c (double_quotes s')
  end.

(** [Array.prototype.join] on an array of strings. *)
Definition join (sep : string) (cells : list string) : string :=
  String.concat sep cells.

(** The character of a decimal digit, and the test for one. *)
Definition digit_char (d : Z) : ascii := ascii_of_nat (48 + Z.to_nat d).

Definition is_digit (c : ascii) : bool :=
  let n := nat_of_ascii c in ((48 <=? n) && (n <=? 57))%nat.

(** Truthiness of a string: the empty string is the only falsy one. *)
Definition truthy (s : string) : bool := negb (s =? "")%string.

(** The order of strings by their code units: negative, zero or positive.
    It is one collation among those a host can have, and the one of the
    examples; the functions that call [localeCompare] take the collation
    of the host as a parameter. *)
Definition code_unit_order (a b : string) : Z :=
  match String.compare a b with
  | Lt => -1
  | Eq => 0
  | Gt => 1
  end.

End JsString.

(* ===================================================================== *)
(** * The JavaScript runtime: dates *)
(* ===================================================================== *)

Module JsDate.

Definition msPerDay : Z := 86400000.

(** A [Date] object: its time value, [None] when it is an Invalid Date. *)
Definition Date : Type := option Z.

Definition is_leap (y : Z) : bool :=
  ((y mod 4 =? 0) && negb (y mod 100 =? 0)) || (y mod 400 =? 0).

Definition days_in_month (y m : Z) : Z :=
  if m =? 2 then (if is_leap y then 29 else 28)
  else if (m =? 4) || (m =? 6) || (m =? 9) || (m =? 11) then 30
  else 31.

(** Day number of a calendar date of the proleptic Gregorian calendar,
    day 0 being 1970-01-01 (ECMAScript's MakeDay). *)
Definition days_from_civil (y m d : Z) : Z :=
  let y' := if m <=? 2 then y - 1 else y in
  let era := y' / 400 in
  let yoe := y' - era * 400 in
  let mp := if 2 <? m then m - 3 else m + 9 in
  let doy := (153 * mp + 2) / 5 + d - 1 in
  let doe := yoe * 365 + yoe / 4 - yoe / 100 + doy in
  era * 146097 + doe - 719468.

Definition digit (c : ascii) : option Z :=
  let n := Z.of_nat (nat_of_ascii c) in
  if (48 <=? n) && (n <=? 57) then Some (n - 48) else None.

Fixpoint digits_value (s : string) (acc : Z) : option Z :=
  match s with
  | EmptyString => Some acc
  | String c s' =>
      match digit c with
      | Some v => digits_value s' (10 * acc + v)
      | None => None
      end
  end.

(** The decimal field of [len] digits at position [pos] of [s]. *)
Definition field (s : string) (pos len : nat) : option Z :=
  let f := substring pos len s in
  if (String.length f =? len)%nat then digits_value f 0 else None.

Definition char_is (s : string) (pos : nat) (c : ascii) : bool :=
  match String.get pos s with
  | Some c' => Ascii.eqb c' c
  | None => false
  end.

(** The day number written by the first ten characters [YYYY-MM-DD]. *)
Definition parse_ymd (s : string) : option Z :=
  match field s 0 4, field s 5 2, field s 8 2 with
  | Some y, Some m, Some d =>
      if char_is s 4 "-" && char_is s 7 "-"
         && (1 <=? m) && (m <=? 12) && (1 <=? d) && (d <=? days_in_month y m)
      then Some (days_from_civil y m d)
      else None
  | _, _, _ => None
  end.

(** The milliseconds into the day written by [THH:mm:ss] at position 10. *)
Definition parse_hms (s : string) : option Z :=
  match field s 11 2, field s 14 2, field s 17 2 with
  | Some h, Some mi, Some se =>
      if char_is s 10 "T" && char_is s 13 ":" && char_is s 16 ":"
         && (h <=? 23) && (mi <=? 59) && (se <=? 59)
      then Some (h * 3600000 + mi * 60000 + se * 1000)
      else None
  | _, _, _ => None
  end.

(** [new Date(text)] for the two shapes of text the tracker hands to the
    constructor.  Following ECMAScript's date-time string format, a
    date-only text [YYYY-MM-DD] is read as UTC midnight and a date-time
    text [YYYY-MM-DDTHH:mm:ss] without offset is read as local time.  Any
    other text is taken as unparseable, and so is a text whose day is
    beyond the length of its month: engines differ on such a text, some
    give an Invalid Date as here and some read a day of the following
    month.  The properties below that speak of dates speak of calendar
    dates. *)
Definition Date_new (tza : Z) (text : string) : Date :=
  match String.length text with
  | 10%nat =>
      match parse_ymd text with
      | Some day => Some (day * msPerDay)
      | None => None
      end
  | 19%nat =>
      match parse_ymd text, parse_hms text with
      | Some day, Some ms => Some (day * msPerDay + ms - tza)
      | _, _ => None
      end
  | _ => None
  end.

(** The calendar date [(year, month, day)] of a day number: the inverse of
    [days_from_civil]. *)
Definition civil_from_days (z : Z) : Z * Z * Z :=
  let z' := z + 719468 in
  let era := z' / 146097 in
  let doe := z' - era * 146097 in
  let yoe := (doe - doe / 1460 + doe / 36524 - doe / 146096) / 365 in
  let doy := doe - (365 * yoe + yoe / 4 - yoe / 100) in
  let mp := (5 * doy + 2) / 153 in
  let d := doy - (153 * mp + 2) / 5 + 1 in
  let m := if mp <? 10 then mp + 3 else mp - 9 in
  let y := yoe + era * 400 in
  (if m <=? 2 then y + 1 else y, m, d).

(** The last [width] decimal digits of [n], zero padded. *)
Fixpoint pad (width : nat) (n : Z) : string :=
  match width with
  | O => EmptyString
  | S w => (pad w (n / 10) ++ String (JsString.digit_char (n mod 10)) EmptyString)%string
  end.

(** [new Date(t).toISOString()]: [YYYY-MM-DDTHH:mm:ss.sssZ] in UTC, the
    year written with six digits and a sign outside 0..9999. *)
Definition toISOString (t : Z) : string :=
  let '(y, m, d) := civil_from_days (t / msPerDay) in
  let ms := t mod msPerDay in
  let four_digits := (0 <=? y) && (y <=? 9999) in
  let sign := if y <? 0 then "-" else "+" in
  let year := if four_digits then pad 4 y else (sign ++ pad 6 (Z.abs y))%string in
  let hh := pad 2 (ms / 3600000) in
  let mm := pad 2 (ms / 60000 mod 60) in
  let ss := pad 2 (ms / 1000 mod 60) in
  let sss := pad 3 (ms mod 1000) in
  (year ++ "-" ++ pad 2 m ++ "-" ++ pad 2 d ++ "T"
   ++ hh ++ ":" ++ mm ++ ":" ++ ss ++ "." ++ sss ++ "Z")%string.

(** [d.setHours(23, 59, 59, 999)]: the last millisecond of the local day
    that holds [d]. *)
Definition setHours_23_59_59_999 (tza : Z) (d : Date) : Date :=
  match d with
  | Some t => Some (((t + tza) / msPerDay) * msPerDay + 86399999 - tza)
  | None => None
  end.

(** [a < b] and [a > b] on Date objects: numeric comparison of the time
    values, false as soon as one of them is NaN. *)
Definition lt (a b : Date) : bool :=
  match a, b with
  | Some x, Some y => x <? y
  | _, _ => false
  end.

Definition gt (a b : Date) : bool := lt b a.

End JsDate.

(* ===================================================================== *)
(** * The JavaScript runtime: numbers *)
(* ===================================================================== *)

Module JsNumber.

Import JsString.

(** The binary64 value nearest to the rational [p / q] ([0 <= p], [0 < q]),
    ties to even, with the sign [neg]. *)
Definition nearest (neg : bool) (p q : Z) : float :=
  if p =? 0 then (if neg then neg_zero else PrimFloat.zero)
  else
    let shift := Z.max 0 (64 + Z.log2 q - Z.log2 p) in
    let n := p * 2 ^ shift in
    let sticky := if n mod q =? 0 then 0 else 1 in
    SF2Prim (SpecFloat.binary_normalize prec emax
               (SpecFloat.cond_Zopp neg (2 * (n / q) + sticky)) (- shift - 1) neg).

(** The number an integer converts to. *)
Definition of_Z (z : Z) : float := nearest (z <? 0) (Z.abs z) 1.

Definition isNaN (x : float) : bool := PrimFloat.is_nan x.
Definition isFinite (x : float) : bool := PrimFloat.is_finite x.
Definition Math_abs (x : float) : float := PrimFloat.abs x.

(** Truthiness of a number: [0], [-0] and [NaN] are falsy. *)
Definition truthy (x : float) : bool := negb (PrimFloat.is_nan x || PrimFloat.is_zero x).

(** ** Rendering *)

Fixpoint decimal_loop (fuel : nat) (n : Z) (acc : string) : string :=
  match fuel with
  | O => acc
  | S fuel' =>
      let acc' := String (digit_char (n mod 10)) acc in
      if n <? 10 then acc' else decimal_loop fuel' (n / 10) acc'
  end.

(** The decimal digits of a natural number, without leading zeros. *)
Definition decimal (n : Z) : string :=
  decimal_loop (S (Z.to_nat (Z.log2 n))) n EmptyString.

Definition two_digits (n : Z) : string :=
  String (digit_char (n / 10 mod 10)) (String (digit_char (n mod 10)) EmptyString).

(** The integer [n] nearest to [100 * x] for a finite [x >= 0], the larger
    one when two are as near. *)
Definition nearest_hundredth (x : float) : Z :=
  match Prim2SF x with
  | S754_finite _ m e =>
      if 0 <=? e then Z.pos m * 2 ^ e * 100
      else (2 * 100 * Z.pos m + 2 ^ (- e)) / (2 * 2 ^ (- e))
  | _ => 0
  end.

(** The integer a number is, when it is one. *)
Definition to_integer (x : float) : option Z :=
  match Prim2SF x with
  | S754_zero _ => Some 0
  | S754_finite s m e =>
      let v := if 0 <=? e then Some (Z.pos m * 2 ^ e)
               else if Z.pos m mod 2 ^ (- e) =? 0 then Some (Z.pos m / 2 ^ (- e))
               else None in
      option_map (fun z => if s then - z else z) v
  | _ => None
  end.

(** The mathematical value of a finite number that is an integer. *)
Definition integer_value (x : float) : Z :=
  match Prim2SF x with
  | S754_finite _ m e => Z.pos m * 2 ^ e
  | _ => 0
  end.

(** The shortest decimal [s * 10 ^ (n - k)], [k] digits long, that converts
    back to the integer-valued [x]: the search of Number::toString, from
    [k] digits on, [fuel] times. *)
Fixpoint shortest_digits (fuel : nat) (k : Z) (x : float) (X n : Z) : Z * Z :=
  let unit := 10 ^ (n - k) in
  let lo := X / unit in
  match fuel with
  | O => (lo, n)
  | S fuel' =>
      let fits c := PrimFloat.eqb (of_Z c) x in
      let below := fits (lo * unit) in
      let above := fits ((lo + 1) * unit) in
      let up := if lo + 1 =? 10 ^ k then (10 ^ (k - 1), n + 1) else (lo + 1, n) in
      if below && above then
        (if X - lo * unit <? (lo + 1) * unit - X then (lo, n)
         else if (lo + 1) * unit - X <? X - lo * unit then up
         else if Z.even lo then (lo, n) else up)
      else if below then (lo, n)
      else if above then up
      else shortest_digits fuel' (k + 1) x X n
  end.

(** Number::toString for a finite [x >= 1e21]: exponential notation. *)
Definition toString_large (x : float) : string :=
  let X := integer_value x in
  let n := Z.of_nat (String.length (decimal X)) in
  let (s, n') := shortest_digits 17 1 x X n in
  match decimal s with
  | String d EmptyString => String d EmptyString ++ "e+" ++ decimal (n' - 1)
  | String d rest => String d EmptyString ++ "." ++ rest ++ "e+" ++ decimal (n' - 1)
  | EmptyString => EmptyString
  end%string.

(** Number::toString for the number a natural number [z] converts to.
    Below 2^53 that number is [z] itself, and its digits are written.  From
    there on the digits are the shortest that convert back to the number,
    followed by zeros below 1e21 and in exponential notation from 1e21
    on; a [z] beyond the finite numbers is [Infinity]. *)
Definition toString_of_Z (z : Z) : string :=
  let x := of_Z z in
  if z <? 2 ^ 53 then decimal z
  else if PrimFloat.is_infinity x then "Infinity"
  else if PrimFloat.leb 1e21 x then toString_large x
  else
    let X := integer_value x in
    let n := Z.of_nat (String.length (decimal X)) in
    let (s, n') := shortest_digits 17 1 x X n in
    let digits := decimal s in
    (digits ++ string_of_list_ascii
                 (List.repeat "0"%char (Z.to_nat (n' - Z.of_nat (String.length digits)))))%string.

(** [x.toFixed(2)]. *)
Definition toFixed2 (x : float) : string :=
  if PrimFloat.is_nan x then "NaN"
  else if PrimFloat.is_infinity x then
    (if PrimFloat.ltb x 0 then "-Infinity" else "Infinity")
  else
    let sign := if PrimFloat.ltb x 0 then "-" else "" in
    let ax := PrimFloat.abs x in
    if PrimFloat.leb 1e21 ax then (sign ++ toString_large ax)%string
    else
      let n := nearest_hundredth ax in
      (sign ++ decimal (n / 100) ++ "." ++ two_digits (n mod 100))%string.

(** ** Parsing: StringToNumber *)

(** The longest prefix of decimal digits and what follows it. *)
Fixpoint span_digits (s : string) : string * string :=
  match s with
  | String c s' =>
      if is_digit c then let (ds, rest) := span_digits s' in (String c ds, rest)
      else (EmptyString, s)
  | EmptyString => (EmptyString, EmptyString)
  end.

Fixpoint digits_to_Z (s : string) (acc : Z) : Z :=
  match s with
  | String c s' => digits_to_Z s' (10 * acc + (Z.of_nat (nat_of_ascii c) - 48))
  | EmptyString => acc
  end.

(** The value of a digit in base [radix], when it is one. *)
Definition radix_digit (radix : Z) (c : ascii) : option Z :=
  let n := Z.of_nat (nat_of_ascii c) in
  let v := if (48 <=? n) && (n <=? 57) then n - 48
           else if (97 <=? n) && (n <=? 102) then n - 87
           else if (65 <=? n) && (n <=? 70) then n - 55
           else radix in
  if v <? radix then Some v else None.

Fixpoint radix_value (radix : Z) (s : string) (acc : Z) : option Z :=
  match s with
  | String c s' =>
      match radix_digit radix c with
      | Some v => radix_value radix s' (radix * acc + v)
      | None => None
      end
  | EmptyString => Some acc
  end.

(** The number written by mantissa digits [ds] scaled by [10 ^ e10]. *)
Definition scaled (neg : bool) (ds : string) (e10 : Z) : float :=
  let d := digits_to_Z ds 0 in
  let len := Z.of_nat (String.length ds) in
  if d =? 0 then nearest neg 0 1
  else if 400 <? e10 then (if neg then neg_infinity else infinity)
  else if e10 + len <? - 400 then nearest neg 0 1
  else if 0 <=? e10 then nearest neg (d * 10 ^ e10) 1
  else nearest neg d (10 ^ (- e10)).

(** An exponent part [e], [e+] or [e-] followed by digits up to the end
    of the text; the empty text is the exponent 0. *)
Definition exponent_part (s : string) : option Z :=
  match s with
  | EmptyString => Some 0
  | String c s' =>
      if Ascii.eqb c "e" || Ascii.eqb c "E" then
        let (neg, body) :=
          match s' with
          | String "-" b => (true, b)
          | String "+" b => (false, b)
          | _ => (false, s')
          end in
        match span_digits body with
        | (String d ds, EmptyString) =>
            let v := digits_to_Z (String d ds) 0 in Some (if neg then - v else v)
        | _ => None
        end
      else None
  end.

(** StrUnsignedDecimalLiteral. *)
Definition unsigned_decimal (neg : bool) (s : string) : float :=
  if (s =? "Infinity")%string then (if neg then neg_infinity else infinity)
  else
    let (int_part, rest) := span_digits s in
    let (frac_part, rest') :=
      match rest with
      | String "." r => span_digits r
      | _ => (EmptyString, rest)
      end in
    if ((int_part =? "") && (frac_part =? ""))%string then nan
    else
      match exponent_part rest' with
      | Some e =>
          scaled neg (int_part ++ frac_part)%string
            (e - Z.of_nat (String.length frac_part))
      | None => nan
      end.

(** StringToNumber: what [Number(text)] is for a string. *)
Definition StringToNumber (text : string) : float :=
  match trim text with
  | EmptyString => PrimFloat.zero
  | String "0" (String x body) as s =>
      let radix := if Ascii.eqb x "x" || Ascii.eqb x "X" then 16
                   else if Ascii.eqb x "o" || Ascii.eqb x "O" then 8
                   else if Ascii.eqb x "b" || Ascii.eqb x "B" then 2
                   else 0 in
      if radix =? 0 then unsigned_decimal false s
      else match body, radix_value radix body 0 with
           | String _ _, Some v => of_Z v
           | _, _ => nan
           end
  | String "-" s => unsigned_decimal true s
  | String "+" s => unsigned_decimal false s
  | s => unsigned_decimal false s
  end.

End JsNumber.

(* ===================================================================== *)
(** * The ledger *)
(* ===================================================================== *)

(** The [type] of a transaction: ['income'] or ['expense']. *)
Inductive txType : Type := income | expense.

Definition txType_eqb (a b : txType) : bool :=
  match a, b with
  | income, income | expense, expense => true
  | _, _ => false
  end.

(** A transaction object,
    [{ id, name, amount, type, date: 'YYYY-MM-DD', category }].
    [num] is the type of amounts; [date] is [None] when the property is
    undefined. *)
Record transaction (num : Type) : Type := mkTransaction {
  id : Z;
  name : string;
  amount : num;
  type : txType;
  date : option string;
  category : string
}.

Arguments mkTransaction {num}.
Arguments id {num}.
Arguments name {num}.
Arguments amount {num}.
Arguments type {num}.
Arguments date {num}.
Arguments category {num}.

(** ** Filtering *)

(** The filter form: the values of the two date inputs and of the category
    select. *)
Record filterForm : Type := mkFilterForm {
  filterStart : string;
  filterEnd : string;
  filterCategorySelect : string
}.

(** What [getFilters] returns: [{ start, end, category }], with [None] for
    [null]. *)
Record filters : Type := mkFilters {
  f_start : option JsDate.Date;
  f_end : option JsDate.Date;
  f_category : string
}.

Definition getFilters (tza : Z) (form : filterForm) : filters :=
  let start :=
    if JsString.truthy (filterStart form)
    then Some (JsDate.Date_new tza (filterStart form)) else None in
  let end0 :=
    if JsString.truthy (filterEnd form)
    then Some (JsDate.Date_new tza (filterEnd form)) else None in
  let end1 := option_map (JsDate.setHours_23_59_59_999 tza) end0 in
  let category :=
    if JsString.truthy (filterCategorySelect form)
    then filterCategorySelect form else "all" in
  mkFilters start end1 category.

(** [t.date + 'T00:00:00']: an undefined date concatenates as
    ["undefined"]. *)
Definition date_text {num} (t : transaction num) : string :=
  match date t with
  | Some d => d
  | None => "undefined"
  end.

(** The predicate [applyFilters] hands to [Array.prototype.filter]. *)
Definition passes {num} (tza : Z) (f : filters) (t : transaction num) : bool :=
  let tDate := JsDate.Date_new tza (date_text t ++ "T00:00:00")%string in
  if match f_start f with
     | Some start => JsDate.lt tDate start
     | None => false
     end then false
  else if match f_end f with
          | Some end1 => JsDate.gt tDate end1
          | None => false
          end then false
  else if JsString.truthy (f_category f)
          && negb (f_category f =? "all")%string
          && negb (category t =? f_category f)%string then false
  else true.

Definition applyFilters {num} (tza : Z) (form : filterForm)
    (transArray : list (transaction num)) : list (transaction num) :=
  filter (passes tza (getFilters tza form)) transArray.

(** ** Arithmetic on amounts *)

(** The arithmetic the aggregation code uses on amounts: the literal [0],
    [+] and [-].  JavaScript's own numbers are the instance
    [binary64_arithmetic]; the integers are an instance for the examples
    in which the amounts play no part. *)
Class Arithmetic (num : Type) : Type := {
  zero : num;
  add : num -> num -> num;
  sub : num -> num -> num
}.

#[export] Instance binary64_arithmetic : Arithmetic float := {
  zero := 0%float;
  add := PrimFloat.add;
  sub := PrimFloat.sub
}.

#[export] Instance integer_arithmetic : Arithmetic Z := {
  zero := 0;
  add := Z.add;
  sub := Z.sub
}.

(** ** Arrays and Maps of the runtime *)

(** [Array.prototype.sort(comparefn)]: a stable sort; [x] goes before [y]
    when [comparefn x y <= 0]. *)
Fixpoint sort_insert {A} (comparefn : A -> A -> Z) (x : A) (l : list A) : list A :=
  match l with
  | [] => [x]
  | y :: r =>
      if comparefn x y <=? 0 then x :: y :: r else y :: sort_insert comparefn x r
  end.

Definition Array_sort {A} (comparefn : A -> A -> Z) (l : list A) : list A :=
  fold_right (sort_insert comparefn) [] l.

(** A [Map] with string keys: its entries in insertion order. *)
Definition Map (V : Type) : Type := list (string * V).

Fixpoint Map_get {V} (key : string) (m : Map V) : option V :=
  match m with
  | [] => None
  | (k, v) :: r => if (k =? key)%string then Some v else Map_get key r
  end.

Definition Map_has {V} (key : string) (m : Map V) : bool :=
  match Map_get key m with
  | Some _ => true
  | None => false
  end.

(** [map.set(key, v)]: replaces the value of an existing key in place, adds
    a new key at the end. *)
Fixpoint Map_set {V} (key : string) (v : V) (m : Map V) : Map V :=
  match m with
  | [] => [(key, v)]
  | (k, v') :: r =>
      if (k =? key)%string then (k, v) :: r else (k, v') :: Map_set key v r
  end.

(** A [Set] of strings: its elements in insertion order. *)
Definition Set_has (x : string) (s : list string) : bool :=
  existsb (String.eqb x) s.

(** [set.add(x)]: a new element goes to the end, an element that is there
    changes nothing. *)
Definition Set_add (x : string) (s : list string) : list string :=
  if Set_has x s then s else s ++ [x].

(** ** Balance and monthly summary *)

Section Aggregation.

Context {num : Type} `{Arithmetic num}.

(** [a.localeCompare(b)] on the month keys: the collation of the host's
    locale, which the source does not fix. *)
Variable collate : string -> string -> Z.

(** The total of [updateBalance] over the filtered array. *)
Definition computeBalance (filtered : list (transaction num)) : num :=
  let totalIncome :=
    fold_left (fun acc t => add acc (amount t))
      (filter (fun t => txType_eqb (type t) income) filtered) zero in
  let totalExpense :=
    fold_left (fun acc t => add acc (amount t))
      (filter (fun t => txType_eqb (type t) expense) filtered) zero in
  sub totalIncome totalExpense.

(** The objects the Map of [computeMonthlySummary] holds. *)
Record sums : Type := mkSums { sum_income : num; sum_expense : num }.

(** A row of the monthly summary: [{ month, income, expense, net }]. *)
Record monthRow : Type := mkMonthRow {
  month : string;
  row_income : num;
  row_expense : num;
  net : num
}.

(** The month key of a transaction:
    [(t.date && t.date.slice(0,7)) || currentMonth]. *)
Definition month_key (currentMonth : string) (t : transaction num) : string :=
  let sliced :=
    match date t with
    | Some d => if JsString.truthy d then JsString.slice 0 7 d else d
    | None => ""
    end in
  if JsString.truthy sliced then sliced else currentMonth.

(** One round of the [forEach] of [computeMonthlySummary]. *)
Definition tally (currentMonth : string) (map : Map sums) (t : transaction num)
    : Map sums :=
  let month := month_key currentMonth t in
  let map1 := if Map_has month map then map else Map_set month (mkSums zero zero) map in
  match Map_get month map1 with
  | Some item =>
      Map_set month
        (match type t with
         | income => mkSums (add (sum_income item) (amount t)) (sum_expense item)
         | expense => mkSums (sum_income item) (add (sum_expense item) (amount t))
         end) map1
  | None => map1
  end.

Definition summary_row (entry : string * sums) : monthRow :=
  let (month, s) := entry in
  mkMonthRow month (sum_income s) (sum_expense s) (sub (sum_income s) (sum_expense s)).

(** [computeMonthlySummary], [now] being the clock reading behind
    [new Date()]. *)
Definition computeMonthlySummary (now : Z) (baseArray : list (transaction num))
    : list monthRow :=
  let currentMonth := JsString.slice 0 7 (JsDate.toISOString now) in
  let map := fold_left (tally currentMonth) baseArray [] in
  let arr := List.map summary_row map in
  Array_sort (fun a b => collate (month b) (month a)) arr.

(** The sum of the [net] column. *)
Definition total_net (rows : list monthRow) : num :=
  fold_left (fun acc r => add acc (net r)) rows zero.

End Aggregation.

Arguments sums num : clear implicits.
Arguments monthRow num : clear implicits.

(** ** Categories *)

(** [t.category || 'Uncategorized']. *)
Definition category_label {num} (t : transaction num) : string :=
  if JsString.truthy (category t) then category t else "Uncategorized".

Section Categories.

(** [a.localeCompare(b)] on the texts users type: the collation of the
    host's locale, which the source does not fix. *)
Variable collate : string -> string -> Z.

Context {num : Type}.

(** [getAllCategories]. *)
Definition getAllCategories (transactions : list (transaction num)) : list string :=
  let set := fold_left (fun set t => Set_add (category_label t) set) transactions [] in
  Array_sort collate set.

(** [select.value = v] on a select element with the option values
    [options]: the first option of value [v] becomes the selected one; when
    there is none, no option is selected and the value reads as the empty
    string. *)
Definition select_set_value (options : list string) (v : string) : string :=
  if existsb (String.eqb v) options then v else "".

(** [populateCategoryFilter]: the option values of the category select and
    the filter form afterwards.  Setting [innerHTML] leaves the one option
    [all], which is then the selected one; appending options does not
    change the selection. *)
Definition populateCategoryFilter (transactions : list (transaction num))
    (form : filterForm) : list string * filterForm :=
  let existing := filterCategorySelect form in
  let options := "all" :: getAllCategories transactions in
  let value :=
    if JsString.truthy existing then select_set_value options existing else "all" in
  (options, mkFilterForm (filterStart form) (filterEnd form) value).

End Categories.

(** ** Deleting *)

(** [deleteTransaction]: the new value of [transactions]. *)
Definition deleteTransaction {num} (id0 : Z) (transactions : list (transaction num))
    : list (transaction num) :=
  filter (fun t => negb (id t =? id0)) transactions.

(** ** Formatting and CSV export *)

(** [formatAmount]: [(Number(num) || 0).toFixed(2)]. *)
Definition formatAmount (num : float) : string :=
  let n := if JsNumber.truthy num then num else 0%float in
  JsNumber.toFixed2 n.

(** [updateBalance]: the text put in the balance display, the balance of
    the filtered entries. *)
Definition updateBalance (tza : Z) (form : filterForm)
    (transactions : list (transaction float)) : string :=
  formatAmount (computeBalance (applyFilters tza form transactions)).

Definition newline : string := String (ascii_of_nat 10) EmptyString.

(** [String(t.type)]. *)
Definition type_text (ty : txType) : string :=
  match ty with
  | income => "income"
  | expense => "expense"
  end.

(** [String(t.id)], the id being the number the integer [z] converts
    to. *)
Definition id_text (z : Z) : string :=
  if z <? 0 then ("-" ++ JsNumber.toString_of_Z (- z))%string
  else JsNumber.toString_of_Z z.

(** One cell of the CSV text: the text between double quotes, its own
    double quotes doubled. *)
Definition csv_cell (cell : string) : string :=
  (JsString.dquote ++ JsString.double_quotes cell ++ JsString.dquote)%string.

Definition csv_header : list string :=
  ["id"; "name"; "amount"; "type"; "date"; "category"].

Definition csv_row (t : transaction float) : list string :=
  [id_text (id t); name t; formatAmount (amount t); type_text (type t);
   date_text t; category t].

Definition csv_line (cells : list string) : string :=
  JsString.join "," (map csv_cell cells).

(** The text [csvContent] that [exportToCsv] builds and hands to the
    browser as a download. *)
Definition exportToCsv (filteredArray : list (transaction float)) : string :=
  let rows := csv_header :: map csv_row filteredArray in
  JsString.join newline (map csv_line rows).

(** ** Rendering *)

(** [formatDate]. *)
Definition formatDate (isoDateStr : option string) : string :=
  match isoDateStr with
  | Some d => if negb (JsString.truthy d) then "" else d
  | None => ""
  end.

(** An item of the transaction list: the text of the name, the category
    and the formatted date that the meta line shows side by side, the text
    and the class of the amount, and the id the delete button hands to
    [deleteTransaction]. *)
Record listItem : Type := mkListItem {
  item_name : string;
  item_category : string;
  item_date : string;
  item_amount : string;
  item_class : string;
  item_delete : Z
}.

(** What [renderTransactions] puts in the list: the one item that says no
    transaction was found, or an item per filtered entry. *)
Inductive listView : Type :=
  | NoTransactions
  | Items (items : list listItem).

Definition renderTransactions (tza : Z) (form : filterForm)
    (transactions : list (transaction float)) : listView :=
  let filtered := applyFilters tza form transactions in
  if (List.length filtered =? 0)%nat then NoTransactions
  else
    Items (map (fun tx =>
             mkListItem (name tx) (category tx) (formatDate (date tx))
               ((match type tx with income => "+" | expense => "-" end)
                ++ formatAmount (amount tx))%string
               (match type tx with income => "income" | expense => "expense" end)
               (id tx))
           filtered).

(** What [renderMonthlySummary] puts in the summary: the paragraph that
    says there is no data, or a table with a row per month, each row given
    by the markup assigned to it. *)
Inductive summaryView : Type :=
  | NoData
  | SummaryTable (rows : list string).

Definition summary_tr (s : monthRow float) : string :=
  let indent := (newline ++ "                        ")%string in
  ("<td>" ++ month s ++ "</td>" ++ indent
   ++ "<td>$" ++ formatAmount (row_income s) ++ "</td>" ++ indent
   ++ "<td>$" ++ formatAmount (row_expense s) ++ "</td>" ++ indent
   ++ "<td>$" ++ formatAmount (net s) ++ "</td>")%string.

Definition renderMonthlySummary (collate : string -> string -> Z) (tza : Z)
    (form : filterForm) (now : Z) (transactions : list (transaction float))
    : summaryView :=
  let filtered := applyFilters tza form transactions in
  let summary := computeMonthlySummary collate now filtered in
  if (List.length summary =? 0)%nat then NoData
  else SummaryTable (map summary_tr summary).

(* ===================================================================== *)
(** * Storage: loading and normalising *)
(* ===================================================================== *)

(** A JavaScript value as [JSON.parse] returns them, and [undefined]. *)
Inductive value : Type :=
  | VUndefined
  | VNull
  | VBool (b : bool)
  | VNumber (n : float)
  | VString (s : string)
  | VArray (items : list value)
  | VObject (props : list (string * value)).

(** How a computation ends: with a value, or by throwing. *)
Inductive exn : Type := SyntaxError | TypeError.

Inductive completion (A : Type) : Type :=
  | Normal (a : A)
  | Throw (e : exn).

Arguments Normal {A}.
Arguments Throw {A}.

Definition bind {A B} (c : completion A) (k : A -> completion B) : completion B :=
  match c with
  | Normal a => k a
  | Throw e => Throw e
  end.

Notation "x <- c ;; k" := (bind c (fun x => k))
  (at level 61, c at next level, right associativity).

(** [try { body } catch (e) { handler }]. *)
Definition try_catch {A} (body : completion A) (handler : exn -> completion A)
    : completion A :=
  match body with
  | Normal a => Normal a
  | Throw e => handler e
  end.

Fixpoint lookup (key : string) (props : list (string * value)) : value :=
  match props with
  | [] => VUndefined
  | (k, v) :: r => if (k =? key)%string then v else lookup key r
  end.

(** [t.key] for one of the keys read by the normaliser ([id], [name],
    [amount], [type], [date], [category]): a TypeError on [null] and
    [undefined], the property of an object, and [undefined] on the other
    values, which have no property of these names. *)
Definition get (t : value) (key : string) : completion value :=
  match t with
  | VUndefined | VNull => Throw TypeError
  | VObject props => Normal (lookup key props)
  | _ => Normal VUndefined
  end.

(** [v ?? d]. *)
Definition coalesce (v d : value) : value :=
  match v with
  | VUndefined | VNull => d
  | _ => v
  end.

(** Whether an object holds a property of its own named [key]. *)
Definition has_own (key : string) (props : list (string * value)) : bool :=
  existsb (fun p => (fst p =? key)%string) props.

(** Whether the conversion of [v] to a primitive value throws.  An object
    read from a text has no function among its own properties: when it has
    a property of its own named [toString], neither that property nor the
    [valueOf] it inherits gives a primitive value, and the conversion
    throws a TypeError; without one, the [toString] it inherits answers.
    An array converts through [join], which converts each element that is
    not [null] or [undefined]. *)
Fixpoint ToPrimitive_throws (v : value) : bool :=
  match v with
  | VObject props => has_own "toString" props
  | VArray items => existsb ToPrimitive_throws items
  | _ => false
  end.

(** The number [Number(v)] is when the conversion returns.  An array
    converts through its text: the empty array is the empty text, an array
    of one element the text of that element, and a longer array a text
    with a comma in it, which is no number. *)
Fixpoint to_number (v : value) : float :=
  match v with
  | VUndefined => nan
  | VNull => 0%float
  | VBool b => if b then 1%float else 0%float
  | VNumber n => n
  | VString s => JsNumber.StringToNumber s
  | VArray [] => 0%float
  | VArray [x] =>
      match x with
      | VUndefined | VNull => 0%float
      | VBool _ => nan
      | VNumber n => if PrimFloat.is_zero n then 0%float else n
      | VString s => JsNumber.StringToNumber s
      | VArray _ => to_number x
      | VObject _ => nan
      end
  | VArray _ => nan
  | VObject _ => nan
  end.

(** [Number(v)]. *)
Definition ToNumber (v : value) : completion float :=
  if ToPrimitive_throws v then Throw TypeError else Normal (to_number v).

(** The clock and the random generator, as one call sees them:
    [Date.now()] and [Math.floor(Math.random() * 1000)]. *)
Record reading : Type := mkReading {
  Date_now : Z;
  random_offset : Z
}.

(** [new Date().toISOString().slice(0,10)]. *)
Definition today (r : reading) : string :=
  JsString.slice 0 10 (JsDate.toISOString (Date_now r)).

(** The objects [loadTransactions] stores: [amount] is a number and [type]
    one of the two types; the other properties are whatever the record
    held. *)
Module Loaded.

Record transaction : Type := mk {
  id : value;
  name : value;
  amount : float;
  type : txType;
  date : value;
  category : value
}.

End Loaded.

(** The arrow function [loadTransactions] maps over the parsed array. *)
Definition normalize (r : reading) (t : value) : completion Loaded.transaction :=
  t_id <- get t "id" ;;
  t_name <- get t "name" ;;
  t_amount <- get t "amount" ;;
  amount0 <- ToNumber (coalesce t_amount (VNumber 0%float)) ;;
  t_type <- get t "type" ;;
  t_date <- get t "date" ;;
  t_category <- get t "category" ;;
  Normal (Loaded.mk
    (coalesce t_id (VNumber (JsNumber.of_Z (Date_now r + random_offset r))))
    (coalesce t_name (VString "Unnamed"))
    amount0
    (match t_type with
     | VString s => if (s =? "expense")%string then expense else income
     | _ => income
     end)
    (coalesce t_date (VString (today r)))
    (coalesce t_category (VString "Uncategorized"))).

(** [parsed.map(normalize)]: record [i] sees the reading [readings i]; the
    first record that throws ends the whole map. *)
Fixpoint Array_map_normalize (readings : nat -> reading) (i : nat)
    (parsed : list value) : completion (list Loaded.transaction) :=
  match parsed with
  | [] => Normal []
  | t :: rest =>
      tx <- normalize (readings i) t ;;
      txs <- Array_map_normalize readings (S i) rest ;;
      Normal (tx :: txs)
  end.

Section Storage.

(** [JSON.parse]: the value a text denotes, or a SyntaxError. *)
Variable JSON_parse : string -> completion value.

(** [loadTransactions]: the new value of [transactions], given what
    [localStorage.getItem] returned ([None] for [null]). *)
Definition loadTransactions (readings : nat -> reading) (raw : option string)
    : completion (list Loaded.transaction) :=
  try_catch
    (parsed <- match raw with
               | Some text => if JsString.truthy text then JSON_parse text
                              else Normal (VArray [])
               | None => Normal (VArray [])
               end ;;
     match parsed with
     | VArray items => Array_map_normalize readings 0 items
     | _ => Normal []
     end)
    (fun _ => Normal []).

End Storage.

(** The entry of the documented shape
    [{ id: number, name: string, amount: number, type, date, category: string }]
    that a stored object is, when it has that shape. *)
Definition as_transaction (t : Loaded.transaction) : option (transaction float) :=
  match Loaded.id t, Loaded.name t, Loaded.date t, Loaded.category t with
  | VNumber n, VString name0, VString date0, VString category0 =>
      match JsNumber.to_integer n with
      | Some z =>
          Some (mkTransaction z name0 (Loaded.amount t) (Loaded.type t)
                  (Some date0) category0)
      | None => None
      end
  | _, _, _, _ => None
  end.

(** ** Saving *)

(** A transaction object of the ledger, as a JavaScript value. *)
Definition to_value (t : transaction float) : value :=
  VObject
    [ ("id", VNumber (JsNumber.of_Z (id t)));
      ("name", VString (name t));
      ("amount", VNumber (amount t));
      ("type", VString (type_text (type t)));
      ("date", match date t with
               | Some d => VString d
               | None => VUndefined
               end);
      ("category", VString (category t)) ].

Section Saving.

(** [JSON.stringify]. *)
Variable JSON_stringify : value -> string.

(** [saveTransactions]: the text stored under the storage key. *)
Definition saveTransactions (transactions : list (transaction float)) : string :=
  JSON_stringify (VArray (map to_value transactions)).

End Saving.

(* ===================================================================== *)
(** * Adding a transaction *)
(* ===================================================================== *)

(** [addTransaction]: the new value of [transactions] after the [push],
    or the exception that [Number(amount)] throws before it. *)
Definition addTransaction (r : reading) (name0 : string) (amount0 : value)
    (type0 : txType) (date0 : string) (category0 : string)
    (transactions : list (transaction float))
    : completion (list (transaction float)) :=
  amount1 <- ToNumber amount0 ;;
  let tx :=
    mkTransaction
      (Date_now r + random_offset r)
      (JsString.trim name0)
      amount1
      type0
      (Some date0)
      (if JsString.truthy (JsString.trim category0)
       then JsString.trim category0 else "Uncategorized") in
  Normal (transactions ++ [tx]).

(** [validateInputs], the alerts left out; [amount0] is a number. *)
Definition validateInputs (name0 : string) (amount0 : float) (date0 : string)
    (category0 : string) : bool :=
  if negb (JsString.truthy name0) || (JsString.trim name0 =? "")%string then false
  else if JsNumber.isNaN amount0 || negb (JsNumber.isFinite amount0)
          || PrimFloat.leb amount0 0 then false
  else if negb (JsString.truthy date0) then false
  else if negb (JsString.truthy category0) || (JsString.trim category0 =? "")%string
       then false
  else true.

(** The values of the inputs of the transaction form. *)
Record transactionForm : Type := mkTransactionForm {
  transactionName : string;
  transactionAmount : string;
  transactionDate : string;
  transactionCategory : string;
  transactionType : txType
}.

(** The submit handler installed by [init]: the new value of
    [transactions].  The value of the amount input is a string, which
    [Number] converts without throwing; an exception out of
    [addTransaction] would end the handler with the array as it is. *)
Definition submit (r : reading) (form : transactionForm)
    (transactions : list (transaction float)) : list (transaction float) :=
  let name0 := transactionName form in
  let amount0 := JsNumber.Math_abs (JsNumber.StringToNumber (transactionAmount form)) in
  let date0 :=
    if JsString.truthy (transactionDate form) then transactionDate form else today r in
  let category0 :=
    if JsString.truthy (transactionCategory form)
    then transactionCategory form else "Uncategorized" in
  let type0 := transactionType form in
  if negb (validateInputs name0 amount0 date0 category0) then transactions
  else
    match addTransaction r name0 (VNumber amount0) type0 date0 category0 transactions with
    | Normal transactions' => transactions'
    | Throw _ => transactions
    end.

(* ===================================================================== *)
(** * The page and its handlers *)
(* ===================================================================== *)

(** The state the handlers of [init] work on: the array [transactions],
    the text written to the storage since the page was loaded ([None] when
    nothing was written yet), the filter form, and the option values of
    the category select. *)
Record page : Type := mkPage {
  page_transactions : list (transaction float);
  page_written : option string;
  page_filter : filterForm;
  page_options : list string
}.

(** What happens on the page: the form is submitted, a deletion is
    confirmed, one of the buttons is clicked, or the user changes one of
    the filter inputs. *)
Inductive event : Type :=
  | SubmitForm (r : reading) (form : transactionForm)
  | ConfirmDelete (id0 : Z)
  | ClickApply
  | ClickClear
  | ChangeStart (v : string)
  | ChangeEnd (v : string)
  | ChangeCategory (v : string)
  | ClickExport.

Section Page.

Variable collate : string -> string -> Z.
Variable JSON_stringify : value -> string.

(** The end of [addTransaction] and [deleteTransaction], with the new
    array: [saveTransactions(); populateCategoryFilter(); renderAll()]. *)
Definition refresh (p : page) (transactions : list (transaction float)) : page :=
  let (options, form) := populateCategoryFilter collate transactions (page_filter p) in
  mkPage transactions (Some (saveTransactions JSON_stringify transactions)) form options.

(** The submit handler, on the page. *)
Definition submit_page (r : reading) (form : transactionForm) (p : page) : page :=
  let name0 := transactionName form in
  let amount0 := JsNumber.Math_abs (JsNumber.StringToNumber (transactionAmount form)) in
  let date0 :=
    if JsString.truthy (transactionDate form) then transactionDate form else today r in
  let category0 :=
    if JsString.truthy (transactionCategory form)
    then transactionCategory form else "Uncategorized" in
  let type0 := transactionType form in
  if negb (validateInputs name0 amount0 date0 category0) then p
  else
    match addTransaction r name0 (VNumber amount0) type0 date0 category0
            (page_transactions p) with
    | Normal transactions => refresh p transactions
    | Throw _ => p
    end.

(** One event. *)
Definition handle (p : page) (e : event) : page :=
  match e with
  | SubmitForm r form => submit_page r form p
  | ConfirmDelete id0 => refresh p (deleteTransaction id0 (page_transactions p))
  | ClickApply =>
      let (options, form) :=
        populateCategoryFilter collate (page_transactions p) (page_filter p) in
      mkPage (page_transactions p) (page_written p) form options
  | ClickClear =>
      mkPage (page_transactions p) (page_written p)
        (mkFilterForm "" "" (select_set_value (page_options p) "all"))
        (page_options p)
  | ChangeStart v =>
      mkPage (page_transactions p) (page_written p)
        (mkFilterForm v (filterEnd (page_filter p))
           (filterCategorySelect (page_filter p)))
        (page_options p)
  | ChangeEnd v =>
      mkPage (page_transactions p) (page_written p)
        (mkFilterForm (filterStart (page_filter p)) v
           (filterCategorySelect (page_filter p)))
        (page_options p)
  | ChangeCategory v =>
      mkPage (page_transactions p) (page_written p)
        (mkFilterForm (filterStart (page_filter p)) (filterEnd (page_filter p))
           (select_set_value (page_options p) v))
        (page_options p)
  | ClickExport => p
  end.

(** The start of [init], once [loadTransactions] has set the array:
    [populateCategoryFilter(); renderAll()]. *)
Definition init_page (transactions : list (transaction float)) (form : filterForm)
    : page :=
  let (options, form') := populateCategoryFilter collate transactions form in
  mkPage transactions None form' options.

(** The page after a sequence of events. *)
Definition run (p : page) (events : list event) : page :=
  fold_left handle events p.

End Page.

(* ===================================================================== *)
(** * The vocabulary of the properties *)
(* ===================================================================== *)

(** ** Lists *)

(** [subsequence l1 l2]: [l1] is [l2] with some elements left out, the
    others in their order. *)
Inductive subsequence {A : Type} : list A -> list A -> Prop :=
  | subsequence_nil : subsequence [] []
  | subsequence_skip : forall x l1 l2, subsequence l1 l2 -> subsequence l1 (x :: l2)
  | subsequence_keep : forall x l1 l2, subsequence l1 l2 -> subsequence (x :: l1) (x :: l2).

(** [x] is not after [y] in the order of [comparefn]. *)
Definition ordered_by {A : Type} (comparefn : A -> A -> Z) (x y : A) : Prop :=
  comparefn x y <= 0.

(** The keys of a Map, in insertion order. *)
Definition keys {V : Type} (m : Map V) : list string := map fst m.

(** ** Months and totals *)

Section SummaryVocabulary.

Context {num : Type} `{Arithmetic num}.

(** The entries of month [k]. *)
Definition in_month (currentMonth k : string) (t : transaction num) : bool :=
  (month_key currentMonth t =? k)%string.

(** The amounts of type [ty] of month [k], added from [0] in the order of
    the entries. *)
Definition month_total (ty : txType) (currentMonth k : string)
    (txs : list (transaction num)) : num :=
  fold_left (fun acc t => add acc (amount t))
    (filter (fun t => in_month currentMonth k t && txType_eqb (type t) ty) txs) zero.

(** What one round of the loop does to the item of the month. *)
Definition credit (t : transaction num) (item : sums num) : sums num :=
  match type t with
  | income => mkSums (add (sum_income item) (amount t)) (sum_expense item)
  | expense => mkSums (sum_income item) (add (sum_expense item) (amount t))
  end.

(** Rows in descending order of month, in the collation [collate]. *)
Definition month_descending (collate : string -> string -> Z)
    (a b : monthRow num) : Prop :=
  collate (month b) (month a) <= 0.

(** The sum of a list, from the right. *)
Definition sum_of (l : list num) : num := fold_right add zero l.

(** The amounts of type [ty], summed. *)
Definition total_of (ty : txType) (txs : list (transaction num)) : num :=
  sum_of (map amount (filter (fun t => txType_eqb (type t) ty) txs)).

(** The row of month [k]: its two totals and their difference. *)
Definition row_of (currentMonth k : string) (txs : list (transaction num))
    : monthRow num :=
  mkMonthRow k (month_total income currentMonth k txs)
    (month_total expense currentMonth k txs)
    (sub (month_total income currentMonth k txs)
         (month_total expense currentMonth k txs)).

End SummaryVocabulary.

(** ** Whole amounts *)

(** The binary64 number the integer [a] is, for [a] below 2^53 in
    magnitude: the zero is the positive one. *)
Definition whole_number (a : Z) : spec_float := binary_normalize prec emax a 0 false.

(** [x] is the whole number [a]; [x] is the whole number [a] or the
    negative zero. *)
Definition whole (x : float) (a : Z) : Prop := Prim2SF x = whole_number a.

Definition whole_or_negative_zero (x : float) (a : Z) : Prop :=
  whole x a \/ (a = 0 /\ Prim2SF x = S754_zero true).

(** The integer an amount is, and 0 for an amount that is none. *)
Definition whole_amount (t : transaction float) : Z :=
  match JsNumber.to_integer (amount t) with
  | Some a => a
  | None => 0
  end.

(** The magnitudes of the amounts added up, when every amount is an
    integer. *)
Fixpoint magnitude (txs : list (transaction float)) : option Z :=
  match txs with
  | [] => Some 0
  | t :: rest =>
      match JsNumber.to_integer (amount t), magnitude rest with
      | Some a, Some M => Some (Z.abs a + M)
      | _, _ => None
      end
  end.

(** A ledger of whole amounts whose magnitudes add up to less than 2^53:
    no sum of some of its amounts leaves the integers binary64 holds
    exactly. *)
Definition whole_amounts (txs : list (transaction float)) : bool :=
  match magnitude txs with
  | Some M => M <? 2 ^ 53
  | None => false
  end.

(** The sum of [g] over a list, in the integers. *)
Definition sum_over {A : Type} (g : A -> Z) (l : list A) : Z :=
  fold_right (fun x s => g x + s) 0 l.

(** What [whole_amounts] tests. *)
Definition whole_ledger (txs : list (transaction float)) : Prop :=
  Forall (fun t => whole_or_negative_zero (amount t) (whole_amount t)) txs
  /\ sum_over (fun t => Z.abs (whole_amount t)) txs < 2 ^ 53.

(** The integer the amounts of type [ty] add up to, in month [k] and in
    the whole ledger, and the same for their magnitudes. *)
Definition month_value (ty : txType) (cm k : string) (txs : list (transaction float)) : Z :=
  sum_over whole_amount (filter (fun t => in_month cm k t && txType_eqb (type t) ty) txs).

Definition month_weight (ty : txType) (cm k : string) (txs : list (transaction float)) : Z :=
  sum_over (fun t => Z.abs (whole_amount t))
    (filter (fun t => in_month cm k t && txType_eqb (type t) ty) txs).

Definition type_value (ty : txType) (txs : list (transaction float)) : Z :=
  sum_over whole_amount (filter (fun t => txType_eqb (type t) ty) txs).

Definition type_weight (ty : txType) (txs : list (transaction float)) : Z :=
  sum_over (fun t => Z.abs (whole_amount t)) (filter (fun t => txType_eqb (type t) ty) txs).

(** ** Texts *)

(** A text of decimal digits. *)
Fixpoint all_digits (s : string) : bool :=
  match s with
  | EmptyString => true
  | String c s' => JsString.is_digit c && all_digits s'
  end.

(** An amount written with two decimals: an optional minus sign, one or
    more digits, a point, and exactly two digits. *)
Definition two_decimals (s : string) : bool :=
  let body :=
    match s with
    | String c r => if Ascii.eqb c "-" then r else s
    | EmptyString => s
    end in
  let (int_part, rest) := JsNumber.span_digits body in
  negb (int_part =? "")%string
  && match rest with
     | String c (String a (String b EmptyString)) =>
         Ascii.eqb c "." && JsString.is_digit a && JsString.is_digit b
     | _ => false
     end.

(** A text of the form [YYYY-MM-DD]: ten characters, digits but for the
    two hyphens. *)
Definition ymd_form (s : string) : bool :=
  (String.length s =? 10)%nat
  && all_digits (substring 0 4 s) && JsDate.char_is s 4 "-"
  && all_digits (substring 5 2 s) && JsDate.char_is s 7 "-"
  && all_digits (substring 8 2 s).

(** The inverse of the doubling of quotes. *)
Fixpoint undouble (s : string) : string :=
  match s with
  | EmptyString => EmptyString
  | String c tail =>
      match tail with
      | String c' r =>
          if Ascii.eqb c JsString.dquote_char && Ascii.eqb c' JsString.dquote_char
          then String c (undouble r)
          else String c (undouble tail)
      | EmptyString => s
      end
  end.

Fixpoint has_quote (s : string) : bool :=
  match s with
  | EmptyString => false
  | String c s' => Ascii.eqb c JsString.dquote_char || has_quote s'
  end.

(** A text between double quotes. *)
Definition quoted (text : string) : string :=
  (JsString.dquote ++ text ++ JsString.dquote)%string.

Fixpoint all_whitespace (s : string) : bool :=
  match s with
  | EmptyString => true
  | String c s' => JsString.is_whitespace c && all_whitespace s'
  end.

Definition starts_with_whitespace (s : string) : bool :=
  match s with
  | String c _ => JsString.is_whitespace c
  | EmptyString => false
  end.

Fixpoint ends_with_whitespace (s : string) : bool :=
  match s with
  | EmptyString => false
  | String c EmptyString => JsString.is_whitespace c
  | String _ s' => ends_with_whitespace s'
  end.

(** [s'] is [s] without the white space at its two ends. *)
Definition trimmed (s s' : string) : Prop :=
  exists l r : string,
    s = (l ++ s' ++ r)%string
    /\ all_whitespace l = true /\ all_whitespace r = true
    /\ starts_with_whitespace s' = false /\ ends_with_whitespace s' = false.

(** ** Filters *)

(** The category test of [applyFilters] for the value [c] of the category
    select: every entry passes when [c] is empty or [all], and the entries
    of category [c] otherwise. *)
Definition category_test {num} (c : string) (t : transaction num) : bool :=
  (c =? "")%string || (c =? "all")%string || (category t =? c)%string.

(** ** Reading a CSV text *)

(** A reader of CSV texts whose cells are all between double quotes: cells
    are separated by commas and rows by line feeds, and inside a cell two
    double quotes stand for one.  The reader goes through the text one
    character at a time; it is outside a cell, inside one, or just after a
    double quote met inside one. *)
Inductive csv_mode : Type := Outside | Inside | AfterQuote.

Record csv_state : Type := mkCsvState {
  rows_read : list (list string);
  cells_read : list string;
  cell_read : string;
  csv_mode_of : csv_mode
}.

Definition csv_step (st : csv_state) (c : ascii) : option csv_state :=
  let rows := rows_read st in
  let cells := cells_read st in
  let cell := cell_read st in
  match csv_mode_of st with
  | Outside =>
      if Ascii.eqb c JsString.dquote_char
      then Some (mkCsvState rows cells "" Inside) else None
  | Inside =>
      if Ascii.eqb c JsString.dquote_char
      then Some (mkCsvState rows cells cell AfterQuote)
      else Some (mkCsvState rows cells (cell ++ String c "")%string Inside)
  | AfterQuote =>
      if Ascii.eqb c JsString.dquote_char
      then Some (mkCsvState rows cells (cell ++ JsString.dquote)%string Inside)
      else if Ascii.eqb c ","
      then Some (mkCsvState rows (cells ++ [cell]) "" Outside)
      else if Ascii.eqb c (ascii_of_nat 10)
      then Some (mkCsvState (rows ++ [cells ++ [cell]]) [] "" Outside)
      else None
  end.

Fixpoint csv_run (st : csv_state) (text : string) : option csv_state :=
  match text with
  | EmptyString => Some st
  | String c rest =>
      match csv_step st c with
      | Some st' => csv_run st' rest
      | None => None
      end
  end.

(** The rows of cells a text holds, when it is well formed: it ends just
    after the closing quote of a cell. *)
Definition csv_read (text : string) : option (list (list string)) :=
  match csv_run (mkCsvState [] [] "" Outside) text with
  | Some st =>
      match csv_mode_of st with
      | AfterQuote => Some (rows_read st ++ [cells_read st ++ [cell_read st]])
      | _ => None
      end
  | None => None
  end.

(** ** Stored values *)

(** [null] and [undefined]. *)
Definition nullish (v : value) : bool :=
  match v with
  | VUndefined | VNull => true
  | _ => false
  end.

Definition is_array (v : value) : bool :=
  match v with
  | VArray _ => true
  | _ => false
  end.

(** The property [key] of a value that is not nullish. *)
Definition prop (t : value) (key : string) : value :=
  match t with
  | VObject props => lookup key props
  | _ => VUndefined
  end.

(** Records the normaliser cannot read: [null] and [undefined], whose
    properties cannot be read, and records whose [amount] cannot be
    converted to a number. *)
Definition unreadable (t : value) : bool :=
  nullish t || ToPrimitive_throws (prop t "amount").

(** What the normaliser makes of a record [t]: a missing property gets its
    default, a property that is there is kept ([amount] through [Number]),
    and [type] is [expense] for the string ['expense'] only. *)
Record normalized (r : reading) (t : value) (e : Loaded.transaction) : Prop := {
  norm_id :
    Loaded.id e = if nullish (prop t "id")
                  then VNumber (JsNumber.of_Z (Date_now r + random_offset r))
                  else prop t "id";
  norm_name :
    Loaded.name e = if nullish (prop t "name") then VString "Unnamed" else prop t "name";
  norm_amount :
    ToNumber (if nullish (prop t "amount") then VNumber 0%float else prop t "amount")
    = Normal (Loaded.amount e);
  norm_type :
    Loaded.type e = match prop t "type" with
                    | VString s => if (s =? "expense")%string then expense else income
                    | _ => income
                    end;
  norm_date :
    Loaded.date e = if nullish (prop t "date") then VString (today r) else prop t "date";
  norm_category :
    Loaded.category e = if nullish (prop t "category") then VString "Uncategorized"
                        else prop t "category"
}.

(** A stored text that cannot be used: none, the empty text, a text that
    does not parse, or one that parses to something that is no array. *)
Definition unusable (JSON_parse : string -> completion value)
    (raw : option string) : Prop :=
  match raw with
  | None => True
  | Some text =>
      text = ""
      \/ (exists e, JSON_parse text = Throw e)
      \/ (exists v, JSON_parse text = Normal v /\ is_array v = false)
  end.

(** The invariants of the data model, as tests on a stored object. *)
Definition nonempty_text (v : value) : bool :=
  match v with
  | VString s => negb (s =? "")%string
  | _ => false
  end.

Definition date_ok (v : value) : bool :=
  match v with
  | VString s => ymd_form s
  | _ => false
  end.

Definition non_negative (x : float) : bool := PrimFloat.leb 0 x.

(** ** The transaction form *)

(** The amount the submit handler works with: the magnitude of the number
    typed. *)
Definition typed_amount (form : transactionForm) : float :=
  JsNumber.Math_abs (JsNumber.StringToNumber (transactionAmount form)).

(** An amount that is a number, finite, and not [<= 0]. *)
Definition amount_accepted (a : float) : bool :=
  negb (JsNumber.isNaN a) && JsNumber.isFinite a && negb (PrimFloat.leb a 0).

(** A form with something other than white space in the name, an accepted
    amount, and a category that is empty or has something other than white
    space in it. *)
Definition form_accepted (form : transactionForm) : bool :=
  negb (JsString.trim (transactionName form) =? "")%string
  && amount_accepted (typed_amount form)
  && ((transactionCategory form =? "")%string
      || negb (JsString.trim (transactionCategory form) =? "")%string).

(** The date and the category the submit handler hands on: today's date
    for an empty date input and [Uncategorized] for an empty category
    input. *)
Definition submitted_date (r : reading) (form : transactionForm) : string :=
  if JsString.truthy (transactionDate form) then transactionDate form else today r.

Definition submitted_category (form : transactionForm) : string :=
  if JsString.truthy (transactionCategory form)
  then transactionCategory form else "Uncategorized".

(** The entry an accepted form stands for. *)
Definition form_entry (r : reading) (form : transactionForm) : transaction float :=
  mkTransaction
    (Date_now r + random_offset r)
    (JsString.trim (transactionName form))
    (typed_amount form)
    (transactionType form)
    (Some (if (transactionDate form =? "")%string then today r else transactionDate form))
    (if (transactionCategory form =? "")%string then "Uncategorized"
     else JsString.trim (transactionCategory form)).

(** What the normaliser stores for an entry of the ledger. *)
Definition stored (t : transaction float) : Loaded.transaction :=
  Loaded.mk (VNumber (JsNumber.of_Z (id t))) (VString (name t)) (amount t) (type t)
    (match date t with
     | Some d => VString d
     | None => VUndefined
     end)
    (VString (category t)).

(** ** The calendar *)

(** [check_range p n lo]: the test [p] holds of the [2 ^ n] integers from
    [lo] on. *)
Fixpoint check_range (p : Z -> bool) (n : nat) (lo : Z) : bool :=
  match n with
  | O => p lo
  | S n' => check_range p n' lo && check_range p n' (lo + 2 ^ Z.of_nat n')
  end.

(** What [civil_from_days] makes of the day [doe] of a cycle of 400
    years: the year of the cycle, the month and the day. *)
Definition civil_of_doe (doe : Z) : Z * Z * Z :=
  let yoe := (doe - doe / 1460 + doe / 36524 - doe / 146096) / 365 in
  let doy := doe - (365 * yoe + yoe / 4 - yoe / 100) in
  let mp := (5 * doy + 2) / 153 in
  let d := doy - (153 * mp + 2) / 5 + 1 in
  let m := if mp <? 10 then mp + 3 else mp - 9 in
  (yoe, m, d).

(** For a day of the cycle: the result is a calendar date, and
    [days_from_civil] counts the same day of the cycle for it. *)
Definition doe_ok (doe : Z) : bool :=
  if (0 <=? doe) && (doe <? 146097) then
    let '(yoe, m, d) := civil_of_doe doe in
    let y := if m <=? 2 then yoe + 1 else yoe in
    (0 <=? yoe) && (yoe <=? 399) && (1 <=? m) && (m <=? 12)
    && (1 <=? d) && (d <=? JsDate.days_in_month y m)
    && (let mp := if 2 <? m then m - 3 else m + 9 in
        yoe * 365 + yoe / 4 - yoe / 100 + ((153 * mp + 2) / 5 + d - 1) =? doe)
  else true.

(** ** The page *)

(** The state of a page that hangs together: the category select offers
    [all] and the categories of the array; what was written to the storage
    is the array as it is now; and the select has no option selected or
    one of its options. *)
Definition page_ok (collate : string -> string -> Z)
    (JSON_stringify : value -> string) (p : page) : Prop :=
  page_options p = "all" :: getAllCategories collate (page_transactions p)
  /\ (page_written p = None
      \/ page_written p = Some (saveTransactions JSON_stringify (page_transactions p)))
  /\ (filterCategorySelect (page_filter p) = ""
      \/ In (filterCategorySelect (page_filter p)) (page_options p)).

(** An entry as the form makes them: a name, a category and a date that
    are not empty, and an amount that is a finite number above zero. *)
Definition well_formed (t : transaction float) : Prop :=
  name t <> "" /\ category t <> ""
  /\ (exists d, date t = Some d /\ d <> "")
  /\ amount_accepted (amount t) = true.

(** ** Example data *)

(** The ledger of the specification's example scenario, with integer
    amounts. *)
Definition ledger_abc : list (transaction Z) :=
  [ mkTransaction 1 "Salary" 100 income (Some "2024-01-05") "Salary";
    mkTransaction 2 "Lunch" 30 expense (Some "2024-01-10") "Food";
    mkTransaction 3 "Bonus" 50 income (Some "2024-02-01") "Salary" ].

(** The same ledger with JavaScript numbers as amounts. *)
Definition ledger_example : list (transaction float) :=
  [ mkTransaction 1 "Salary" 100%float income (Some "2024-01-05") "Salary";
    mkTransaction 2 "Lunch" 30%float expense (Some "2024-01-10") "Food";
    mkTransaction 3 "Bonus" 50%float income (Some "2024-02-01") "Salary" ].

(** A ledger of tenths: 0.1 in January, 0.2 and 0.3 in February. *)
Definition ledger_tenths : list (transaction float) :=
  [ mkTransaction 1 "a" 0.1%float income (Some "2024-01-05") "Salary";
    mkTransaction 2 "b" 0.2%float income (Some "2024-02-10") "Salary";
    mkTransaction 3 "c" 0.3%float income (Some "2024-02-11") "Salary" ].

(** A ledger of whole amounts that leave the integers binary64 holds
    exactly: 2^53 in January, 1 and 1 in February. *)
Definition ledger_large : list (transaction float) :=
  [ mkTransaction 1 "a" 9007199254740992%float income (Some "2024-01-05") "Salary";
    mkTransaction 2 "b" 1%float income (Some "2024-02-10") "Salary";
    mkTransaction 3 "c" 1%float income (Some "2024-02-11") "Salary" ].

(** The entry of the specification's CSV example. *)
Definition coffee_break : transaction float :=
  mkTransaction 1 ("Coffee " ++ quoted "Break")%string 4.5%float expense
    (Some "2024-01-10") "Food".

(** A record whose amount is an object with a property [toString] that is
    no function, and the text of an array that holds it after an empty
    record. *)
Definition stubborn_amount : value :=
  VObject [("amount", VObject [("toString", VNumber 1%float)])].

Definition stubborn_blob : string :=
  ("[{},{" ++ quoted "amount" ++ ":{" ++ quoted "toString" ++ ":1}}]")%string.

(** A stand-in for [JSON.parse] that knows five texts. *)
Definition parse_fixture (text : string) : completion value :=
  if (text =? "{}")%string then Normal (VObject [])
  else if (text =? stubborn_blob)%string then Normal (VArray [VObject []; stubborn_amount])
  else if (text =? "[5]")%string then Normal (VArray [VNumber 5%float])
  else if (text =? "[{},null]")%string then Normal (VArray [VObject []; VNull])
  else if (text =? "[{},{}]")%string then Normal (VArray [VObject []; VObject []])
  else Throw SyntaxError.

(** Readings of a clock started on 2024-01-10 that advances by a
    millisecond per call, with the random offset 7. *)
Definition readings_2024 (i : nat) : reading :=
  mkReading (1704844800000 + Z.of_nat i) 7.

(** Two stored records: one with nothing but a name, one with every
    property. *)
Definition stored_records : list value :=
  [ VObject [("name", VString "X")];
    VObject [("id", VNumber 7%float); ("name", VString "Rent");
             ("amount", VString "12.5"); ("type", VString "expense");
             ("date", VString "2024-01-10"); ("category", VString "Home")] ].

(** A record with an empty name and category, a negative amount and a date
    in words; a record whose amount is no number; and [null]. *)
Definition careless_record : value :=
  VObject [("name", VString ""); ("amount", VNumber (-5)%float);
           ("date", VString "yesterday"); ("category", VString "")].

Definition wordy_amount : value := VObject [("amount", VString "abc")].

(** Stand-ins for [JSON.stringify] and [JSON.parse] that know the example
    ledger. *)
Definition stringify_fixture (v : value) : string := "[...]".

Definition parse_back_fixture (text : string) : completion value :=
  Normal (VArray (map to_value ledger_example)).

(* ===================================================================== *)
(** * Properties: filtering *)
(* ===================================================================== *)

Lemma subsequence_refl {A : Type} (l : list A) : subsequence l l.
Proof. induction l; constructor; assumption. Qed.

Lemma filter_subsequence {A : Type} (p : A -> bool) (l : list A) :
  subsequence (filter p l) l.
Proof.
  induction l as [|x l IH]; simpl.
  - constructor.
  - destruct (p x); constructor; exact IH.
Qed.

Section FilterFacts.

Context {num : Type}.

(** With both date inputs empty and the category select on [all] (or
    empty), [getFilters] returns no bound and the category [all]. *)
Lemma getFilters_clear (tza : Z) (cat : string) :
  cat = "all" \/ cat = "" ->
  getFilters tza (mkFilterForm "" "" cat) = mkFilters None None "all".
Proof. intros [-> | ->]; reflexivity. Qed.

Lemma passes_clear (tza : Z) (t : transaction num) :
  passes tza (mkFilters None None "all") t = true.
Proof. reflexivity. Qed.

End FilterFacts.

(** C8.  With the category [all] and no date bound the filter returns its
    input unchanged; and whatever the form holds, the output is a
    subsequence of the input: the entries kept stay in their order. *)
Theorem applyFilters_stable :
  forall (num : Type) (tza : Z) (transArray : list (transaction num)),
    applyFilters tza (mkFilterForm "" "" "all") transArray = transArray
    /\ forall form : filterForm,
         subsequence (applyFilters tza form transArray) transArray.
Proof.
  intros num tza transArray. split.
  - unfold applyFilters. rewrite getFilters_clear by (left; reflexivity).
    rewrite (filter_ext _ (fun _ => true)) by (intros t; apply passes_clear).
    apply filter_true.
  - intros form. apply filter_subsequence.
Qed.

Lemma filter_filter_andb {A : Type} (p q : A -> bool) (l : list A) :
  filter p (filter q l) = filter (fun x => q x && p x) l.
Proof.
  induction l as [|x l IH]; simpl.
  - reflexivity.
  - destruct (q x); simpl; [destruct (p x) |]; rewrite IH; reflexivity.
Qed.

Section FilterComposition.

Context {num : Type}.

(** Without date bounds what is left of [applyFilters] is the category
    test. *)
Lemma passes_category (tza : Z) (c : string) (t : transaction num) :
  passes tza (getFilters tza (mkFilterForm "" "" c)) t = category_test c t.
Proof.
  unfold passes, getFilters, category_test, JsString.truthy.
  cbn [filterStart filterEnd filterCategorySelect f_start f_end f_category option_map].
  change (("" =? "")%string) with true. cbn [negb].
  destruct (String.eqb_spec c "") as [-> | Hc]; [reflexivity |].
  cbn [negb orb]. rewrite (proj2 (String.eqb_neq c "") Hc). cbn [negb andb].
  destruct (c =? "all")%string; [reflexivity |].
  destruct (category t =? c)%string; reflexivity.
Qed.

(** An entry passes when it passes the date bounds and the category
    test. *)
Lemma passes_split (tza : Z) (form : filterForm) (t : transaction num) :
  passes tza (getFilters tza form) t
  = passes tza (getFilters tza (mkFilterForm (filterStart form) (filterEnd form) "all")) t
    && category_test (filterCategorySelect form) t.
Proof.
  rewrite <- (passes_category tza).
  unfold passes, getFilters, JsString.truthy.
  cbn [filterStart filterEnd filterCategorySelect f_start f_end f_category option_map].
  change (("" =? "")%string) with true. change (("all" =? "")%string) with false.
  change (("all" =? "all")%string) with true.
  cbn [negb andb].
  destruct (match (if negb (filterStart form =? "")%string
                   then Some (JsDate.Date_new tza (filterStart form)) else None) with
            | Some start => JsDate.lt _ start
            | None => false
            end); [reflexivity |].
  destruct (match option_map (JsDate.setHours_23_59_59_999 tza)
                    (if negb (filterEnd form =? "")%string
                     then Some (JsDate.Date_new tza (filterEnd form)) else None) with
            | Some end1 => JsDate.gt _ end1
            | None => false
            end); reflexivity.
Qed.

End FilterComposition.

(** The criteria of the filter work one after the other: filtering with a
    form is filtering by its date bounds and then by its category; without
    date bounds the filter keeps every entry when the category select is
    empty or on [all], and exactly the entries of the selected category
    otherwise; and filtering a second time with the same form changes
    nothing. *)
Theorem applyFilters_compose :
  forall (num : Type) (tza : Z) (form : filterForm) (txs : list (transaction num)),
    applyFilters tza form txs
    = applyFilters tza (mkFilterForm "" "" (filterCategorySelect form))
        (applyFilters tza (mkFilterForm (filterStart form) (filterEnd form) "all") txs)
    /\ applyFilters tza (mkFilterForm "" "" (filterCategorySelect form)) txs
       = filter (category_test (filterCategorySelect form)) txs
    /\ applyFilters tza form (applyFilters tza form txs) = applyFilters tza form txs.
Proof.
  intros num tza form txs. unfold applyFilters. split; [| split].
  - rewrite filter_filter_andb. apply filter_ext. intros t.
    rewrite passes_category. apply passes_split.
  - apply filter_ext. intros t. apply passes_category.
  - rewrite filter_filter_andb. apply filter_ext. intros t. apply andb_diag.
Qed.

(** An entry without a date, or with the empty text as date, is never
    left out by the date bounds, whatever the two date inputs hold: its
    date is an Invalid Date, and every comparison with it is false.  Only
    the category decides. *)
Theorem undated_entry_passes :
  forall (num : Type) (tza : Z) (form : filterForm) (t : transaction num),
    date t = None \/ date t = Some "" ->
    passes tza (getFilters tza form) t = category_test (filterCategorySelect form) t.
Proof.
  intros num tza form t Hd. rewrite passes_split.
  replace (passes tza
             (getFilters tza (mkFilterForm (filterStart form) (filterEnd form) "all")) t)
    with true; [reflexivity |].
  unfold passes, getFilters, date_text.
  cbn [filterStart filterEnd filterCategorySelect f_start f_end f_category].
  assert (Hnew : JsDate.Date_new tza
                   (match date t with Some d => d | None => "undefined" end
                    ++ "T00:00:00")%string = None).
  { destruct Hd as [-> | ->]; reflexivity. }
  rewrite Hnew. unfold JsDate.gt, JsDate.lt.
  destruct (JsString.truthy (filterStart form));
    destruct (JsString.truthy (filterEnd form)); cbn [option_map];
    repeat match goal with
           | |- context [JsDate.setHours_23_59_59_999 ?z ?d] =>
               destruct (JsDate.setHours_23_59_59_999 z d)
           end; reflexivity.
Qed.

(** An entry of January without a date, under a filter for the Food
    entries of 6 to 31 January. *)
Lemma undated_entry_passes_witness :
  passes 0 (getFilters 0 (mkFilterForm "2024-01-06" "2024-01-31" "Food"))
    (mkTransaction 1 "Lunch" 30 expense None "Food" : transaction Z) = true.
Proof.
  rewrite (undated_entry_passes Z 0 (mkFilterForm "2024-01-06" "2024-01-31" "Food")
             (mkTransaction 1 "Lunch" 30 expense None "Food")).
  - reflexivity.
  - left. reflexivity.
Defined.

(* ===================================================================== *)
(** * Properties: deleting *)
(* ===================================================================== *)

Section DeleteFacts.

Context {num : Type}.

Lemma deleteTransaction_app (id0 : Z) (l1 l2 : list (transaction num)) :
  deleteTransaction id0 (l1 ++ l2) = deleteTransaction id0 l1 ++ deleteTransaction id0 l2.
Proof. apply filter_app. Qed.

Lemma deleteTransaction_absent (id0 : Z) (l : list (transaction num)) :
  (forall t, In t l -> id t <> id0) -> deleteTransaction id0 l = l.
Proof.
  intros Hl. induction l as [|t l IH]; simpl.
  - reflexivity.
  - destruct (Z.eqb_spec (id t) id0) as [E | _]; simpl.
    + exfalso. apply (Hl t); [left; reflexivity | exact E].
    + f_equal. apply IH. intros u Hu. apply Hl. right. exact Hu.
Qed.

End DeleteFacts.

(** C9.  After [deleteTransaction id0] no entry has the id [id0]; the
    entries left are a subsequence of the ledger and hold every entry of
    another id; where the id is the id of one entry only, exactly that
    entry goes and the entries around it stay as they are; and when no
    entry has the id, the ledger is unchanged. *)
Theorem deleteTransaction_spec :
  forall (num : Type) (id0 : Z) (transactions : list (transaction num)),
    Forall (fun t => id t <> id0) (deleteTransaction id0 transactions)
    /\ subsequence (deleteTransaction id0 transactions) transactions
    /\ (forall t, In t transactions -> id t <> id0 ->
          In t (deleteTransaction id0 transactions))
    /\ (forall l1 t l2,
          transactions = l1 ++ t :: l2 -> id t = id0 ->
          (forall u, In u (l1 ++ l2) -> id u <> id0) ->
          deleteTransaction id0 transactions = l1 ++ l2)
    /\ ((forall t, In t transactions -> id t <> id0) ->
          deleteTransaction id0 transactions = transactions).
Proof.
  intros num id0 transactions. repeat split.
  - apply Forall_forall. intros t Ht. apply filter_In in Ht. destruct Ht as [_ Ht].
    apply negb_true_iff in Ht. apply Z.eqb_neq. exact Ht.
  - apply filter_subsequence.
  - intros t Hin Hne. apply filter_In. split; [exact Hin |].
    apply negb_true_iff. apply Z.eqb_neq. exact Hne.
  - intros l1 t l2 -> Hid Hothers.
    change (t :: l2) with ([t] ++ l2).
    rewrite !deleteTransaction_app.
    rewrite (deleteTransaction_absent id0 l1), (deleteTransaction_absent id0 l2).
    + simpl. rewrite Hid, Z.eqb_refl. reflexivity.
    + intros u Hu. apply Hothers. apply in_or_app. right. exact Hu.
    + intros u Hu. apply Hothers. apply in_or_app. left. exact Hu.
  - apply deleteTransaction_absent.
Qed.

(** C9 on an example.  Deleting id 2 from a ledger of ids 1, 2, 3 leaves
    the entries 1 and 3; deleting the unknown id 9 leaves the ledger as it
    is. *)
Lemma deleteTransaction_spec_witness :
  map id (deleteTransaction 2 ledger_abc) = [1; 3]
  /\ deleteTransaction 9 ledger_abc = ledger_abc.
Proof.
  destruct (deleteTransaction_spec Z 9 ledger_abc) as (_ & _ & _ & _ & Hnoop).
  destruct (deleteTransaction_spec Z 2 ledger_abc) as (_ & _ & _ & Hone & _).
  split.
  - rewrite (Hone [mkTransaction 1 "Salary" 100 income (Some "2024-01-05") "Salary"]
               (mkTransaction 2 "Lunch" 30 expense (Some "2024-01-10") "Food")
               [mkTransaction 3 "Bonus" 50 income (Some "2024-02-01") "Salary"]).
    + reflexivity.
    + reflexivity.
    + reflexivity.
    + simpl. intros u [<- | [<- | []]]; simpl; lia.
  - apply Hnoop. simpl. intros t [<- | [<- | [<- | []]]]; simpl; lia.
Defined.

(** Deletions can be done in any order, deleting twice is deleting once,
    and the filter and a deletion commute: what the filter shows after a
    deletion is what it showed before, without the entries deleted. *)
Theorem deleteTransaction_compose :
  forall (num : Type) (tza : Z) (form : filterForm) (i j : Z)
         (txs : list (transaction num)),
    deleteTransaction i (deleteTransaction j txs)
    = deleteTransaction j (deleteTransaction i txs)
    /\ deleteTransaction i (deleteTransaction i txs) = deleteTransaction i txs
    /\ applyFilters tza form (deleteTransaction i txs)
       = deleteTransaction i (applyFilters tza form txs).
Proof.
  intros num tza form i j txs. unfold deleteTransaction, applyFilters.
  rewrite !filter_filter_andb. split; [| split]; apply filter_ext; intros t.
  - apply andb_comm.
  - apply andb_diag.
  - apply andb_comm.
Qed.

(* ===================================================================== *)
(** * Properties: arrays and Maps of the runtime *)
(* ===================================================================== *)

Section SortFacts.

Context {A : Type} (comparefn : A -> A -> Z).

Lemma sort_insert_perm (x : A) (l : list A) :
  Permutation (sort_insert comparefn x l) (x :: l).
Proof.
  induction l as [|y r IH]; simpl.
  - apply Permutation_refl.
  - destruct (comparefn x y <=? 0).
    + apply Permutation_refl.
    + apply perm_trans with (y :: x :: r).
      * apply perm_skip. exact IH.
      * apply perm_swap.
Qed.

Lemma Array_sort_perm (l : list A) : Permutation (Array_sort comparefn l) l.
Proof.
  induction l as [|x l IH]; simpl.
  - apply perm_nil.
  - apply perm_trans with (x :: Array_sort comparefn l).
    + apply sort_insert_perm.
    + apply perm_skip. exact IH.
Qed.

(** A comparator that orders any two elements one way or the other, and
    does so transitively. *)
Hypothesis comparefn_total :
  forall x y, 0 < comparefn x y -> comparefn y x <= 0.
Hypothesis comparefn_trans :
  forall x y z, comparefn x y <= 0 -> comparefn y z <= 0 -> comparefn x z <= 0.

Lemma sort_insert_sorted (x : A) (l : list A) :
  StronglySorted (ordered_by comparefn) l -> StronglySorted (ordered_by comparefn) (sort_insert comparefn x l).
Proof.
  induction l as [|y r IH]; simpl; intros Hs.
  - constructor; constructor.
  - destruct (Z.leb_spec (comparefn x y) 0) as [Hle | Hgt].
    + constructor.
      * exact Hs.
      * constructor.
        -- exact Hle.
        -- apply StronglySorted_inv in Hs. destruct Hs as [_ Hy].
           eapply Forall_impl; [| exact Hy].
           intros z Hz. exact (comparefn_trans x y z Hle Hz).
    + apply StronglySorted_inv in Hs. destruct Hs as [Hr Hy].
      constructor.
      * apply IH. exact Hr.
      * apply Forall_forall. intros z Hz.
        apply (Permutation_in _ (sort_insert_perm x r)) in Hz.
        destruct Hz as [<- | Hz].
        -- apply comparefn_total. exact Hgt.
        -- rewrite Forall_forall in Hy. apply Hy. exact Hz.
Qed.

Lemma Array_sort_sorted (l : list A) : StronglySorted (ordered_by comparefn) (Array_sort comparefn l).
Proof.
  induction l as [|x l IH]; simpl.
  - constructor.
  - apply sort_insert_sorted. exact IH.
Qed.

End SortFacts.

Section MapFacts.

Context {V : Type}.

Lemma Map_get_set_eq (k : string) (v : V) (m : Map V) :
  Map_get k (Map_set k v m) = Some v.
Proof.
  induction m as [|[k' v'] r IH]; simpl.
  - rewrite String.eqb_refl. reflexivity.
  - destruct (String.eqb_spec k' k) as [-> | Hne]; simpl.
    + rewrite String.eqb_refl. reflexivity.
    + apply String.eqb_neq in Hne. rewrite Hne. exact IH.
Qed.

Lemma Map_get_set_ne (k k' : string) (v : V) (m : Map V) :
  k <> k' -> Map_get k' (Map_set k v m) = Map_get k' m.
Proof.
  intros Hne. induction m as [|[k0 v0] r IH]; simpl.
  - destruct (String.eqb_spec k k'); [contradiction | reflexivity].
  - destruct (String.eqb_spec k0 k) as [-> | Hk0]; simpl.
    + destruct (String.eqb_spec k k'); [contradiction | reflexivity].
    + destruct (String.eqb_spec k0 k'); [reflexivity | exact IH].
Qed.

Lemma Map_get_In (k : string) (v : V) (m : Map V) :
  Map_get k m = Some v -> In (k, v) m.
Proof.
  induction m as [|[k0 v0] r IH]; simpl; intros Hg.
  - discriminate.
  - destruct (String.eqb_spec k0 k) as [-> | _].
    + injection Hg as ->. left. reflexivity.
    + right. apply IH. exact Hg.
Qed.

Lemma Map_get_None (k : string) (m : Map V) :
  Map_get k m = None <-> ~ In k (keys m).
Proof.
  induction m as [|[k0 v0] r IH]; simpl.
  - split; [intros _ [] | reflexivity].
  - destruct (String.eqb_spec k0 k) as [-> | Hne].
    + split; [discriminate | intros Hn; exfalso; apply Hn; left; reflexivity].
    + rewrite IH. split.
      * intros Hn [E | Hin]; [apply Hne; exact E | apply Hn; exact Hin].
      * intros Hn Hin. apply Hn. right. exact Hin.
Qed.

Lemma In_Map_get (k : string) (v : V) (m : Map V) :
  NoDup (keys m) -> In (k, v) m -> Map_get k m = Some v.
Proof.
  induction m as [|[k0 v0] r IH]; simpl; intros Hnd Hin.
  - destruct Hin.
  - apply NoDup_cons_iff in Hnd. destruct Hnd as [Hk0 Hnd].
    destruct Hin as [E | Hin].
    + injection E as -> ->. rewrite String.eqb_refl. reflexivity.
    + destruct (String.eqb_spec k0 k) as [-> | _].
      * exfalso. apply Hk0. change k with (fst (k, v)). apply in_map. exact Hin.
      * apply IH; assumption.
Qed.

(** [map.set] keeps the keys in place and adds a new key at the end. *)
Lemma keys_Map_set (k : string) (v : V) (m : Map V) :
  keys (Map_set k v m) = if Map_has k m then keys m else keys m ++ [k].
Proof.
  unfold Map_has. induction m as [|[k0 v0] r IH]; simpl.
  - reflexivity.
  - destruct (String.eqb_spec k0 k) as [-> | Hne]; simpl.
    + reflexivity.
    + rewrite IH. destruct (Map_get k r); reflexivity.
Qed.

Lemma NoDup_keys_Map_set (k : string) (v : V) (m : Map V) :
  NoDup (keys m) -> NoDup (keys (Map_set k v m)).
Proof.
  intros Hnd. rewrite keys_Map_set. unfold Map_has.
  destruct (Map_get k m) eqn:Hg.
  - exact Hnd.
  - apply Map_get_None in Hg.
    apply (Permutation_NoDup (Permutation_cons_append (keys m) k)).
    constructor; assumption.
Qed.

End MapFacts.

(** The order by code units is a total preorder, and zero on equal strings
    only. *)
Lemma code_unit_order_total (a b : string) :
  0 < JsString.code_unit_order a b -> JsString.code_unit_order b a <= 0.
Proof.
  unfold JsString.code_unit_order. rewrite (String.compare_antisym b a).
  destruct (String.compare a b); simpl; lia.
Qed.

Lemma code_unit_order_trans (a b c : string) :
  JsString.code_unit_order a b <= 0 -> JsString.code_unit_order b c <= 0 ->
  JsString.code_unit_order a c <= 0.
Proof.
  unfold JsString.code_unit_order.
  destruct (String.compare a b) eqn:Hab; try lia;
    destruct (String.compare b c) eqn:Hbc; try lia; intros _ _.
  - apply String_as_OT.cmp_eq in Hab. subst b. rewrite Hbc. lia.
  - apply String_as_OT.cmp_eq in Hab. subst b. rewrite Hbc. lia.
  - apply String_as_OT.cmp_eq in Hbc. subst c. rewrite Hab. lia.
  - apply String_as_OT.cmp_lt in Hab, Hbc.
    pose proof (String_as_OT.lt_trans _ _ _ Hab Hbc) as Hac.
    apply String_as_OT.cmp_lt in Hac. unfold String_as_OT.cmp in Hac.
    rewrite Hac. lia.
Qed.

Lemma code_unit_order_antisym (a b : string) :
  JsString.code_unit_order a b <= 0 -> JsString.code_unit_order b a <= 0 -> a = b.
Proof.
  unfold JsString.code_unit_order. rewrite (String.compare_antisym b a).
  destruct (String.compare a b) eqn:E; simpl; try lia.
  intros _ _. apply String_as_OT.cmp_eq in E. exact E.
Qed.

(* ===================================================================== *)
(** * Properties: categories *)
(* ===================================================================== *)

Lemma Set_has_In (x : string) (s : list string) : Set_has x s = true <-> In x s.
Proof.
  unfold Set_has. rewrite existsb_exists. split.
  - intros (y & Hy & E). apply String.eqb_eq in E. subst y. exact Hy.
  - intros Hx. exists x. split; [exact Hx | apply String.eqb_refl].
Qed.

Lemma Set_add_In (x y : string) (s : list string) :
  In y (Set_add x s) <-> y = x \/ In y s.
Proof.
  unfold Set_add. destruct (Set_has x s) eqn:E.
  - apply Set_has_In in E. split; [auto | intros [-> | H]; assumption].
  - rewrite in_app_iff. simpl. split.
    + intros [H | [<- | []]]; [right; exact H | left; reflexivity].
    + intros [-> | H]; [right; left; reflexivity | left; exact H].
Qed.

Lemma Set_add_NoDup (x : string) (s : list string) : NoDup s -> NoDup (Set_add x s).
Proof.
  intros Hnd. unfold Set_add. destruct (Set_has x s) eqn:E.
  - exact Hnd.
  - apply (Permutation_NoDup (Permutation_cons_append s x)).
    constructor; [| exact Hnd].
    intros Hin. apply Set_has_In in Hin. congruence.
Qed.

Section CategoryFacts.

Context {num : Type}.

Lemma category_set_In (txs : list (transaction num)) : forall (s : list string) (c : string),
  In c (fold_left (fun set t => Set_add (category_label t) set) txs s)
  <-> In c s \/ exists t, In t txs /\ category_label t = c.
Proof.
  induction txs as [|t txs IH]; intros s c; cbn [fold_left].
  - split; [auto | intros [H | (t & [] & _)]; exact H].
  - rewrite IH, Set_add_In. split.
    + intros [[-> | H] | (u & Hu & E)].
      * right. exists t. split; [left; reflexivity | reflexivity].
      * left. exact H.
      * right. exists u. split; [right; exact Hu | exact E].
    + intros [H | (u & [<- | Hu] & E)].
      * left. right. exact H.
      * left. left. symmetry. exact E.
      * right. exists u. split; assumption.
Qed.

Lemma category_set_NoDup (txs : list (transaction num)) : forall s : list string,
  NoDup s -> NoDup (fold_left (fun set t => Set_add (category_label t) set) txs s).
Proof.
  induction txs as [|t txs IH]; intros s Hnd; cbn [fold_left].
  - exact Hnd.
  - apply IH. apply Set_add_NoDup. exact Hnd.
Qed.

Lemma category_label_nonempty (t : transaction num) : category_label t <> "".
Proof.
  unfold category_label, JsString.truthy.
  destruct (String.eqb_spec (category t) ""); simpl; [discriminate | assumption].
Qed.

Lemma getAllCategories_In (collate : string -> string -> Z)
    (txs : list (transaction num)) (c : string) :
  In c (getAllCategories collate txs) <-> exists t, In t txs /\ category_label t = c.
Proof.
  unfold getAllCategories. split.
  - intros Hin. apply (Permutation_in _ (Array_sort_perm collate _)) in Hin.
    apply category_set_In in Hin. destruct Hin as [[] | H]. exact H.
  - intros H.
    apply (Permutation_in _ (Permutation_sym (Array_sort_perm collate _))).
    apply category_set_In. right. exact H.
Qed.

End CategoryFacts.

(** [getAllCategories] returns the categories of the ledger, each one
    once: whatever the collation of the host, a text is in the result
    exactly when it is the category of some entry, an entry with the empty
    category counting as [Uncategorized], and the empty text is never in
    the result.  Where the collation orders any two texts one way or the
    other, and does so transitively, the result is in ascending order. *)
Theorem getAllCategories_spec :
  forall (num : Type) (collate : string -> string -> Z) (txs : list (transaction num)),
    NoDup (getAllCategories collate txs)
    /\ (forall c, In c (getAllCategories collate txs)
                  <-> exists t, In t txs /\ category_label t = c)
    /\ ~ In "" (getAllCategories collate txs)
    /\ ((forall a b, 0 < collate a b -> collate b a <= 0) ->
        (forall a b c, collate a b <= 0 -> collate b c <= 0 -> collate a c <= 0) ->
        StronglySorted (ordered_by collate) (getAllCategories collate txs)).
Proof.
  intros num collate txs. split; [| split; [| split]].
  - unfold getAllCategories.
    apply (Permutation_NoDup (Permutation_sym (Array_sort_perm collate _))).
    apply category_set_NoDup. constructor.
  - intros c. apply getAllCategories_In.
  - intros Hin. apply getAllCategories_In in Hin. destruct Hin as (t & _ & E).
    exact (category_label_nonempty t E).
  - intros Htotal Htrans. unfold getAllCategories.
    apply Array_sort_sorted; assumption.
Qed.

(** [populateCategoryFilter] offers [all] and then the categories of the
    ledger, and leaves the date inputs alone.  The category the filter
    works with afterwards is the one selected before when some entry still
    has it, and [all] otherwise: once the last entry of the selected
    category is gone, the select has no option of that value, reads as the
    empty string, and the filter shows every category. *)
Theorem populateCategoryFilter_selection :
  forall (num : Type) (collate : string -> string -> Z) (tza : Z)
         (txs : list (transaction num)) (form : filterForm),
    let (options, form') := populateCategoryFilter collate txs form in
    options = "all" :: getAllCategories collate txs
    /\ filterStart form' = filterStart form
    /\ filterEnd form' = filterEnd form
    /\ f_category (getFilters tza form')
       = if existsb (fun t => (category_label t =? filterCategorySelect form)%string) txs
         then filterCategorySelect form else "all".
Proof.
  intros num collate tza txs form.
  unfold populateCategoryFilter. cbv zeta.
  split; [reflexivity | split; [reflexivity | split; [reflexivity |]]].
  unfold getFilters. cbn [f_category filterCategorySelect].
  set (sel := filterCategorySelect form).
  destruct (existsb (fun t => (category_label t =? sel)%string) txs) eqn:Hex.
  - apply existsb_exists in Hex. destruct Hex as (t & Ht & E).
    apply String.eqb_eq in E.
    assert (Hsel : JsString.truthy sel = true).
    { unfold JsString.truthy. destruct (String.eqb_spec sel ""); [| reflexivity].
      exfalso. apply (category_label_nonempty t). congruence. }
    rewrite Hsel. unfold select_set_value.
    assert (Hin : existsb (String.eqb sel) ("all" :: getAllCategories collate txs) = true).
    { apply existsb_exists. exists sel. split; [| apply String.eqb_refl].
      right. apply getAllCategories_In. exists t. split; assumption. }
    rewrite Hin, Hsel. reflexivity.
  - destruct (JsString.truthy sel) eqn:Hsel; [| reflexivity].
    unfold select_set_value.
    destruct (existsb (String.eqb sel) ("all" :: getAllCategories collate txs)) eqn:Hin.
    + rewrite Hsel. apply existsb_exists in Hin. destruct Hin as (c & Hc & E).
      apply String.eqb_eq in E. subst c. destruct Hc as [<- | Hc]; [reflexivity |].
      apply getAllCategories_In in Hc. destruct Hc as (t & Ht & E).
      exfalso.
      assert (Hex' : existsb (fun t => (category_label t =? sel)%string) txs = true).
      { apply existsb_exists. exists t. split; [exact Ht | apply String.eqb_eq; exact E]. }
      congruence.
    + reflexivity.
Qed.

(** Selecting the category under which an entry is offered shows that
    entry, unless its category is the empty text: such an entry is offered
    as [Uncategorized], and with [Uncategorized] selected the filter
    compares that text with the empty category and leaves the entry
    out. *)
Theorem own_category_selected :
  forall (num : Type) (collate : string -> string -> Z) (tza : Z)
         (txs : list (transaction num)) (t : transaction num),
    In t txs ->
    In (category_label t) (getAllCategories collate txs)
    /\ passes tza (getFilters tza (mkFilterForm "" "" (category_label t))) t
       = negb (category t =? "")%string.
Proof.
  intros num collate tza txs t Ht. split.
  - apply getAllCategories_In. exists t. split; [exact Ht | reflexivity].
  - rewrite passes_category. unfold category_test, category_label, JsString.truthy.
    destruct (String.eqb_spec (category t) "") as [E | E]; cbn [negb].
    + rewrite E. reflexivity.
    + rewrite (proj2 (String.eqb_neq _ _) E). rewrite String.eqb_refl.
      cbn [orb]. apply orb_true_r.
Qed.

(** An entry with the empty category, as an old record can have it. *)
Lemma own_category_selected_witness :
  In "Uncategorized"
    (getAllCategories JsString.code_unit_order
       [mkTransaction 1 "Old" 5 expense (Some "2024-01-10") "" : transaction Z])
  /\ passes 0 (getFilters 0 (mkFilterForm "" "" "Uncategorized"))
       (mkTransaction 1 "Old" 5 expense (Some "2024-01-10") "" : transaction Z)
     = false.
Proof.
  apply (own_category_selected Z JsString.code_unit_order 0
           [mkTransaction 1 "Old" 5 expense (Some "2024-01-10") ""]
           (mkTransaction 1 "Old" 5 expense (Some "2024-01-10") "")).
  left. reflexivity.
Defined.

(* ===================================================================== *)
(** * Properties: monthly summary *)
(* ===================================================================== *)

Section SummaryFacts.

Context {num : Type} `{Arithmetic num}.

Lemma tally_get (cm k : string) (m : Map (sums num)) (t : transaction num) :
  Map_get k (tally cm m t) =
  if in_month cm k t
  then Some (credit t match Map_get k m with
                      | Some item => item
                      | None => mkSums zero zero
                      end)
  else Map_get k m.
Proof.
  unfold tally, in_month, Map_has.
  set (k0 := month_key cm t).
  destruct (String.eqb_spec k0 k) as [<- | Hne].
  - destruct (Map_get k0 m) as [item |] eqn:Hg.
    + rewrite Hg. rewrite Map_get_set_eq. reflexivity.
    + rewrite Map_get_set_eq. rewrite Map_get_set_eq. reflexivity.
  - destruct (Map_get k0 m) as [item |] eqn:Hg.
    + rewrite Hg. apply Map_get_set_ne. exact Hne.
    + rewrite Map_get_set_eq. rewrite !Map_get_set_ne by exact Hne. reflexivity.
Qed.

Lemma tally_NoDup (cm : string) (m : Map (sums num)) (t : transaction num) :
  NoDup (keys m) -> NoDup (keys (tally cm m t)).
Proof.
  intros Hnd. unfold tally.
  set (k0 := month_key cm t).
  set (m1 := if Map_has k0 m then m else Map_set k0 (mkSums zero zero) m).
  assert (Hm1 : NoDup (keys m1)).
  { unfold m1. destruct (Map_has k0 m); [exact Hnd | apply NoDup_keys_Map_set; exact Hnd]. }
  destruct (Map_get k0 m1); [apply NoDup_keys_Map_set |]; exact Hm1.
Qed.

Lemma month_total_snoc (ty : txType) (cm k : string) (txs : list (transaction num))
    (t : transaction num) :
  month_total ty cm k (txs ++ [t]) =
  if in_month cm k t && txType_eqb (type t) ty
  then add (month_total ty cm k txs) (amount t)
  else month_total ty cm k txs.
Proof.
  unfold month_total. rewrite filter_app. simpl.
  destruct (in_month cm k t && txType_eqb (type t) ty).
  - rewrite fold_left_app. reflexivity.
  - rewrite app_nil_r. reflexivity.
Qed.

Lemma month_total_empty (ty : txType) (cm k : string) (txs : list (transaction num)) :
  existsb (in_month cm k) txs = false -> month_total ty cm k txs = zero.
Proof.
  intros Hex. unfold month_total.
  rewrite (filter_ext_in _ (fun _ => false)).
  - rewrite filter_false. reflexivity.
  - intros t Ht. destruct (in_month cm k t) eqn:Hk; [| reflexivity].
    exfalso. assert (Htrue : existsb (in_month cm k) txs = true).
    { apply existsb_exists. exists t. split; assumption. }
    rewrite Hex in Htrue. discriminate.
Qed.

(** The Map the loop builds holds, for each month with an entry, the two
    totals of that month. *)
Lemma summary_map_get (cm k : string) (txs : list (transaction num)) :
  Map_get k (fold_left (tally cm) txs []) =
  if existsb (in_month cm k) txs
  then Some (mkSums (month_total income cm k txs) (month_total expense cm k txs))
  else None.
Proof.
  induction txs as [|t txs IH] using rev_ind.
  - reflexivity.
  - rewrite fold_left_app. simpl. rewrite tally_get, IH.
    rewrite existsb_app. simpl. rewrite orb_false_r.
    rewrite !month_total_snoc.
    destruct (in_month cm k t) eqn:Hk; simpl.
    + rewrite orb_true_r.
      destruct (existsb (in_month cm k) txs) eqn:Hex.
      * unfold credit. destruct (type t); reflexivity.
      * rewrite !month_total_empty by exact Hex.
        unfold credit. destruct (type t); reflexivity.
    + rewrite orb_false_r. reflexivity.
Qed.

Lemma summary_map_NoDup (cm : string) (txs : list (transaction num)) :
  NoDup (keys (fold_left (tally cm) txs [])).
Proof.
  induction txs as [|t txs IH] using rev_ind.
  - constructor.
  - rewrite fold_left_app. simpl. apply tally_NoDup. exact IH.
Qed.

Lemma summary_row_month (entry : string * sums num) :
  month (summary_row entry) = fst entry.
Proof. destruct entry. reflexivity. Qed.

(** The month key of an entry: the first seven characters of a date that
    is there and not empty, the current month otherwise. *)
Lemma month_key_cases (cm : string) (t : transaction num) :
  month_key cm t =
  match date t with
  | Some d => if (d =? "")%string then cm else JsString.slice 0 7 d
  | None => cm
  end.
Proof.
  unfold month_key, JsString.truthy. destruct (date t) as [d |].
  - destruct d as [|c d]; reflexivity.
  - reflexivity.
Qed.

End SummaryFacts.

(** C5, as the code has it.  [computeMonthlySummary] keys an entry by the
    first seven characters of its date, or by the current month when the
    date is missing or empty; it returns one row per key that occurs, each
    with the income and the expense of its month added up separately in
    the order of the entries and [net = income - expense].  The rows are
    in descending order of month in the collation of the host's
    [localeCompare], where that collation orders any two texts one way or
    the other and does so transitively. *)
Theorem computeMonthlySummary_spec :
  forall (num : Type) (A : Arithmetic num) (collate : string -> string -> Z)
         (now : Z) (txs : list (transaction num)),
    let currentMonth := JsString.slice 0 7 (JsDate.toISOString now) in
    let rows := computeMonthlySummary collate now txs in
    (forall t : transaction num,
        month_key currentMonth t =
               match date t with
               | Some d => if (d =? "")%string then currentMonth else JsString.slice 0 7 d
               | None => currentMonth
               end)
    /\ (forall k, In k (map month rows) <->
                  exists t, In t txs /\ month_key currentMonth t = k)
    /\ NoDup (map month rows)
    /\ (forall r, In r rows ->
          row_income r = month_total income currentMonth (month r) txs
          /\ row_expense r = month_total expense currentMonth (month r) txs
          /\ net r = sub (row_income r) (row_expense r))
    /\ ((forall a b, 0 < collate a b -> collate b a <= 0) ->
        (forall a b c, collate a b <= 0 -> collate b c <= 0 -> collate a c <= 0) ->
        StronglySorted (month_descending collate) rows).
Proof.
  intros num A collate now txs currentMonth rows.
  set (m := fold_left (tally currentMonth) txs []).
  set (comparefn := fun a b : monthRow num => collate (month b) (month a)).
  assert (Hrows : Permutation rows (map summary_row m)).
  { apply Array_sort_perm. }
  assert (Hmonths : Permutation (map month rows) (keys m)).
  { apply perm_trans with (map month (map summary_row m)).
    - apply Permutation_map. exact Hrows.
    - rewrite map_map. unfold keys.
      rewrite (map_ext _ fst) by apply summary_row_month. apply Permutation_refl. }
  split; [| split; [| split; [| split]]].
  - apply month_key_cases.
  - intros k. split.
    + intros Hin. apply (Permutation_in _ Hmonths) in Hin.
      destruct (Map_get k m) as [s |] eqn:Hg.
      * unfold m in Hg. rewrite summary_map_get in Hg.
        destruct (existsb (in_month currentMonth k) txs) eqn:Hex; [| discriminate].
        apply existsb_exists in Hex. destruct Hex as (t & Ht & Hk).
        exists t. split; [exact Ht |]. apply String.eqb_eq. exact Hk.
      * apply Map_get_None in Hg. contradiction.
    + intros (t & Ht & Hk).
      apply (Permutation_in _ (Permutation_sym Hmonths)).
      destruct (in_dec string_dec k (keys m)) as [Hin | Hout]; [exact Hin |].
      apply Map_get_None in Hout. unfold m in Hout. rewrite summary_map_get in Hout.
      assert (Hex : existsb (in_month currentMonth k) txs = true).
      { apply existsb_exists. exists t. split; [exact Ht |]. apply String.eqb_eq. exact Hk. }
      rewrite Hex in Hout. discriminate.
  - apply (Permutation_NoDup (Permutation_sym Hmonths)). apply summary_map_NoDup.
  - intros r Hr. apply (Permutation_in _ Hrows) in Hr.
    apply in_map_iff in Hr. destruct Hr as ([k s] & <- & Hks).
    apply In_Map_get in Hks; [| apply summary_map_NoDup].
    unfold m in Hks. rewrite summary_map_get in Hks.
    destruct (existsb (in_month currentMonth k) txs); [| discriminate].
    injection Hks as <-. simpl. repeat split.
  - intros Htotal Htrans. apply (Array_sort_sorted comparefn).
    + intros x y. apply Htotal.
    + intros x y z Hxy Hyz. exact (Htrans _ _ _ Hyz Hxy).
Qed.

(** C5, where the claim fails.  In June 2024 an entry whose date is the
    text [not-a-date] is not counted under the current month [2024-06]: its
    month is the first seven characters of that text. *)
Lemma computeMonthlySummary_odd_date :
  map month
    (computeMonthlySummary JsString.code_unit_order 1717200000000
       [mkTransaction 1 "Lunch" 30 expense (Some "not-a-date") "Food"])
    = ["not-a-d"]
  /\ JsString.slice 0 7 (JsDate.toISOString 1717200000000) = "2024-06".
Proof. vm_compute. split; reflexivity. Qed.

(* ===================================================================== *)
(** * Properties: the size of the summary *)
(* ===================================================================== *)

Section SummarySize.

Context {num : Type} `{Arithmetic num}.

Variable collate : string -> string -> Z.

Lemma summary_keys_In (cm k : string) (txs : list (transaction num)) :
  In k (keys (fold_left (tally cm) txs [])) <-> existsb (in_month cm k) txs = true.
Proof.
  pose proof (Map_get_None k (fold_left (tally cm) txs [])) as Hn.
  rewrite summary_map_get in Hn.
  destruct (existsb (in_month cm k) txs).
  - split; [reflexivity | intros _].
    destruct (in_dec string_dec k (keys (fold_left (tally cm) txs []))) as [Hin | Hout];
      [exact Hin |].
    apply Hn in Hout. discriminate.
  - split; [| discriminate]. intros Hin. exfalso. apply (proj1 Hn eq_refl). exact Hin.
Qed.

Lemma summary_length (now : Z) (txs : list (transaction num)) :
  List.length (computeMonthlySummary collate now txs)
  = List.length (keys (fold_left (tally (JsString.slice 0 7 (JsDate.toISOString now))) txs [])).
Proof.
  unfold computeMonthlySummary, keys.
  rewrite (Permutation_length (Array_sort_perm _ _)). rewrite !length_map. reflexivity.
Qed.

Lemma summary_length_le (now : Z) (txs : list (transaction num)) :
  (List.length (computeMonthlySummary collate now txs) <= List.length txs)%nat.
Proof.
  rewrite summary_length.
  set (cm := JsString.slice 0 7 (JsDate.toISOString now)).
  rewrite <- (length_map (month_key cm) txs).
  apply NoDup_incl_length; [apply summary_map_NoDup |].
  intros k Hk. apply summary_keys_In in Hk. apply existsb_exists in Hk.
  destruct Hk as (t & Ht & Hk). apply String.eqb_eq in Hk. subst k.
  apply in_map. exact Ht.
Qed.

Lemma summary_length_pos (now : Z) (t : transaction num) (txs : list (transaction num)) :
  (1 <= List.length (computeMonthlySummary collate now (t :: txs)))%nat.
Proof.
  rewrite summary_length.
  set (cm := JsString.slice 0 7 (JsDate.toISOString now)).
  assert (Hin : In (month_key cm t) (keys (fold_left (tally cm) (t :: txs) []))).
  { apply summary_keys_In. cbn [existsb]. unfold in_month at 1.
    rewrite String.eqb_refl. reflexivity. }
  destruct (keys (fold_left (tally cm) (t :: txs) [])); [destruct Hin | simpl; lia].
Qed.

(** The rows of the summary: one for each month with an entry. *)
Lemma summary_rows_In (now : Z) (txs : list (transaction num)) (r : monthRow num) :
  let cm := JsString.slice 0 7 (JsDate.toISOString now) in
  In r (computeMonthlySummary collate now txs)
  <-> exists k, existsb (in_month cm k) txs = true /\ r = row_of cm k txs.
Proof.
  intros cm. unfold computeMonthlySummary. fold cm.
  set (m := fold_left (tally cm) txs []).
  split.
  - intros Hin. apply (Permutation_in _ (Array_sort_perm _ _)) in Hin.
    apply in_map_iff in Hin. destruct Hin as ([k s] & <- & Hks).
    apply In_Map_get in Hks; [| apply summary_map_NoDup].
    unfold m in Hks. rewrite summary_map_get in Hks.
    exists k. destruct (existsb (in_month cm k) txs); [| discriminate].
    injection Hks as <-. split; reflexivity.
  - intros (k & Hex & ->).
    apply (Permutation_in _ (Permutation_sym (Array_sort_perm _ _))).
    apply in_map_iff.
    exists (k, mkSums (month_total income cm k txs) (month_total expense cm k txs)).
    split; [reflexivity |]. apply Map_get_In. unfold m.
    rewrite summary_map_get, Hex. reflexivity.
Qed.

Lemma summary_months_NoDup (now : Z) (txs : list (transaction num)) :
  NoDup (map month (computeMonthlySummary collate now txs)).
Proof.
  unfold computeMonthlySummary.
  set (cm := JsString.slice 0 7 (JsDate.toISOString now)).
  apply (Permutation_NoDup
           (l := keys (fold_left (tally cm) txs []))); [| apply summary_map_NoDup].
  apply Permutation_sym.
  apply perm_trans with (map month (map summary_row (fold_left (tally cm) txs []))).
  - apply Permutation_map. apply Array_sort_perm.
  - rewrite map_map. unfold keys.
    rewrite (map_ext _ fst) by apply summary_row_month. apply Permutation_refl.
Qed.

Lemma summary_sorted (now : Z) (txs : list (transaction num)) :
  (forall a b, 0 < collate a b -> collate b a <= 0) ->
  (forall a b c, collate a b <= 0 -> collate b c <= 0 -> collate a c <= 0) ->
  StronglySorted (fun a b => collate (month b) (month a) <= 0)
    (computeMonthlySummary collate now txs).
Proof.
  intros Htotal Htrans. unfold computeMonthlySummary.
  apply (Array_sort_sorted (fun a b : monthRow num => collate (month b) (month a))).
  - intros x y. apply Htotal.
  - intros x y z Hxy Hyz. exact (Htrans _ _ _ Hyz Hxy).
Qed.

End SummarySize.

(** The monthly summary has at most as many rows as there are entries, and
    it is empty exactly when there is no entry. *)
Theorem computeMonthlySummary_size :
  forall (num : Type) (A : Arithmetic num) (collate : string -> string -> Z)
         (now : Z) (txs : list (transaction num)),
    (List.length (computeMonthlySummary collate now txs) <= List.length txs)%nat
    /\ (computeMonthlySummary collate now txs = [] <-> txs = []).
Proof.
  intros num A collate now txs. split; [apply summary_length_le |]. split.
  - intros E. destruct txs as [|t txs]; [reflexivity |].
    pose proof (summary_length_pos collate now t txs) as Hp. rewrite E in Hp. simpl in Hp. lia.
  - intros ->. reflexivity.
Qed.

(** What [renderAll] shows hangs together.  When no entry passes the
    filter the list holds its placeholder, the summary says that there is
    no data and the balance reads 0.00.  Otherwise the list has an item per
    entry that passes, in their order, each with a delete button for the id
    of its entry, and the summary table has at least one row and no more
    rows than the list has items. *)
Theorem render_views_agree :
  forall (collate : string -> string -> Z) (tza : Z) (form : filterForm) (now : Z)
         (txs : list (transaction float)),
    (applyFilters tza form txs = []
     /\ renderTransactions tza form txs = NoTransactions
     /\ renderMonthlySummary collate tza form now txs = NoData
     /\ updateBalance tza form txs = "0.00")
    \/ (exists (items : list listItem) (rows : list string),
          renderTransactions tza form txs = Items items
          /\ renderMonthlySummary collate tza form now txs = SummaryTable rows
          /\ map item_delete items = map id (applyFilters tza form txs)
          /\ (1 <= List.length rows <= List.length items)%nat).
Proof.
  intros collate tza form now txs.
  unfold renderTransactions, renderMonthlySummary, updateBalance. cbv zeta.
  destruct (applyFilters tza form txs) as [|t filtered] eqn:Hf.
  - left. split; [reflexivity |]. split; [reflexivity |]. split; reflexivity.
  - right.
    pose proof (summary_length_pos collate now t filtered) as Hpos.
    pose proof (summary_length_le collate now (t :: filtered)) as Hle.
    destruct (computeMonthlySummary collate now (t :: filtered)) as [|s summary] eqn:Hs;
      [simpl in Hpos; lia |].
    eexists. eexists. cbn [List.length Nat.eqb].
    split; [reflexivity |]. split; [reflexivity |]. split.
    + rewrite map_map. reflexivity.
    + rewrite !length_map. cbn [List.length] in *. lia.
Qed.

Lemma filter_Permutation {A : Type} (p : A -> bool) (l l' : list A) :
  Permutation l l' -> Permutation (filter p l) (filter p l').
Proof.
  induction 1 as [| x l l' _ IH | x y l | l l' l'' _ IH1 _ IH2]; simpl.
  - constructor.
  - destruct (p x); [apply perm_skip |]; exact IH.
  - destruct (p x), (p y); try apply Permutation_refl. apply perm_swap.
  - exact (perm_trans IH1 IH2).
Qed.

Lemma existsb_Permutation {A : Type} (p : A -> bool) (l l' : list A) :
  Permutation l l' -> existsb p l = existsb p l'.
Proof.
  intros Hp. destruct (existsb p l') eqn:E.
  - apply existsb_exists in E. destruct E as (x & Hx & Hpx).
    apply existsb_exists. exists x. split; [| exact Hpx].
    apply (Permutation_in _ (Permutation_sym Hp)). exact Hx.
  - destruct (existsb p l) eqn:E'; [| reflexivity].
    apply existsb_exists in E'. destruct E' as (x & Hx & Hpx).
    assert (Ht : existsb p l' = true).
    { apply existsb_exists. exists x. split; [| exact Hpx].
      apply (Permutation_in _ Hp). exact Hx. }
    congruence.
Qed.

(* ===================================================================== *)
(** * Properties: binary64 arithmetic on whole numbers *)
(* ===================================================================== *)

Lemma digits2_pos_bounds (p : positive) :
  2 ^ (Z.pos (digits2_pos p) - 1) <= Z.pos p < 2 ^ Z.pos (digits2_pos p).
Proof.
  induction p as [p IH | p IH |]; cbn [digits2_pos].
  - rewrite Pos2Z.inj_succ.
    replace (Z.succ (Z.pos (digits2_pos p)) - 1) with (Z.succ (Z.pos (digits2_pos p) - 1)) by lia.
    rewrite !Z.pow_succ_r by lia. lia.
  - rewrite Pos2Z.inj_succ.
    replace (Z.succ (Z.pos (digits2_pos p)) - 1) with (Z.succ (Z.pos (digits2_pos p) - 1)) by lia.
    rewrite !Z.pow_succ_r by lia. lia.
  - simpl. lia.
Qed.

Lemma digits2_pos_unique (p : positive) (d : Z) :
  2 ^ (d - 1) <= Z.pos p < 2 ^ d -> Z.pos (digits2_pos p) = d.
Proof.
  intros [Hlo Hhi]. pose proof (digits2_pos_bounds p) as [Hlo' Hhi'].
  assert (Hd : 0 < d).
  { destruct (Z_lt_le_dec 0 d) as [H | H]; [exact H |].
    exfalso. destruct (Z.eq_dec d 0) as [-> | Hne].
    - simpl in Hhi. lia.
    - rewrite Z.pow_neg_r in Hhi by lia. lia. }
  destruct (Z.lt_trichotomy (Z.pos (digits2_pos p)) d) as [H | [H | H]].
  - exfalso.
    assert (2 ^ Z.pos (digits2_pos p) <= 2 ^ (d - 1)) by (apply Z.pow_le_mono_r; lia).
    lia.
  - exact H.
  - exfalso.
    assert (2 ^ d <= 2 ^ (Z.pos (digits2_pos p) - 1)) by (apply Z.pow_le_mono_r; lia).
    lia.
Qed.

Lemma digits2_pos_scaled (p q : positive) (k : Z) :
  0 <= k -> Z.pos q = Z.pos p * 2 ^ k ->
  Z.pos (digits2_pos q) = Z.pos (digits2_pos p) + k.
Proof.
  intros Hk E. apply digits2_pos_unique.
  pose proof (digits2_pos_bounds p) as [Hlo Hhi].
  replace (Z.pos (digits2_pos p) + k - 1) with (Z.pos (digits2_pos p) - 1 + k) by lia.
  rewrite !Z.pow_add_r by lia. rewrite E.
  assert (0 < 2 ^ k) by (apply Z.pow_pos_nonneg; lia). nia.
Qed.

Lemma iter_xO_value (d : positive) (m : positive) :
  Z.pos (Pos.iter xO m d) = Z.pos m * 2 ^ Z.pos d.
Proof.
  revert m. induction d as [|d IH] using Pos.peano_ind; intros m.
  - cbn [Pos.iter]. change (2 ^ 1) with 2. lia.
  - rewrite Pos.iter_succ. rewrite Pos2Z.inj_succ, Z.pow_succ_r by lia.
    rewrite Pos2Z.inj_xO, IH. lia.
Qed.

Lemma iter_pos_shift {A : Type} (f : A -> A) (p : positive) (x : A) :
  iter_pos f p (f x) = f (iter_pos f p x).
Proof.
  revert x. induction p as [p IH | p IH |]; intros x; cbn [iter_pos].
  - rewrite !IH. reflexivity.
  - rewrite !IH. reflexivity.
  - reflexivity.
Qed.

Lemma iter_pos_succ {A : Type} (f : A -> A) (p : positive) (x : A) :
  iter_pos f (Pos.succ p) x = iter_pos f p (f x).
Proof.
  revert x. induction p as [p IH | p IH |]; intros x; cbn [iter_pos Pos.succ].
  - rewrite !IH. rewrite !iter_pos_shift. reflexivity.
  - reflexivity.
  - reflexivity.
Qed.

(** Shifting right the zero bits that a shift to the left put in. *)
Lemma shr_exact (d : positive) (m q : positive) :
  Z.pos q = Z.pos m * 2 ^ Z.pos d ->
  iter_pos shr_1 d {| shr_m := Z.pos q; shr_r := false; shr_s := false |}
  = {| shr_m := Z.pos m; shr_r := false; shr_s := false |}.
Proof.
  revert q. induction d as [|d IH] using Pos.peano_ind; intros q E.
  - cbn [iter_pos]. change (2 ^ 1) with 2 in E.
    assert (Hq : q = xO m) by lia. subst q. reflexivity.
  - rewrite iter_pos_succ.
    rewrite Pos2Z.inj_succ, Z.pow_succ_r in E by lia.
    assert (Hq : q = xO (Z.to_pos (Z.pos m * 2 ^ Z.pos d))).
    { assert (0 < 2 ^ Z.pos d) by (apply Z.pow_pos_nonneg; lia).
      apply Pos2Z.inj. rewrite Pos2Z.inj_xO, Z2Pos.id by nia. lia. }
    subst q. cbn [shr_1 orb]. apply IH.
    assert (0 < 2 ^ Z.pos d) by (apply Z.pow_pos_nonneg; lia).
    rewrite Z2Pos.id by nia. reflexivity.
Qed.

(** A representation [M * 2 ^ E] of the value of a binary64 number rounds
    to that number. *)
Lemma binary_round_exact (s : bool) (M : positive) (E : Z) (m : positive) (e : Z) :
  bounded prec emax m e = true ->
  Z.pos M * 2 ^ (E - Z.min E e) = Z.pos m * 2 ^ (e - Z.min E e) ->
  binary_round prec emax s M E = S754_finite s m e.
Proof.
  intros Hb Hv. unfold bounded in Hb. apply andb_true_iff in Hb.
  destruct Hb as [Hc He]. unfold canonical_mantissa in Hc. apply Z.eqb_eq in Hc.
  assert (Hd : Z.pos (digits2_pos M) + E = Z.pos (digits2_pos m) + e).
  { destruct (Z.min_spec E e) as [[Hlt Hmin] | [Hle Hmin]]; rewrite Hmin in Hv.
    - rewrite Z.sub_diag, Z.mul_1_r in Hv.
      rewrite (digits2_pos_scaled m M (e - E)); [lia | lia | exact Hv].
    - rewrite Z.sub_diag, Z.mul_1_r in Hv.
      rewrite (digits2_pos_scaled M m (E - e)); [lia | lia | symmetry; exact Hv]. }
  unfold binary_round. rewrite Hd, Hc. unfold shl_align.
  destruct (e - E) as [| d | d] eqn:Hsh.
  - assert (E = e) by lia. subst E.
    rewrite Z.min_id, Z.sub_diag, !Z.mul_1_r in Hv. injection Hv as ->.
    unfold binary_round_aux, shr_fexp. cbn [Zdigits2 shr_record_of_loc].
    rewrite Hc, Z.sub_diag. cbn [shr shr_m loc_of_shr_record round_nearest_even Zdigits2].
    rewrite Hc, Z.sub_diag. cbn [shr shr_m]. rewrite He. reflexivity.
  - rewrite Z.min_l in Hv by lia. rewrite Z.sub_diag, Z.mul_1_r in Hv.
    replace (e - E) with (Z.pos d) in Hv by lia.
    unfold binary_round_aux, shr_fexp. cbn [Zdigits2 shr_record_of_loc].
    rewrite Hd, Hc, Hsh. cbn [shr].
    rewrite (shr_exact d m M Hv).
    cbn [shr_m loc_of_shr_record round_nearest_even Zdigits2].
    replace (E + Z.pos d) with e by lia.
    rewrite Hc, Z.sub_diag. cbn [shr shr_m]. rewrite He. reflexivity.
  - rewrite Z.min_r in Hv by lia. rewrite Z.sub_diag, Z.mul_1_r in Hv.
    replace (E - e) with (Z.pos d) in Hv by lia.
    assert (Hm : Pos.iter xO M d = m).
    { apply Pos2Z.inj. rewrite iter_xO_value. exact Hv. }
    rewrite Hm.
    unfold binary_round_aux, shr_fexp. cbn [Zdigits2 shr_record_of_loc].
    rewrite Hc, Z.sub_diag. cbn [shr shr_m loc_of_shr_record round_nearest_even Zdigits2].
    rewrite Hc, Z.sub_diag. cbn [shr shr_m]. rewrite He. reflexivity.
Qed.


Lemma canonical_integer (p : positive) :
  Z.pos p < 2 ^ 53 ->
  exists (m : positive) (e : Z),
    bounded prec emax m e = true /\ e <= 0 /\ Z.pos m = Z.pos p * 2 ^ (- e).
Proof.
  intros Hp. pose proof (digits2_pos_bounds p) as [Hlo _].
  set (d := Z.pos (digits2_pos p)) in *.
  assert (Hd : d <= 53).
  { destruct (Z_le_gt_dec d 53) as [H | H]; [exact H |].
    exfalso. assert (2 ^ 53 <= 2 ^ (d - 1)) by (apply Z.pow_le_mono_r; lia). lia. }
  assert (Hpow : 0 < 2 ^ (53 - d)) by (apply Z.pow_pos_nonneg; lia).
  exists (Z.to_pos (Z.pos p * 2 ^ (53 - d))), (d - 53).
  assert (Hm : Z.pos (Z.to_pos (Z.pos p * 2 ^ (53 - d))) = Z.pos p * 2 ^ (53 - d)).
  { apply Z2Pos.id. nia. }
  split; [| split; [lia |]].
  - unfold bounded, canonical_mantissa. apply andb_true_iff. split.
    + apply Z.eqb_eq.
      rewrite (digits2_pos_scaled p _ (53 - d)) by (lia || exact Hm).
      fold d. unfold fexp, emin, prec, emax. subst d. lia.
    + apply Z.leb_le. unfold prec, emax. lia.
  - rewrite Hm. f_equal. f_equal. lia.
Qed.

Lemma whole_number_of_rep (c : Z) (m : positive) (e : Z) :
  c <> 0 -> bounded prec emax m e = true ->
  Z.abs c * 2 ^ (0 - Z.min 0 e) = Z.pos m * 2 ^ (e - Z.min 0 e) ->
  whole_number c = S754_finite (c <? 0) m e.
Proof.
  intros Hc Hb Hv. unfold whole_number.
  destruct c as [| p | p]; [contradiction | |]; cbn [binary_normalize Z.ltb Z.compare];
    apply binary_round_exact; assumption.
Qed.

Lemma whole_number_finite (c : Z) :
  c <> 0 -> Z.abs c < 2 ^ 53 ->
  exists (m : positive) (e : Z),
    bounded prec emax m e = true /\ e <= 0 /\ Z.pos m = Z.abs c * 2 ^ (- e)
    /\ whole_number c = S754_finite (c <? 0) m e.
Proof.
  intros Hc Hlt.
  destruct (canonical_integer (Z.to_pos (Z.abs c))) as (m & e & Hb & He & Hm).
  { rewrite Z2Pos.id by lia. exact Hlt. }
  rewrite Z2Pos.id in Hm by lia.
  exists m, e. split; [exact Hb | split; [exact He | split; [exact Hm |]]].
  apply whole_number_of_rep; [exact Hc | exact Hb |].
  rewrite Z.min_r by lia. rewrite Z.sub_diag, Z.mul_1_r, Hm.
  replace (0 - e) with (- e) by lia. reflexivity.
Qed.

Lemma shl_align_value (mx : positive) (ex ez : Z) :
  ez <= ex -> Z.pos (fst (shl_align mx ex ez)) = Z.pos mx * 2 ^ (ex - ez).
Proof.
  intros Hle. unfold shl_align. destruct (ez - ex) as [| d | d] eqn:E.
  - replace (ex - ez) with 0 by lia. cbn [fst]. lia.
  - lia.
  - cbn [fst]. rewrite iter_xO_value. f_equal. f_equal. lia.
Qed.

Lemma cond_Zopp_abs (a k : Z) : cond_Zopp (a <? 0) (Z.abs a * k) = a * k.
Proof. unfold cond_Zopp. destruct (Z.ltb_spec a 0); lia. Qed.

(** What [SFadd] and [SFsub] do with two finite numbers. *)
Lemma normalize_whole (sx sy : bool) (a b c : Z) (mx my : positive) (ex ey : Z)
    (op : Z -> Z -> Z) :
  (forall k, op (a * k) (b * k) = c * k) ->
  Z.abs c < 2 ^ 53 -> a <> 0 -> b <> 0 ->
  ex <= 0 -> ey <= 0 ->
  Z.pos mx = Z.abs a * 2 ^ (- ex) -> Z.pos my = Z.abs b * 2 ^ (- ey) ->
  sx = (a <? 0) -> sy = (b <? 0) ->
  binary_normalize prec emax
    (op (cond_Zopp sx (Z.pos (fst (shl_align mx ex (Z.min ex ey)))))
        (cond_Zopp sy (Z.pos (fst (shl_align my ey (Z.min ex ey))))))
    (Z.min ex ey) false
  = whole_number c.
Proof.
  intros Hop Hc Ha Hb Hex Hey Hmx Hmy -> ->.
  set (ez := Z.min ex ey).
  assert (Hez : ez <= ex /\ ez <= ey /\ ez <= 0) by (unfold ez; lia).
  rewrite !shl_align_value by lia. rewrite Hmx, Hmy.
  rewrite <- !Z.mul_assoc, <- !Z.pow_add_r by lia.
  replace (- ex + (ex - ez)) with (- ez) by lia.
  replace (- ey + (ey - ez)) with (- ez) by lia.
  rewrite !cond_Zopp_abs, Hop.
  assert (Hpow : 0 < 2 ^ (- ez)) by (apply Z.pow_pos_nonneg; lia).
  destruct (Z.eq_dec c 0) as [-> | Hc0]; [reflexivity |].
  destruct (whole_number_finite c Hc0 Hc) as (m & e & Hbd & He & Hm & ->).
  assert (Hrel : forall P : positive, Z.pos P = Z.abs c * 2 ^ (- ez) ->
            Z.pos P * 2 ^ (ez - Z.min ez e) = Z.pos m * 2 ^ (e - Z.min ez e)).
  { intros P HP. rewrite HP, Hm. rewrite <- !Z.mul_assoc, <- !Z.pow_add_r by lia.
    f_equal. f_equal. lia. }
  destruct (c * 2 ^ (- ez)) as [| P | P] eqn:E.
  - exfalso. nia.
  - assert (0 < c) by nia.
    replace (c <? 0) with false by (symmetry; apply Z.ltb_ge; lia).
    cbn [binary_normalize]. apply binary_round_exact; [exact Hbd |].
    apply Hrel. rewrite <- E. f_equal. lia.
  - assert (c < 0) by nia.
    replace (c <? 0) with true by (symmetry; apply Z.ltb_lt; lia).
    cbn [binary_normalize]. apply binary_round_exact; [exact Hbd |].
    apply Hrel. replace (Z.abs c) with (- c) by lia.
    assert (Z.pos P = - Z.neg P) by reflexivity. lia.
Qed.

Lemma whole_number_zero : whole_number 0 = S754_zero false.
Proof. reflexivity. Qed.

Lemma SFadd_whole (a b : Z) :
  Z.abs a < 2 ^ 53 -> Z.abs b < 2 ^ 53 -> Z.abs (a + b) < 2 ^ 53 ->
  SFadd prec emax (whole_number a) (whole_number b) = whole_number (a + b).
Proof.
  intros Ha Hb Hc.
  destruct (Z.eq_dec a 0) as [-> | Ha0].
  - rewrite whole_number_zero. cbn [Z.add].
    destruct (Z.eq_dec b 0) as [-> | Hb0]; [reflexivity |].
    destruct (whole_number_finite b Hb0 Hb) as (m & e & _ & _ & _ & ->). reflexivity.
  - destruct (whole_number_finite a Ha0 Ha) as (mx & ex & _ & Hex & Hmx & Ea).
    destruct (Z.eq_dec b 0) as [-> | Hb0].
    + rewrite Z.add_0_r, Ea. reflexivity.
    + destruct (whole_number_finite b Hb0 Hb) as (my & ey & _ & Hey & Hmy & Eb).
      rewrite Ea, Eb. cbn [SFadd].
      apply (normalize_whole _ _ a b (a + b) mx my ex ey Z.add); try assumption;
        try reflexivity.
      intros k. lia.
Qed.

Lemma SFsub_whole (a b : Z) :
  Z.abs a < 2 ^ 53 -> Z.abs b < 2 ^ 53 -> Z.abs (a - b) < 2 ^ 53 ->
  SFsub prec emax (whole_number a) (whole_number b) = whole_number (a - b).
Proof.
  intros Ha Hb Hc.
  destruct (Z.eq_dec b 0) as [-> | Hb0].
  - rewrite whole_number_zero, Z.sub_0_r.
    destruct (Z.eq_dec a 0) as [-> | Ha0]; [reflexivity |].
    destruct (whole_number_finite a Ha0 Ha) as (m & e & _ & _ & _ & ->). reflexivity.
  - destruct (whole_number_finite b Hb0 Hb) as (my & ey & Hby & Hey & Hmy & Eb).
    destruct (Z.eq_dec a 0) as [-> | Ha0].
    + rewrite whole_number_zero, Eb. cbn [SFsub Z.sub Z.add].
      symmetry. replace (negb (b <? 0)) with (- b <? 0)
        by (destruct (Z.ltb_spec b 0), (Z.ltb_spec (- b) 0); reflexivity || lia).
      apply whole_number_of_rep; [lia | exact Hby |].
      rewrite Z.min_r by lia. rewrite Z.sub_diag, Z.mul_1_r, Hmy.
      replace (0 - ey) with (- ey) by lia. rewrite Z.abs_opp. reflexivity.
    + destruct (whole_number_finite a Ha0 Ha) as (mx & ex & _ & Hex & Hmx & Ea).
      rewrite Ea, Eb. cbn [SFsub].
      apply (normalize_whole _ _ a b (a - b) mx my ex ey Z.sub); try assumption;
        try reflexivity.
      intros k. lia.
Qed.

Lemma SFadd_negative_zero_r (a : Z) :
  Z.abs a < 2 ^ 53 ->
  SFadd prec emax (whole_number a) (S754_zero true) = whole_number a.
Proof.
  intros Ha. destruct (Z.eq_dec a 0) as [-> | Ha0]; [reflexivity |].
  destruct (whole_number_finite a Ha0 Ha) as (m & e & _ & _ & _ & ->). reflexivity.
Qed.

Lemma SFadd_negative_zero_l (a : Z) :
  Z.abs a < 2 ^ 53 ->
  SFadd prec emax (S754_zero true) (whole_number a) = whole_number a.
Proof.
  intros Ha. destruct (Z.eq_dec a 0) as [-> | Ha0]; [reflexivity |].
  destruct (whole_number_finite a Ha0 Ha) as (m & e & _ & _ & _ & ->). reflexivity.
Qed.

(** Binary64 addition and subtraction of whole numbers do not round as
    long as the result stays below 2^53. *)
Lemma add_whole (x y : float) (a b : Z) :
  whole x a -> whole_or_negative_zero y b ->
  Z.abs a < 2 ^ 53 -> Z.abs b < 2 ^ 53 -> Z.abs (a + b) < 2 ^ 53 ->
  whole (x + y)%float (a + b).
Proof.
  unfold whole. intros Hx [Hy | [-> Hy]] Ha Hb Hc; rewrite add_spec, Hx, Hy.
  - apply SFadd_whole; assumption.
  - rewrite Z.add_0_r. apply SFadd_negative_zero_r. exact Ha.
Qed.

Lemma add_whole_l (x y : float) (a b : Z) :
  whole_or_negative_zero x a -> whole y b ->
  Z.abs a < 2 ^ 53 -> Z.abs b < 2 ^ 53 -> Z.abs (a + b) < 2 ^ 53 ->
  whole (x + y)%float (a + b).
Proof.
  unfold whole. intros [Hx | [-> Hx]] Hy Ha Hb Hc; rewrite add_spec, Hx, Hy.
  - apply SFadd_whole; assumption.
  - apply SFadd_negative_zero_l. exact Hb.
Qed.

Lemma sub_whole (x y : float) (a b : Z) :
  whole x a -> whole y b ->
  Z.abs a < 2 ^ 53 -> Z.abs b < 2 ^ 53 -> Z.abs (a - b) < 2 ^ 53 ->
  whole (x - y)%float (a - b).
Proof.
  unfold whole. intros Hx Hy Ha Hb Hc. rewrite sub_spec, Hx, Hy.
  apply SFsub_whole; assumption.
Qed.

Lemma whole_unique (x y : float) (a : Z) : whole x a -> whole y a -> x = y.
Proof. unfold whole. intros Hx Hy. apply Prim2SF_inj. congruence. Qed.

Lemma whole_zero : whole 0%float 0.
Proof. reflexivity. Qed.

(** A whole number below 2^53 is the integer [to_integer] reads. *)
Lemma whole_to_integer (x : float) (a : Z) :
  Z.abs a < 2 ^ 53 -> whole x a -> JsNumber.to_integer x = Some a.
Proof.
  unfold whole, JsNumber.to_integer. intros Ha Hx. rewrite Hx.
  destruct (Z.eq_dec a 0) as [-> | Ha0]; [reflexivity |].
  destruct (whole_number_finite a Ha0 Ha) as (m & e & _ & He & Hm & ->).
  assert (Hpow : 0 < 2 ^ (- e)) by (apply Z.pow_pos_nonneg; lia).
  assert (Hsign : (if a <? 0 then - Z.abs a else Z.abs a) = a)
    by (destruct (Z.ltb_spec a 0); lia).
  destruct (Z.leb_spec 0 e) as [H0 | H0].
  - assert (e = 0) by lia. subst e. change (2 ^ (- 0)) with 1 in Hm.
    change (2 ^ 0) with 1. rewrite Z.mul_1_r, Hm, Z.mul_1_r. cbn [option_map].
    rewrite Hsign. reflexivity.
  - rewrite Hm, Z.mod_mul by lia. cbn [Z.eqb]. rewrite Z.div_mul by lia.
    cbn [option_map]. rewrite Hsign. reflexivity.
Qed.

(** A number that [to_integer] takes for an integer is that whole number,
    or the negative zero. *)
Lemma to_integer_whole (x : float) (a : Z) :
  JsNumber.to_integer x = Some a -> whole_or_negative_zero x a.
Proof.
  unfold JsNumber.to_integer, whole_or_negative_zero, whole.
  pose proof (Prim2SF_valid x) as Hv.
  destruct (Prim2SF x) as [s | s | | s m e]; try discriminate.
  - intros [= <-]. destruct s; [right; split; reflexivity | left; reflexivity].
  - cbn [valid_binary] in Hv. intros Ha. left.
    assert (Hrep : exists c, 0 < c /\ a = (if s then - c else c)
                             /\ c * 2 ^ (0 - Z.min 0 e) = Z.pos m * 2 ^ (e - Z.min 0 e)).
    { destruct (Z.leb_spec 0 e) as [He | He]; cbn [option_map] in Ha.
      - injection Ha as <-. exists (Z.pos m * 2 ^ e).
        assert (0 < 2 ^ e) by (apply Z.pow_pos_nonneg; lia).
        split; [nia | split; [reflexivity |]].
        rewrite Z.min_l by lia.
        replace (0 - 0) with 0 by lia. replace (e - 0) with e by lia.
        change (2 ^ 0) with 1. lia.
      - destruct (Z.eqb_spec (Z.pos m mod 2 ^ (- e)) 0) as [Hmod | Hmod];
          [| discriminate]. cbn [option_map] in Ha. injection Ha as <-.
        assert (Hpow : 0 < 2 ^ (- e)) by (apply Z.pow_pos_nonneg; lia).
        pose proof (Z.div_mod (Z.pos m) (2 ^ (- e)) ltac:(lia)) as Hdm.
        rewrite Hmod in Hdm.
        exists (Z.pos m / 2 ^ (- e)).
        split; [nia | split; [reflexivity |]].
        rewrite Z.min_r by lia.
        replace (e - e) with 0 by lia. replace (0 - e) with (- e) by lia.
        change (2 ^ 0) with 1. lia. }
    destruct Hrep as (c & Hc & -> & Hrel).
    destruct s.
    + rewrite (whole_number_of_rep (- c) m e); [| lia | exact Hv |].
      * replace (- c <? 0) with true by (symmetry; apply Z.ltb_lt; lia). reflexivity.
      * replace (Z.abs (- c)) with c by lia. exact Hrel.
    + rewrite (whole_number_of_rep c m e); [| lia | exact Hv |].
      * replace (c <? 0) with false by (symmetry; apply Z.ltb_ge; lia). reflexivity.
      * replace (Z.abs c) with c by lia. exact Hrel.
Qed.

(* ===================================================================== *)
(** * Properties: the summary reconciles with the balance *)
(* ===================================================================== *)


Section SumOver.

Context {A : Type}.

Lemma sum_over_nonneg (g : A -> Z) (l : list A) :
  (forall x, 0 <= g x) -> 0 <= sum_over g l.
Proof. intros Hg. induction l as [|x l IH]; simpl; [lia | specialize (Hg x); lia]. Qed.

Lemma sum_over_abs (g : A -> Z) (l : list A) :
  Z.abs (sum_over g l) <= sum_over (fun x => Z.abs (g x)) l.
Proof. induction l as [|x l IH]; simpl; lia. Qed.

Lemma sum_over_app (g : A -> Z) (l l' : list A) :
  sum_over g (l ++ l') = sum_over g l + sum_over g l'.
Proof. induction l as [|x l IH]; simpl; lia. Qed.

Lemma sum_over_filter_le (g : A -> Z) (p : A -> bool) (l : list A) :
  (forall x, 0 <= g x) -> sum_over g (filter p l) <= sum_over g l.
Proof.
  intros Hg. induction l as [|x l IH]; simpl; [lia |].
  specialize (Hg x). destruct (p x); simpl; lia.
Qed.

Lemma sum_over_Permutation (g : A -> Z) (l l' : list A) :
  Permutation l l' -> sum_over g l = sum_over g l'.
Proof. induction 1; simpl; lia. Qed.

Lemma sum_over_le (g h : A -> Z) (l : list A) :
  (forall x, In x l -> g x <= h x) -> sum_over g l <= sum_over h l.
Proof.
  induction l as [|x l IH]; intros Hle; simpl; [lia |].
  pose proof (Hle x (or_introl eq_refl)).
  assert (sum_over g l <= sum_over h l) by (apply IH; intros y Hy; apply Hle; right; exact Hy).
  lia.
Qed.

Lemma sum_over_ext (g h : A -> Z) (l : list A) :
  (forall x, g x = h x) -> sum_over g l = sum_over h l.
Proof. intros E. induction l as [|x l IH]; simpl; [reflexivity | rewrite E, IH; reflexivity]. Qed.

Lemma sum_over_add (g h : A -> Z) (l : list A) :
  sum_over (fun x => g x + h x) l = sum_over g l + sum_over h l.
Proof. induction l as [|x l IH]; simpl; lia. Qed.

Lemma sum_over_sub (g h : A -> Z) (l : list A) :
  sum_over (fun x => g x - h x) l = sum_over g l - sum_over h l.
Proof. induction l as [|x l IH]; simpl; lia. Qed.

Lemma sum_over_zero (l : list A) : sum_over (fun _ => 0) l = 0.
Proof. induction l as [|x l IH]; simpl; lia. Qed.

Lemma sum_over_map {B : Type} (g : B -> Z) (h : A -> B) (l : list A) :
  sum_over g (map h l) = sum_over (fun x => g (h x)) l.
Proof. induction l as [|x l IH]; simpl; [reflexivity | rewrite IH; reflexivity]. Qed.

Lemma sum_over_partition (g : A -> Z) (p : A -> bool) (l : list A) :
  sum_over g (filter p l) + sum_over g (filter (fun x => negb (p x)) l) = sum_over g l.
Proof. induction l as [|x l IH]; simpl; [lia |]. destruct (p x); simpl; lia. Qed.

End SumOver.

Lemma sum_over_absent (x : string) (v : Z) (ks : list string) :
  ~ In x ks -> sum_over (fun k => if (x =? k)%string then v else 0) ks = 0.
Proof.
  induction ks as [|k ks IH]; intros Hn; simpl; [reflexivity |].
  destruct (String.eqb_spec x k) as [-> | _].
  - exfalso. apply Hn. left. reflexivity.
  - rewrite IH; [reflexivity |]. intros Hin. apply Hn. right. exact Hin.
Qed.

Lemma sum_over_indicator (x : string) (v : Z) (ks : list string) :
  NoDup ks -> In x ks -> sum_over (fun k => if (x =? k)%string then v else 0) ks = v.
Proof.
  induction ks as [|k ks IH]; intros Hnd Hin; [destruct Hin |].
  apply NoDup_cons_iff in Hnd. destruct Hnd as [Hk Hnd]. simpl.
  destruct (String.eqb_spec x k) as [-> | Hne].
  - rewrite sum_over_absent by exact Hk. lia.
  - destruct Hin as [E | Hin]; [congruence |]. rewrite IH by assumption. lia.
Qed.

(** The months split the ledger: what is summed month by month is what is
    summed over the whole ledger. *)
Lemma sum_over_months {num : Type} `{Arithmetic num} (cm : string)
    (g : transaction num -> Z) (p : transaction num -> bool) (ks : list string)
    (txs : list (transaction num)) :
  NoDup ks -> (forall t, In t txs -> In (month_key cm t) ks) ->
  sum_over (fun k => sum_over g (filter (fun t => in_month cm k t && p t) txs)) ks
  = sum_over g (filter p txs).
Proof.
  intros Hnd. induction txs as [|t txs IH]; intros Hcover.
  - cbn [filter sum_over fold_right]. apply sum_over_zero.
  - rewrite (sum_over_ext _
      (fun k => (if (month_key cm t =? k)%string then (if p t then g t else 0) else 0)
                + sum_over g (filter (fun t => in_month cm k t && p t) txs))).
    + rewrite sum_over_add, IH by (intros u Hu; apply Hcover; right; exact Hu).
      rewrite sum_over_indicator; [| exact Hnd | apply Hcover; left; reflexivity].
      cbn [filter]. destruct (p t); reflexivity.
    + intros k. cbn [filter]. unfold in_month at 1.
      destruct (month_key cm t =? k)%string; destruct (p t); reflexivity.
Qed.

Lemma magnitude_sum (txs : list (transaction float)) : forall M,
  magnitude txs = Some M ->
  Forall (fun t => whole_or_negative_zero (amount t) (whole_amount t)) txs
  /\ M = sum_over (fun t => Z.abs (whole_amount t)) txs.
Proof.
  induction txs as [|t txs IH]; intros M; cbn [magnitude].
  - intros [= <-]. split; [constructor | reflexivity].
  - destruct (JsNumber.to_integer (amount t)) as [a |] eqn:Ea; [| discriminate].
    destruct (magnitude txs) as [M' |]; [| discriminate].
    intros [= <-]. destruct (IH M' eq_refl) as [Hall ->].
    assert (Hw : whole_amount t = a) by (unfold whole_amount; rewrite Ea; reflexivity).
    split.
    + constructor; [| exact Hall]. rewrite Hw. apply to_integer_whole. exact Ea.
    + cbn [sum_over fold_right]. rewrite Hw. reflexivity.
Qed.

Lemma whole_amounts_ledger (txs : list (transaction float)) :
  whole_amounts txs = true -> whole_ledger txs.
Proof.
  unfold whole_amounts. destruct (magnitude txs) as [M |] eqn:E; [| discriminate].
  intros Hlt. apply Z.ltb_lt in Hlt.
  destruct (magnitude_sum txs M E) as [Hall ->]. split; assumption.
Qed.

Lemma whole_ledger_filter (p : transaction float -> bool) (txs : list (transaction float)) :
  whole_ledger txs -> whole_ledger (filter p txs).
Proof.
  intros [Hall Hlt]. split.
  - rewrite Forall_forall in *. intros t Ht. apply filter_In in Ht. apply Hall, Ht.
  - pose proof (sum_over_filter_le (fun t => Z.abs (whole_amount t)) p txs
                  ltac:(intros; lia)). lia.
Qed.

Lemma whole_ledger_Permutation (txs txs' : list (transaction float)) :
  Permutation txs txs' -> whole_ledger txs -> whole_ledger txs'.
Proof.
  intros Hp [Hall Hlt]. split.
  - exact (Permutation_Forall Hp Hall).
  - rewrite <- (sum_over_Permutation _ _ _ Hp). exact Hlt.
Qed.

Lemma whole_ledger_app (txs1 txs2 : list (transaction float)) :
  whole_ledger (txs1 ++ txs2) -> whole_ledger txs1 /\ whole_ledger txs2.
Proof.
  intros [Hall Hlt]. apply Forall_app in Hall. destruct Hall as [H1 H2].
  rewrite sum_over_app in Hlt.
  pose proof (sum_over_nonneg (fun t => Z.abs (whole_amount t)) txs1 ltac:(intros; lia)).
  pose proof (sum_over_nonneg (fun t => Z.abs (whole_amount t)) txs2 ltac:(intros; lia)).
  split; split; assumption || lia.
Qed.

(** Adding up whole numbers from the left and from the right. *)
Lemma fold_left_whole {K : Type} (f : K -> float) (g : K -> Z) (l : list K) :
  forall (acc : float) (s : Z),
    (forall k, In k l -> whole_or_negative_zero (f k) (g k)) ->
    whole acc s ->
    Z.abs s + sum_over (fun k => Z.abs (g k)) l < 2 ^ 53 ->
    whole (fold_left (fun acc k => add acc (f k)) l acc) (s + sum_over g l).
Proof.
  induction l as [|k l IH]; intros acc s Hall Hacc Hlt; cbn [fold_left sum_over fold_right] in *.
  - rewrite Z.add_0_r. exact Hacc.
  - pose proof (sum_over_nonneg (fun k => Z.abs (g k)) l ltac:(intros; lia)) as Hpos.
    fold (sum_over g l). fold (sum_over (fun k => Z.abs (g k)) l) in Hlt.
    rewrite Z.add_assoc. apply IH.
    + intros k' Hk'. apply Hall. right. exact Hk'.
    + apply add_whole; [exact Hacc | apply Hall; left; reflexivity | lia | lia | lia].
    + lia.
Qed.

Lemma sum_of_whole {K : Type} (f : K -> float) (g : K -> Z) (l : list K) :
  (forall k, In k l -> whole_or_negative_zero (f k) (g k)) ->
  sum_over (fun k => Z.abs (g k)) l < 2 ^ 53 ->
  whole (sum_of (map f l)) (sum_over g l).
Proof.
  induction l as [|k l IH]; intros Hall Hlt; cbn [map sum_of sum_over fold_right] in *.
  - exact whole_zero.
  - pose proof (sum_over_nonneg (fun k => Z.abs (g k)) l ltac:(intros; lia)) as Hpos.
    pose proof (sum_over_abs g l) as Habs.
    fold (sum_over g l) in *. fold (sum_over (fun k => Z.abs (g k)) l) in *.
    apply add_whole_l.
    + apply Hall. left. reflexivity.
    + apply IH; [intros k' Hk'; apply Hall; right; exact Hk' | lia].
    + lia.
    + lia.
    + lia.
Qed.


Lemma weights_split (txs : list (transaction float)) :
  type_weight income txs + type_weight expense txs
  = sum_over (fun t => Z.abs (whole_amount t)) txs.
Proof.
  unfold type_weight.
  rewrite <- (sum_over_partition _ (fun t => txType_eqb (type t) income) txs).
  f_equal. f_equal. apply filter_ext. intros t. destruct (type t); reflexivity.
Qed.

Lemma type_value_bound (ty : txType) (txs : list (transaction float)) :
  Z.abs (type_value ty txs) <= type_weight ty txs.
Proof. apply sum_over_abs. Qed.

Lemma month_value_bound (ty : txType) (cm k : string) (txs : list (transaction float)) :
  Z.abs (month_value ty cm k txs) <= month_weight ty cm k txs.
Proof. apply sum_over_abs. Qed.

Lemma type_weight_nonneg (ty : txType) (txs : list (transaction float)) :
  0 <= type_weight ty txs.
Proof. apply sum_over_nonneg. intros; lia. Qed.

Lemma month_weight_nonneg (ty : txType) (cm k : string) (txs : list (transaction float)) :
  0 <= month_weight ty cm k txs.
Proof. apply sum_over_nonneg. intros; lia. Qed.

Lemma month_weight_le (ty : txType) (cm k : string) (txs : list (transaction float)) :
  month_weight ty cm k txs <= sum_over (fun t => Z.abs (whole_amount t)) txs.
Proof. apply sum_over_filter_le. intros; lia. Qed.

Lemma month_weights_le (cm k : string) (txs : list (transaction float)) :
  month_weight income cm k txs + month_weight expense cm k txs
  <= sum_over (fun t => Z.abs (whole_amount t)) txs.
Proof.
  unfold month_weight, sum_over.
  induction txs as [|t txs IH]; cbn [filter fold_right]; [lia |].
  destruct (in_month cm k t); destruct (type t); cbn [andb txType_eqb fold_right]; lia.
Qed.

(** The total of a month is the whole number its amounts add up to. *)
Lemma month_total_whole (ty : txType) (cm k : string) (txs : list (transaction float)) :
  whole_ledger txs -> whole (month_total ty cm k txs) (month_value ty cm k txs).
Proof.
  intros Hs. unfold month_total, month_value.
  destruct (whole_ledger_filter (fun t => in_month cm k t && txType_eqb (type t) ty) txs Hs)
    as [Hall Hlt].
  rewrite Forall_forall in Hall.
  exact (fold_left_whole amount whole_amount _ zero 0 Hall whole_zero Hlt).
Qed.

Lemma total_of_whole (ty : txType) (txs : list (transaction float)) :
  whole_ledger txs -> whole (total_of ty txs) (type_value ty txs).
Proof.
  intros Hs. unfold total_of, type_value.
  destruct (whole_ledger_filter (fun t => txType_eqb (type t) ty) txs Hs) as [Hall Hlt].
  rewrite Forall_forall in Hall.
  apply sum_of_whole; assumption.
Qed.

(** The balance is the whole number the incomes less the expenses are. *)
Lemma computeBalance_whole (txs : list (transaction float)) :
  whole_ledger txs ->
  whole (computeBalance txs) (type_value income txs - type_value expense txs).
Proof.
  intros Hs. unfold computeBalance. cbv zeta.
  pose proof (weights_split txs) as Hsplit. destruct Hs as [Hall Hlt].
  pose proof (type_value_bound income txs). pose proof (type_value_bound expense txs).
  pose proof (type_weight_nonneg income txs). pose proof (type_weight_nonneg expense txs).
  assert (Hfold : forall ty, whole
            (fold_left (fun acc t => add acc (amount t))
               (filter (fun t => txType_eqb (type t) ty) txs) zero) (type_value ty txs)).
  { intros ty.
    destruct (whole_ledger_filter (fun t => txType_eqb (type t) ty) txs (conj Hall Hlt))
      as [Hall' Hlt'].
    rewrite Forall_forall in Hall'.
    exact (fold_left_whole amount whole_amount _ zero 0 Hall' whole_zero Hlt'). }
  apply sub_whole; [apply Hfold | apply Hfold | lia | lia | lia].
Qed.

Lemma balance_bound (txs : list (transaction float)) :
  Z.abs (type_value income txs - type_value expense txs)
  <= sum_over (fun t => Z.abs (whole_amount t)) txs.
Proof.
  pose proof (weights_split txs).
  pose proof (type_value_bound income txs). pose proof (type_value_bound expense txs).
  lia.
Qed.

Section WholeSummary.

Variable collate : string -> string -> Z.
Variable now : Z.
Variable txs : list (transaction float).
Hypothesis Hwhole : whole_ledger txs.

Let cm := JsString.slice 0 7 (JsDate.toISOString now).
Let rows := computeMonthlySummary collate now txs.

Lemma rows_cover : forall t, In t txs -> In (month_key cm t) (map month rows).
Proof.
  intros t Ht. apply in_map_iff. exists (row_of cm (month_key cm t) txs). split.
  - reflexivity.
  - apply summary_rows_In. exists (month_key cm t). split; [| reflexivity].
    apply existsb_exists. exists t. split; [exact Ht |]. apply String.eqb_refl.
Qed.

Lemma rows_row_of (r : monthRow float) : In r rows -> r = row_of cm (month r) txs.
Proof.
  intros Hr. apply summary_rows_In in Hr. destruct Hr as (k & _ & ->). reflexivity.
Qed.

Lemma months_value (ty : txType) :
  sum_over (fun r => month_value ty cm (month r) txs) rows = type_value ty txs.
Proof.
  rewrite <- (sum_over_map (fun k => month_value ty cm k txs) month rows).
  apply (sum_over_months cm whole_amount (fun t => txType_eqb (type t) ty)).
  - apply summary_months_NoDup.
  - apply rows_cover.
Qed.

Lemma months_weight (ty : txType) :
  sum_over (fun r => month_weight ty cm (month r) txs) rows = type_weight ty txs.
Proof.
  rewrite <- (sum_over_map (fun k => month_weight ty cm k txs) month rows).
  apply (sum_over_months cm (fun t => Z.abs (whole_amount t))
           (fun t => txType_eqb (type t) ty)).
  - apply summary_months_NoDup.
  - apply rows_cover.
Qed.

(** The net column adds up to the whole number the balance is. *)
Lemma total_net_whole :
  whole (total_net rows) (type_value income txs - type_value expense txs).
Proof.
  rewrite <- (months_value income), <- (months_value expense), <- sum_over_sub.
  unfold total_net.
  pose proof (fold_left_whole net
    (fun r => month_value income cm (month r) txs - month_value expense cm (month r) txs)
    rows zero 0) as Hfold.
  cbn [Z.add] in Hfold. apply Hfold; [| exact whole_zero |].
  - intros r Hr. left. rewrite (rows_row_of r Hr) at 1. cbn [net row_of].
    pose proof (month_value_bound income cm (month r) txs).
    pose proof (month_value_bound expense cm (month r) txs).
    pose proof (month_weights_le cm (month r) txs).
    pose proof (month_weight_nonneg income cm (month r) txs).
    pose proof (month_weight_nonneg expense cm (month r) txs).
    destruct Hwhole as [_ Hlt].
    apply sub_whole; [apply month_total_whole | apply month_total_whole | lia | lia | lia];
      exact Hwhole.
  - destruct Hwhole as [_ Hlt].
    rewrite <- weights_split, <- (months_weight income), <- (months_weight expense),
      <- sum_over_add in Hlt.
    cbn [Z.abs].
    eapply Z.le_lt_trans; [| exact Hlt].
    apply sum_over_le. intros r _.
    pose proof (month_value_bound income cm (month r) txs).
    pose proof (month_value_bound expense cm (month r) txs).
    lia.
Qed.

(** A column of the summary adds up to the whole number the amounts of its
    type add up to. *)
Lemma column_whole (ty : txType) (column : monthRow float -> float) :
  (forall k, column (row_of cm k txs) = month_total ty cm k txs) ->
  whole (sum_of (map column rows)) (type_value ty txs).
Proof.
  intros Hcol. rewrite <- (months_value ty).
  apply sum_of_whole.
  - intros r Hr. left. rewrite (rows_row_of r Hr) at 1. rewrite Hcol.
    apply month_total_whole. exact Hwhole.
  - destruct Hwhole as [_ Hlt].
    pose proof (weights_split txs). 
    pose proof (type_weight_nonneg income txs). pose proof (type_weight_nonneg expense txs).
    assert (Hty : type_weight ty txs < 2 ^ 53) by (destruct ty; lia).
    rewrite <- (months_weight ty) in Hty.
    eapply Z.le_lt_trans; [| exact Hty].
    apply sum_over_le. intros r _. apply month_value_bound.
Qed.

End WholeSummary.


(** C6, as the code has it.  For a ledger of whole amounts whose
    magnitudes add up to less than 2^53, the [net] column of the monthly
    summary adds up to the balance of the same entries, whatever the
    collation of the host: no addition or subtraction of the two
    computations rounds, and the balance is the integer that the incomes
    less the expenses are. *)
Theorem monthly_net_reconciles :
  forall (collate : string -> string -> Z) (now : Z) (txs : list (transaction float)),
    whole_amounts txs = true ->
    total_net (computeMonthlySummary collate now txs) = computeBalance txs
    /\ JsNumber.to_integer (computeBalance txs)
       = Some (type_value income txs - type_value expense txs).
Proof.
  intros collate now txs Hw. apply whole_amounts_ledger in Hw. split.
  - apply (whole_unique _ _ (type_value income txs - type_value expense txs)).
    + apply total_net_whole. exact Hw.
    + apply computeBalance_whole. exact Hw.
  - apply whole_to_integer; [| apply computeBalance_whole; exact Hw].
    pose proof (balance_bound txs). destruct Hw as [_ Hlt]. lia.
Qed.

(** C6 on an example.  The ledger of the specification's example: both
    sides are 120. *)
Lemma monthly_net_reconciles_witness :
  total_net (computeMonthlySummary JsString.code_unit_order 1717200000000 ledger_example)
  = computeBalance ledger_example
  /\ JsNumber.to_integer (computeBalance ledger_example) = Some 120.
Proof.
  apply (monthly_net_reconciles JsString.code_unit_order 1717200000000 ledger_example).
  vm_compute. reflexivity.
Defined.

(** C6, where the claim fails.  In binary64 the two sides can differ.
    With 0.1 in January, 0.2 and 0.3 in February the net total is
    (0.2 + 0.3) + 0.1 and the balance (0.1 + 0.2) + 0.3.  With the whole
    amounts 2^53 in January, 1 and 1 in February the net total is
    (1 + 1) + 2^53 and the balance (2^53 + 1) + 1, where each addition of 1
    is lost. *)
Lemma monthly_net_differs_in_binary64 :
  total_net (computeMonthlySummary JsString.code_unit_order 1717200000000 ledger_tenths)
    = 0.6%float
  /\ computeBalance ledger_tenths = 0.6000000000000001%float
  /\ PrimFloat.eqb 0.6%float 0.6000000000000001%float = false
  /\ total_net (computeMonthlySummary JsString.code_unit_order 1717200000000 ledger_large)
      = 9007199254740994%float
  /\ computeBalance ledger_large = 9007199254740992%float
  /\ PrimFloat.eqb 9007199254740994%float 9007199254740992%float = false
  /\ whole_amounts ledger_large = false.
Proof. vm_compute. repeat split. Qed.

(** For whole amounts whose magnitudes add up to less than 2^53 the
    balance is additive: the balance of two ledgers put together is the sum
    of their balances. *)
Theorem computeBalance_additive :
  forall txs1 txs2 : list (transaction float),
    whole_amounts (txs1 ++ txs2) = true ->
    computeBalance (txs1 ++ txs2)
    = PrimFloat.add (computeBalance txs1) (computeBalance txs2).
Proof.
  intros txs1 txs2 Hw. apply whole_amounts_ledger in Hw.
  destruct (whole_ledger_app txs1 txs2 Hw) as [H1 H2].
  pose proof (balance_bound txs1) as B1. pose proof (balance_bound txs2) as B2.
  pose proof (balance_bound (txs1 ++ txs2)) as B.
  destruct Hw as [_ Hlt]. pose proof Hlt as Hlt'. rewrite sum_over_app in Hlt'.
  destruct H1 as [A1 L1]. destruct H2 as [A2 L2].
  assert (Hval : type_value income (txs1 ++ txs2) - type_value expense (txs1 ++ txs2)
                 = (type_value income txs1 - type_value expense txs1)
                   + (type_value income txs2 - type_value expense txs2)).
  { unfold type_value. rewrite !filter_app, !sum_over_app. lia. }
  apply (whole_unique _ _ (type_value income (txs1 ++ txs2)
                           - type_value expense (txs1 ++ txs2))).
  - apply computeBalance_whole. split; [apply Forall_app; split; assumption | exact Hlt].
  - rewrite Hval. apply add_whole.
    + apply computeBalance_whole. split; assumption.
    + left. apply computeBalance_whole. split; assumption.
    + lia.
    + lia.
    + pose proof (sum_over_nonneg (fun t => Z.abs (whole_amount t)) txs1 ltac:(intros; lia)).
      pose proof (sum_over_nonneg (fun t => Z.abs (whole_amount t)) txs2 ltac:(intros; lia)).
      lia.
Qed.

(** Twice the example ledger has twice its balance. *)
Lemma computeBalance_additive_witness :
  computeBalance (ledger_example ++ ledger_example)
  = PrimFloat.add (computeBalance ledger_example) (computeBalance ledger_example).
Proof.
  apply (computeBalance_additive ledger_example ledger_example).
  vm_compute. reflexivity.
Defined.

(** For whole amounts whose magnitudes add up to less than 2^53 each
    column of the monthly summary adds up to the total of the ledger: the
    incomes of the rows to the sum of the income entries, the expenses of
    the rows to the sum of the expense entries. *)
Theorem summary_columns_reconcile :
  forall (collate : string -> string -> Z) (now : Z) (txs : list (transaction float)),
    whole_amounts txs = true ->
    sum_of (map row_income (computeMonthlySummary collate now txs)) = total_of income txs
    /\ sum_of (map row_expense (computeMonthlySummary collate now txs))
       = total_of expense txs.
Proof.
  intros collate now txs Hw. apply whole_amounts_ledger in Hw. split.
  - apply (whole_unique _ _ (type_value income txs)).
    + apply column_whole; [exact Hw | reflexivity].
    + apply total_of_whole. exact Hw.
  - apply (whole_unique _ _ (type_value expense txs)).
    + apply column_whole; [exact Hw | reflexivity].
    + apply total_of_whole. exact Hw.
Qed.

(** The example ledger: 150 of income and 30 of expense. *)
Lemma summary_columns_reconcile_witness :
  sum_of (map row_income
            (computeMonthlySummary JsString.code_unit_order 1717200000000 ledger_example))
  = total_of income ledger_example
  /\ sum_of (map row_expense
               (computeMonthlySummary JsString.code_unit_order 1717200000000 ledger_example))
     = total_of expense ledger_example.
Proof.
  apply (summary_columns_reconcile JsString.code_unit_order 1717200000000 ledger_example).
  vm_compute. reflexivity.
Defined.

(** The example scenario of the specification, in JavaScript numbers: the
    balance is 120, shown as 120.00, and the summary has February before
    January. *)
Theorem example_scenario :
  computeBalance ledger_example = 120%float
  /\ updateBalance 0 (mkFilterForm "" "" "all") ledger_example = "120.00"
  /\ computeMonthlySummary JsString.code_unit_order 1717200000000 ledger_example =
       [ mkMonthRow "2024-02" 50%float 0%float 50%float;
         mkMonthRow "2024-01" 100%float 30%float 70%float ].
Proof. vm_compute. repeat split. Qed.

(* ===================================================================== *)
(** * Properties: the order of the entries *)
(* ===================================================================== *)


(** Two lists in descending order of a key, without a repeated key and
    with the same elements, are the same list, where the collation tells
    any two different keys apart. *)
Lemma descending_unique {A : Type} (collate : string -> string -> Z)
    (key : A -> string) (l1 : list A) : forall l2,
  (forall a b, collate a b <= 0 -> collate b a <= 0 -> a = b) ->
  StronglySorted (fun a b => collate (key b) (key a) <= 0) l1 ->
  StronglySorted (fun a b => collate (key b) (key a) <= 0) l2 ->
  NoDup (map key l1) -> NoDup (map key l2) ->
  (forall x, In x l1 <-> In x l2) ->
  l1 = l2.
Proof.
  induction l1 as [|a l1 IH]; intros l2 Hanti Hs1 Hs2 Hn1 Hn2 Hsame.
  - destruct l2 as [|b l2]; [reflexivity |].
    exfalso. apply (proj2 (Hsame b)). left. reflexivity.
  - destruct l2 as [|b l2].
    { exfalso. apply (proj1 (Hsame a)). left. reflexivity. }
    apply StronglySorted_inv in Hs1. destruct Hs1 as [Hs1 Ha].
    apply StronglySorted_inv in Hs2. destruct Hs2 as [Hs2 Hb].
    rewrite Forall_forall in Ha, Hb.
    cbn [map] in Hn1, Hn2.
    apply NoDup_cons_iff in Hn1. destruct Hn1 as [Hna Hn1].
    apply NoDup_cons_iff in Hn2. destruct Hn2 as [Hnb Hn2].
    assert (Hab : a = b).
    { destruct (proj1 (Hsame a) (or_introl eq_refl)) as [E | Hin2]; [symmetry; exact E |].
      destruct (proj2 (Hsame b) (or_introl eq_refl)) as [E | Hin1]; [exact E |].
      exfalso. apply Hnb.
      rewrite (Hanti (key b) (key a) (Ha b Hin1) (Hb a Hin2)).
      apply in_map. exact Hin2. }
    subst b. f_equal. apply IH; try assumption.
    intros x. split; intros Hx.
    + destruct (proj1 (Hsame x) (or_intror Hx)) as [E | H2]; [| exact H2].
      exfalso. apply Hna. rewrite E. apply in_map. exact Hx.
    + destruct (proj2 (Hsame x) (or_intror Hx)) as [E | H1]; [| exact H1].
      exfalso. apply Hnb. rewrite E. apply in_map. exact Hx.
Qed.

Lemma type_value_Permutation (ty : txType) (txs txs' : list (transaction float)) :
  Permutation txs txs' -> type_value ty txs = type_value ty txs'.
Proof.
  intros Hp. apply sum_over_Permutation, filter_Permutation, Hp.
Qed.

Lemma month_value_Permutation (ty : txType) (cm k : string)
    (txs txs' : list (transaction float)) :
  Permutation txs txs' -> month_value ty cm k txs = month_value ty cm k txs'.
Proof.
  intros Hp. apply sum_over_Permutation, filter_Permutation, Hp.
Qed.

Lemma row_of_Permutation (cm k : string) (txs txs' : list (transaction float)) :
  Permutation txs txs' -> whole_ledger txs -> row_of cm k txs = row_of cm k txs'.
Proof.
  intros Hp Hs. pose proof (whole_ledger_Permutation _ _ Hp Hs) as Hs'.
  assert (Hm : forall ty, month_total ty cm k txs = month_total ty cm k txs').
  { intros ty. apply (whole_unique _ _ (month_value ty cm k txs)).
    - apply month_total_whole. exact Hs.
    - rewrite (month_value_Permutation ty cm k _ _ Hp). apply month_total_whole. exact Hs'. }
  unfold row_of. rewrite !Hm. reflexivity.
Qed.

Lemma summary_rows_Permutation (collate : string -> string -> Z) (now : Z)
    (txs txs' : list (transaction float)) :
  Permutation txs txs' -> whole_ledger txs ->
  forall r, In r (computeMonthlySummary collate now txs)
            <-> In r (computeMonthlySummary collate now txs').
Proof.
  intros Hp Hs r. rewrite !summary_rows_In. cbv zeta.
  set (cm := JsString.slice 0 7 (JsDate.toISOString now)).
  split; intros (k & Hex & ->); exists k.
  - rewrite <- (existsb_Permutation _ _ _ Hp).
    split; [exact Hex | apply row_of_Permutation; assumption].
  - rewrite (existsb_Permutation _ _ _ Hp).
    split; [exact Hex | symmetry; apply row_of_Permutation; assumption].
Qed.


(** For whole amounts whose magnitudes add up to less than 2^53, the
    balance and the monthly summary do not depend on the order of the
    entries: two ledgers with the same entries in another order have the
    same balance and the same rows.  The rows come in the same order where
    the collation of the host orders any two texts one way or the other,
    does so transitively, and tells any two different texts apart. *)
Theorem totals_order_independent :
  forall (collate : string -> string -> Z) (now : Z)
         (txs txs' : list (transaction float)),
    Permutation txs txs' ->
    whole_amounts txs = true ->
    computeBalance txs = computeBalance txs'
    /\ Permutation (computeMonthlySummary collate now txs)
         (computeMonthlySummary collate now txs')
    /\ ((forall a b, 0 < collate a b -> collate b a <= 0) ->
        (forall a b c, collate a b <= 0 -> collate b c <= 0 -> collate a c <= 0) ->
        (forall a b, collate a b <= 0 -> collate b a <= 0 -> a = b) ->
        computeMonthlySummary collate now txs = computeMonthlySummary collate now txs').
Proof.
  intros collate now txs txs' Hp Hw. apply whole_amounts_ledger in Hw.
  pose proof (whole_ledger_Permutation _ _ Hp Hw) as Hw'.
  split; [| split].
  - apply (whole_unique _ _ (type_value income txs - type_value expense txs)).
    + apply computeBalance_whole. exact Hw.
    + rewrite (type_value_Permutation income _ _ Hp), (type_value_Permutation expense _ _ Hp).
      apply computeBalance_whole. exact Hw'.
  - apply NoDup_Permutation.
    + apply (NoDup_map_inv month). apply summary_months_NoDup.
    + apply (NoDup_map_inv month). apply summary_months_NoDup.
    + apply summary_rows_Permutation; assumption.
  - intros Htotal Htrans Hanti.
    apply (descending_unique collate month).
    + exact Hanti.
    + apply summary_sorted; assumption.
    + apply summary_sorted; assumption.
    + apply summary_months_NoDup.
    + apply summary_months_NoDup.
    + apply summary_rows_Permutation; assumption.
Qed.

(** The example ledger and the same entries in reverse, in the order by
    code units. *)
Lemma totals_order_independent_witness :
  computeBalance ledger_example = computeBalance (rev ledger_example)
  /\ Permutation
       (computeMonthlySummary JsString.code_unit_order 1717200000000 ledger_example)
       (computeMonthlySummary JsString.code_unit_order 1717200000000 (rev ledger_example))
  /\ computeMonthlySummary JsString.code_unit_order 1717200000000 ledger_example
     = computeMonthlySummary JsString.code_unit_order 1717200000000 (rev ledger_example).
Proof.
  destruct (totals_order_independent JsString.code_unit_order 1717200000000
              ledger_example (rev ledger_example) (Permutation_rev ledger_example) eq_refl)
    as (Hb & Hp & Heq).
  split; [exact Hb | split; [exact Hp |]].
  apply Heq.
  - apply code_unit_order_total.
  - apply code_unit_order_trans.
  - apply code_unit_order_antisym.
Defined.

(* ===================================================================== *)
(** * Properties: the date bounds of the filter *)
(* ===================================================================== *)

(** Appending the midnight time to a text of ten characters leaves its
    date part as it is. *)
Lemma midnight_text (s : string) :
  String.length s = 10%nat ->
  JsDate.parse_ymd (s ++ "T00:00:00")%string = JsDate.parse_ymd s
  /\ JsDate.parse_hms (s ++ "T00:00:00")%string = Some 0
  /\ String.length (s ++ "T00:00:00")%string = 19%nat.
Proof.
  do 10 (destruct s as [|? s]; [discriminate |]).
  destruct s; [| discriminate]. intros _. repeat split.
Qed.

Section DateBounds.

(** A calendar date written [YYYY-MM-DD], and its day number. *)
Variable d : string.
Variable day : Z.
Hypothesis d_length : String.length d = 10%nat.
Hypothesis d_day : JsDate.parse_ymd d = Some day.

Lemma d_truthy : JsString.truthy d = true.
Proof. destruct d; [discriminate d_length | reflexivity]. Qed.

(** The bound built from the input: UTC midnight. *)
Lemma Date_new_date_only (tza : Z) :
  JsDate.Date_new tza d = Some (day * JsDate.msPerDay).
Proof. unfold JsDate.Date_new. rewrite d_length, d_day. reflexivity. Qed.

(** The date of an entry: local midnight. *)
Lemma Date_new_local_midnight (tza : Z) :
  JsDate.Date_new tza (d ++ "T00:00:00")%string = Some (day * JsDate.msPerDay - tza).
Proof.
  destruct (midnight_text d d_length) as (Hymd & Hhms & Hlen).
  unfold JsDate.Date_new. rewrite Hlen, Hymd, Hhms, d_day. f_equal. lia.
Qed.

Context {num : Type}.
Variable t : transaction num.
Hypothesis t_date : date t = Some d.

(** An entry dated on the start date passes exactly where local time is
    not ahead of UTC. *)
Lemma start_date_passes (tza : Z) :
  passes tza (getFilters tza (mkFilterForm d "" "all")) t = (tza <=? 0).
Proof.
  unfold passes, getFilters, date_text. simpl. rewrite d_truthy, t_date. simpl.
  rewrite Date_new_date_only, Date_new_local_midnight. simpl.
  destruct (Z.ltb_spec (day * JsDate.msPerDay - tza) (day * JsDate.msPerDay));
    destruct (Z.leb_spec tza 0); try reflexivity; lia.
Qed.

(** An entry dated on the end date passes exactly where local time is not
    behind UTC. *)
Lemma end_date_passes (tza : Z) :
  passes tza (getFilters tza (mkFilterForm "" d "all")) t = (0 <=? tza).
Proof.
  unfold passes, getFilters, date_text. simpl. rewrite d_truthy, t_date. simpl.
  rewrite Date_new_date_only, Date_new_local_midnight. simpl.
  unfold JsDate.gt, JsDate.lt, JsDate.msPerDay.
  pose proof (Z.div_mod (day * 86400000 + tza) 86400000 ltac:(lia)) as Hdm.
  pose proof (Z.mod_pos_bound (day * 86400000 + tza) 86400000 ltac:(lia)) as Hm.
  destruct (Z.ltb_spec ((day * 86400000 + tza) / 86400000 * 86400000 + 86399999 - tza)
              (day * 86400000 - tza));
    destruct (Z.leb_spec 0 tza); try reflexivity; lia.
Qed.

End DateBounds.

(** In the zone UTC+05:30 the entry dated on the start date does not pass. *)
Lemma start_date_passes_witness :
  passes (330 * 60000)
    (getFilters (330 * 60000) (mkFilterForm "2024-01-10" "" "all"))
    (mkTransaction 1 "Lunch" 30 expense (Some "2024-01-10") "Food" : transaction Z)
  = false.
Proof.
  rewrite (start_date_passes "2024-01-10" 19732 eq_refl eq_refl
             (mkTransaction 1 "Lunch" 30 expense (Some "2024-01-10") "Food"
              : transaction Z) eq_refl).
  reflexivity.
Defined.

(** In the zone UTC-05:00 the entry dated on the end date does not pass. *)
Lemma end_date_passes_witness :
  passes (- 300 * 60000)
    (getFilters (- 300 * 60000) (mkFilterForm "" "2024-01-10" "all"))
    (mkTransaction 1 "Lunch" 30 expense (Some "2024-01-10") "Food" : transaction Z)
  = false.
Proof.
  rewrite (end_date_passes "2024-01-10" 19732 eq_refl eq_refl
             (mkTransaction 1 "Lunch" 30 expense (Some "2024-01-10") "Food"
              : transaction Z) eq_refl).
  reflexivity.
Defined.

(** The filter example of the specification: from 2024-01-06 to 2024-01-31
    the entry of 5 January is left out and the entry of 10 January is kept,
    in UTC as in the zones UTC+05:30 and UTC-05:00. *)
Theorem example_date_range :
  forall tza, In tza [0; 330 * 60000; - 300 * 60000] ->
    map id (applyFilters tza (mkFilterForm "2024-01-06" "2024-01-31" "all") ledger_abc)
    = [2].
Proof.
  intros tza [<- | [<- | [<- | []]]]; vm_compute; reflexivity.
Qed.

Lemma example_date_range_witness :
  map id (applyFilters 0 (mkFilterForm "2024-01-06" "2024-01-31" "all") ledger_abc) = [2].
Proof. apply example_date_range. left. reflexivity. Defined.

Section DateRange.

(** The start date, the end date and the date of an entry, each a calendar
    date written [YYYY-MM-DD], with their day numbers. *)
Variables ds de dt : string.
Variables s e k : Z.
Hypothesis ds_length : String.length ds = 10%nat.
Hypothesis de_length : String.length de = 10%nat.
Hypothesis dt_length : String.length dt = 10%nat.
Hypothesis ds_day : JsDate.parse_ymd ds = Some s.
Hypothesis de_day : JsDate.parse_ymd de = Some e.
Hypothesis dt_day : JsDate.parse_ymd dt = Some k.

Context {num : Type}.
Variable t : transaction num.
Hypothesis t_date : date t = Some dt.

(** A zone less than a day away from UTC. *)
Variable tza : Z.
Hypothesis tza_range : - JsDate.msPerDay < tza < JsDate.msPerDay.

(** The days the date bounds let through: from the start day to the end
    day in UTC; from the day after the start day where local time is
    ahead of UTC; up to the day before the end day where it is behind.
    So a filter from a day to the same day shows the entries of that day
    in UTC only. *)
Lemma date_range_passes :
  passes tza (getFilters tza (mkFilterForm ds de "all")) t
  = (s + (if 0 <? tza then 1 else 0) <=? k) && (k <=? e - (if tza <? 0 then 1 else 0)).
Proof.
  unfold passes, getFilters, date_text.
  cbn [filterStart filterEnd filterCategorySelect f_start f_end f_category].
  rewrite (d_truthy ds s ds_length ds_day), (d_truthy de e de_length de_day), t_date.
  rewrite (Date_new_date_only ds s ds_length ds_day),
          (Date_new_date_only de e de_length de_day),
          (Date_new_local_midnight dt k dt_length dt_day).
  cbn [option_map JsDate.setHours_23_59_59_999 JsString.truthy].
  change (("all" =? "all")%string) with true.
  change (negb ("all" =? "")%string) with true. cbn [negb andb].
  unfold JsDate.gt, JsDate.lt, JsDate.msPerDay in *.
  pose proof (Z.div_mod (e * 86400000 + tza) 86400000 ltac:(lia)) as Hdm.
  pose proof (Z.mod_pos_bound (e * 86400000 + tza) 86400000 ltac:(lia)) as Hm.
  set (q := (e * 86400000 + tza) / 86400000) in *.
  set (m := (e * 86400000 + tza) mod 86400000) in *.
  clearbody q m.
  destruct (Z.ltb_spec 0 tza); destruct (Z.ltb_spec tza 0); try lia;
  destruct (Z.ltb_spec (k * 86400000 - tza) (s * 86400000));
  destruct (Z.ltb_spec (q * 86400000 + 86399999 - tza) (k * 86400000 - tza));
  destruct (Z.leb_spec (s + 1) k); destruct (Z.leb_spec (s + 0) k);
  destruct (Z.leb_spec k (e - 0)); destruct (Z.leb_spec k (e - 1));
  try reflexivity; lia.
Qed.

End DateRange.

(** In the zone UTC+05:30, under a filter from 6 to 31 January, the entry
    of 6 January does not pass. *)
Lemma date_range_passes_witness :
  passes (330 * 60000)
    (getFilters (330 * 60000) (mkFilterForm "2024-01-06" "2024-01-31" "all"))
    (mkTransaction 1 "Lunch" 30 expense (Some "2024-01-06") "Food" : transaction Z)
  = false.
Proof.
  rewrite (date_range_passes "2024-01-06" "2024-01-31" "2024-01-06" 19728 19753 19728
             eq_refl eq_refl eq_refl eq_refl eq_refl eq_refl
             (mkTransaction 1 "Lunch" 30 expense (Some "2024-01-06") "Food"
              : transaction Z) eq_refl (330 * 60000)).
  - reflexivity.
  - unfold JsDate.msPerDay. lia.
Defined.

Lemma filter_subsequence_impl {A : Type} (p q : A -> bool) (l : list A) :
  (forall x, p x = true -> q x = true) -> subsequence (filter p l) (filter q l).
Proof.
  intros Hpq. induction l as [|x l IH]; simpl.
  - constructor.
  - destruct (p x) eqn:Hp.
    + rewrite (Hpq x Hp). apply subsequence_keep. exact IH.
    + destruct (q x); [apply subsequence_skip |]; exact IH.
Qed.

Section RangeMonotone.

(** Two ranges of calendar dates, the second one starting no later and
    ending no earlier than the first. *)

Variables ds ds' de de' : string.
Variables s s' e e' : Z.
Hypothesis ds_length : String.length ds = 10%nat.
Hypothesis ds'_length : String.length ds' = 10%nat.
Hypothesis de_length : String.length de = 10%nat.
Hypothesis de'_length : String.length de' = 10%nat.
Hypothesis ds_day : JsDate.parse_ymd ds = Some s.
Hypothesis ds'_day : JsDate.parse_ymd ds' = Some s'.
Hypothesis de_day : JsDate.parse_ymd de = Some e.
Hypothesis de'_day : JsDate.parse_ymd de' = Some e'.
Hypothesis start_earlier : s' <= s.
Hypothesis end_later : e <= e'.

Context {num : Type}.

Lemma passes_wider (tza : Z) (c : string) (t : transaction num) :
  passes tza (getFilters tza (mkFilterForm ds de c)) t = true ->
  passes tza (getFilters tza (mkFilterForm ds' de' c)) t = true.
Proof.
  rewrite (passes_split tza (mkFilterForm ds de c)),
          (passes_split tza (mkFilterForm ds' de' c)).
  cbn [filterStart filterEnd filterCategorySelect].
  intros H. apply andb_true_iff in H. destruct H as [Hdates Hcat].
  rewrite Hcat, andb_true_r. revert Hdates.
  unfold passes, getFilters.
  cbn [filterStart filterEnd filterCategorySelect f_start f_end f_category].
  rewrite (d_truthy ds s ds_length ds_day), (d_truthy de e de_length de_day),
          (d_truthy ds' s' ds'_length ds'_day), (d_truthy de' e' de'_length de'_day).
  rewrite (Date_new_date_only ds s ds_length ds_day),
          (Date_new_date_only de e de_length de_day),
          (Date_new_date_only ds' s' ds'_length ds'_day),
          (Date_new_date_only de' e' de'_length de'_day).
  cbn [option_map JsDate.setHours_23_59_59_999 JsString.truthy].
  change (("all" =? "all")%string) with true.
  change (negb ("all" =? "")%string) with true. cbn [negb andb].
  destruct (JsDate.Date_new tza (date_text t ++ "T00:00:00")%string) as [x |];
    [| intros _; reflexivity].
  unfold JsDate.gt, JsDate.lt, JsDate.msPerDay.
  rewrite !(Z.div_add_l _ 86400000) by lia.
  set (q := tza / 86400000). clearbody q.
  destruct (Z.ltb_spec x (s * 86400000)); [discriminate |].
  destruct (Z.ltb_spec ((e + q) * 86400000 + 86399999 - tza) x); [discriminate |].
  intros _.
  destruct (Z.ltb_spec x (s' * 86400000)); [lia |].
  destruct (Z.ltb_spec ((e' + q) * 86400000 + 86399999 - tza) x); [lia |].
  reflexivity.
Qed.

(** Widening the date range never loses an entry: in any zone, what the
    filter keeps for a range is a subsequence of what it keeps, with the
    same category, for a range that starts no later and ends no
    earlier. *)
Lemma applyFilters_wider (tza : Z) (c : string) (txs : list (transaction num)) :
  subsequence (applyFilters tza (mkFilterForm ds de c) txs)
              (applyFilters tza (mkFilterForm ds' de' c) txs).
Proof.
  unfold applyFilters. apply filter_subsequence_impl. intros t. apply passes_wider.
Qed.

End RangeMonotone.

(** January 6 to 31 within January 1 to February 29. *)
Lemma applyFilters_wider_witness :
  subsequence
    (applyFilters 0 (mkFilterForm "2024-01-06" "2024-01-31" "all") ledger_abc)
    (applyFilters 0 (mkFilterForm "2024-01-01" "2024-02-29" "all") ledger_abc).
Proof.
  apply (applyFilters_wider "2024-01-06" "2024-01-01" "2024-01-31" "2024-02-29"
           19728 19723 19753 19782 eq_refl eq_refl eq_refl eq_refl
           eq_refl eq_refl eq_refl eq_refl); lia.
Defined.


(** C1, on the code.  Where local time is ahead of UTC (here UTC+05:30)
    the entry dated on the start date is filtered out, and where it is
    behind (here UTC-05:00) the entry dated on the end date is; in UTC both
    are kept. *)
Theorem date_bounds_depend_on_time_zone :
  let t := mkTransaction 1 "Lunch" 30 expense (Some "2024-01-10") "Food" in
  applyFilters (330 * 60000) (mkFilterForm "2024-01-10" "" "all") [t] = []
  /\ applyFilters (- 300 * 60000) (mkFilterForm "" "2024-01-10" "all") [t] = []
  /\ applyFilters 0 (mkFilterForm "2024-01-10" "2024-01-10" "all") [t] = [t : transaction Z].
Proof. vm_compute. repeat split. Qed.

(* ===================================================================== *)
(** * Properties: CSV export *)
(* ===================================================================== *)

Lemma undouble_other (c : ascii) (tail : string) :
  Ascii.eqb c JsString.dquote_char = false ->
  undouble (String c tail) = String c (undouble tail).
Proof. intros Hc. destruct tail; simpl; rewrite ?Hc; reflexivity. Qed.

Lemma undouble_double_quotes (s : string) :
  undouble (JsString.double_quotes s) = s.
Proof.
  induction s as [|c s IH]; simpl.
  - reflexivity.
  - destruct (Ascii.eqb_spec c JsString.dquote_char) as [-> | Hne].
    + cbn [undouble]. rewrite Ascii.eqb_refl. simpl. rewrite IH. reflexivity.
    + apply Ascii.eqb_neq in Hne. rewrite (undouble_other c _ Hne), IH. reflexivity.
Qed.

Lemma double_quotes_plain (s : string) :
  has_quote s = false -> JsString.double_quotes s = s.
Proof.
  induction s as [|c s IH]; simpl; intros Hq.
  - reflexivity.
  - apply orb_false_iff in Hq. destruct Hq as [Hc Hs].
    rewrite Hc, (IH Hs). reflexivity.
Qed.

Lemma is_digit_digit_char (v : Z) :
  JsString.is_digit (JsString.digit_char (v mod 10)) = true.
Proof.
  pose proof (Z.mod_pos_bound v 10 ltac:(lia)) as Hb.
  assert (Hk : v mod 10 = 0 \/ v mod 10 = 1 \/ v mod 10 = 2 \/ v mod 10 = 3
               \/ v mod 10 = 4 \/ v mod 10 = 5 \/ v mod 10 = 6 \/ v mod 10 = 7
               \/ v mod 10 = 8 \/ v mod 10 = 9) by lia.
  repeat (destruct Hk as [-> | Hk]; [reflexivity |]).
  rewrite Hk. reflexivity.
Qed.

Lemma is_digit_not_minus (c : ascii) :
  JsString.is_digit c = true -> Ascii.eqb c "-" = false.
Proof.
  intros Hd. destruct (Ascii.eqb_spec c "-") as [-> | _]; [discriminate Hd | reflexivity].
Qed.

Lemma is_digit_not_point (c : ascii) :
  Ascii.eqb c "." = true -> JsString.is_digit c = false.
Proof. intros Hc. apply Ascii.eqb_eq in Hc. subst c. reflexivity. Qed.

Lemma decimal_loop_digits (fuel : nat) (n : Z) (acc : string) :
  all_digits acc = true -> all_digits (JsNumber.decimal_loop fuel n acc) = true.
Proof.
  revert n acc. induction fuel as [|fuel IH]; intros n acc Hacc;
    cbn [JsNumber.decimal_loop].
  - exact Hacc.
  - destruct (n <? 10).
    + cbn [all_digits]. rewrite is_digit_digit_char. exact Hacc.
    + apply IH. cbn [all_digits]. rewrite is_digit_digit_char. exact Hacc.
Qed.

Lemma decimal_loop_nonempty (fuel : nat) (n : Z) (acc : string) :
  JsNumber.decimal_loop (S fuel) n acc <> EmptyString.
Proof.
  revert n acc. induction fuel as [|fuel IH]; intros n acc.
  - cbn [JsNumber.decimal_loop]. destruct (n <? 10); discriminate.
  - change (JsNumber.decimal_loop (S (S fuel)) n acc)
      with (let acc' := String (JsString.digit_char (n mod 10)) acc in
            if n <? 10 then acc' else JsNumber.decimal_loop (S fuel) (n / 10) acc').
    cbv zeta. destruct (n <? 10); [discriminate | apply IH].
Qed.

Lemma decimal_digits (n : Z) :
  all_digits (JsNumber.decimal n) = true /\ JsNumber.decimal n <> EmptyString.
Proof.
  split.
  - apply decimal_loop_digits. reflexivity.
  - apply decimal_loop_nonempty.
Qed.

Lemma span_digits_point (ds rest : string) :
  all_digits ds = true ->
  JsNumber.span_digits (ds ++ String "." rest)%string = (ds, String "." rest).
Proof.
  induction ds as [|c ds IH]; simpl; intros Hd.
  - reflexivity.
  - apply andb_true_iff in Hd. destruct Hd as [Hc Hds].
    rewrite Hc, (IH Hds). reflexivity.
Qed.

(** Digits, a point and two digits are an amount with two decimals, with
    or without a minus sign in front. *)
Lemma two_decimals_intro (neg : bool) (ds : string) (v : Z) :
  all_digits ds = true -> ds <> EmptyString ->
  two_decimals ((if neg then "-" else "") ++ ds ++ "." ++ JsNumber.two_digits v)%string
  = true.
Proof.
  intros Hd Hne.
  assert (Hbody : two_decimals (ds ++ "." ++ JsNumber.two_digits v)%string = true).
  { unfold two_decimals. destruct ds as [|c ds]; [contradiction |].
    simpl in Hd. apply andb_true_iff in Hd. destruct Hd as [Hc Hds].
    cbn [append]. rewrite (is_digit_not_minus c Hc).
    assert (Hspan := span_digits_point (String c ds) (JsNumber.two_digits v)).
    cbn [append all_digits] in Hspan. rewrite Hc, Hds in Hspan.
    rewrite (Hspan eq_refl).
    unfold JsNumber.two_digits. cbv beta iota.
    rewrite !is_digit_digit_char. reflexivity. }
  destruct neg; [| exact Hbody].
  unfold two_decimals. cbn [append]. simpl Ascii.eqb. cbv iota.
  unfold two_decimals in Hbody.
  destruct ds as [|c ds]; [contradiction |].
  simpl in Hd. apply andb_true_iff in Hd. destruct Hd as [Hc _].
  cbn [append] in Hbody. rewrite (is_digit_not_minus c Hc) in Hbody. exact Hbody.
Qed.

(** [toFixed(2)] writes two decimals for every number that is finite and
    below 1e21 in magnitude. *)
Lemma toFixed2_two_decimals (x : float) :
  PrimFloat.is_nan x = false ->
  PrimFloat.is_infinity x = false ->
  PrimFloat.leb 1e21 (PrimFloat.abs x) = false ->
  two_decimals (JsNumber.toFixed2 x) = true.
Proof.
  intros Hnan Hinf Hbig. unfold JsNumber.toFixed2. rewrite Hnan, Hinf, Hbig.
  destruct (decimal_digits (JsNumber.nearest_hundredth (PrimFloat.abs x) / 100))
    as [Hd Hne].
  apply (two_decimals_intro (PrimFloat.ltb x 0)); assumption.
Qed.

Lemma formatAmount_two_decimals (x : float) :
  PrimFloat.is_infinity x = false ->
  PrimFloat.leb 1e21 (PrimFloat.abs x) = false ->
  two_decimals (formatAmount x) = true.
Proof.
  intros Hinf Hbig. unfold formatAmount, JsNumber.truthy.
  destruct (PrimFloat.is_nan x) eqn:Hnan; simpl.
  - reflexivity.
  - destruct (PrimFloat.is_zero x); simpl.
    + reflexivity.
    + apply toFixed2_two_decimals; assumption.
Qed.

(** The shape of the CSV text.  It is the header line and one line per
    entry, in the order of the entries, joined by newlines; a line is its
    six cells joined by commas, each cell between double quotes with its
    own double quotes doubled and nothing else changed; and the amount cell
    has two decimals whenever the amount is finite and below 1e21 in
    magnitude, or is NaN. *)
Theorem exportToCsv_spec :
  forall filteredArray : list (transaction float),
    exportToCsv filteredArray =
      JsString.join newline
        (csv_line csv_header :: map (fun t => csv_line (csv_row t)) filteredArray)
    /\ csv_line csv_header =
         (quoted "id" ++ "," ++ quoted "name" ++ "," ++ quoted "amount" ++ ","
          ++ quoted "type" ++ "," ++ quoted "date" ++ "," ++ quoted "category")%string
    /\ (forall t : transaction float,
          csv_line (csv_row t) =
            (csv_cell (id_text (id t)) ++ "," ++ csv_cell (name t) ++ ","
             ++ csv_cell (formatAmount (amount t)) ++ ","
             ++ csv_cell (type_text (type t)) ++ ","
             ++ csv_cell (date_text t) ++ "," ++ csv_cell (category t))%string)
    /\ (forall cell : string,
          csv_cell cell = quoted (JsString.double_quotes cell)
          /\ undouble (JsString.double_quotes cell) = cell
          /\ (has_quote cell = false -> JsString.double_quotes cell = cell))
    /\ (forall t : transaction float,
          In t filteredArray ->
          PrimFloat.is_infinity (amount t) = false ->
          PrimFloat.leb 1e21 (PrimFloat.abs (amount t)) = false ->
          two_decimals (formatAmount (amount t)) = true).
Proof.
  intros filteredArray. split; [| split; [| split; [| split]]].
  - unfold exportToCsv. simpl. rewrite map_map. reflexivity.
  - reflexivity.
  - intros t. reflexivity.
  - intros cell. split; [reflexivity | split].
    + apply undouble_double_quotes.
    + apply double_quotes_plain.
  - intros t _. apply formatAmount_two_decimals.
Qed.

(** The CSV example of the specification. *)
Lemma exportToCsv_spec_witness :
  two_decimals (formatAmount (amount coffee_break)) = true
  /\ csv_line (csv_row coffee_break) =
       (quoted "1" ++ "," ++ quoted ("Coffee " ++ quoted (quoted "Break")) ++ ","
        ++ quoted "4.50" ++ "," ++ quoted "expense" ++ ","
        ++ quoted "2024-01-10" ++ "," ++ quoted "Food")%string.
Proof.
  destruct (exportToCsv_spec [coffee_break]) as (_ & _ & _ & _ & Htwo).
  split.
  - apply Htwo.
    + left. reflexivity.
    + reflexivity.
    + reflexivity.
  - reflexivity.
Defined.

(** C7, where the code departs from it.  [formatAmount] is there to
    ensure a format of two decimals, and the claim has every amount cell in
    that format.  The form accepts the amount 1e21, a finite number above
    zero; [toFixed] writes a number from 1e21 on as the default conversion
    does, and the amount cell of the exported row reads 1e+21. *)
Theorem exportToCsv_large_amount :
  let form := mkTransactionForm "Car" "1e21" "2024-01-10" "Transport" expense in
  let transactions := submit (readings_2024 0) form [] in
  form_accepted form = true
  /\ map amount transactions = [1e21%float]
  /\ map (fun t => formatAmount (amount t)) transactions = ["1e+21"]
  /\ two_decimals "1e+21" = false
  /\ exportToCsv transactions =
       (csv_line csv_header ++ newline
        ++ quoted "1704844800007" ++ "," ++ quoted "Car" ++ "," ++ quoted "1e+21" ++ ","
        ++ quoted "expense" ++ "," ++ quoted "2024-01-10" ++ ","
        ++ quoted "Transport")%string.
Proof. vm_compute. repeat split. Qed.

Lemma digit_first_not_NaN (c : ascii) (rest : string) :
  JsString.is_digit c = true -> String c rest <> "NaN".
Proof.
  intros Hc E. injection E as -> _. discriminate Hc.
Qed.

Lemma toString_large_not_NaN (x : float) : JsNumber.toString_large x <> "NaN".
Proof.
  unfold JsNumber.toString_large.
  destruct (JsNumber.shortest_digits 17 1 x (JsNumber.integer_value x)
              (Z.of_nat (String.length (JsNumber.decimal (JsNumber.integer_value x)))))
    as [s n'].
  destruct (decimal_digits s) as [Hd _].
  destruct (JsNumber.decimal s) as [|d rest]; [discriminate |].
  cbn [all_digits] in Hd. apply andb_true_iff in Hd. destruct Hd as [Hd _].
  destruct rest; cbn [append]; apply digit_first_not_NaN; exact Hd.
Qed.

Lemma toFixed2_not_NaN (x : float) :
  PrimFloat.is_nan x = false -> JsNumber.toFixed2 x <> "NaN".
Proof.
  intros Hnan. unfold JsNumber.toFixed2. rewrite Hnan.
  destruct (PrimFloat.is_infinity x).
  - destruct (PrimFloat.ltb x 0); discriminate.
  - cbv zeta. destruct (PrimFloat.ltb x 0).
    + destruct (PrimFloat.leb 1e21 (PrimFloat.abs x)); discriminate.
    + destruct (PrimFloat.leb 1e21 (PrimFloat.abs x)); cbn [append].
      * apply toString_large_not_NaN.
      * destruct (decimal_digits (JsNumber.nearest_hundredth (PrimFloat.abs x) / 100))
          as [Hd Hne].
        destruct (JsNumber.decimal (JsNumber.nearest_hundredth (PrimFloat.abs x) / 100))
          as [|d rest]; [congruence |].
        cbn [all_digits] in Hd. apply andb_true_iff in Hd. destruct Hd as [Hd _].
        cbn [append]. apply digit_first_not_NaN. exact Hd.
Qed.

(** [formatAmount] never shows [NaN]: an amount that is NaN, like one that
    is zero, is shown as 0.00. *)
Theorem formatAmount_never_NaN :
  forall x : float,
    formatAmount x <> "NaN"
    /\ (PrimFloat.is_nan x = true \/ PrimFloat.is_zero x = true -> formatAmount x = "0.00").
Proof.
  intros x. unfold formatAmount, JsNumber.truthy. split.
  - destruct (PrimFloat.is_nan x) eqn:Hnan; cbn [orb negb].
    + vm_compute. discriminate.
    + destruct (PrimFloat.is_zero x); cbn [negb].
      * vm_compute. discriminate.
      * apply toFixed2_not_NaN. exact Hnan.
  - intros [Hx | Hx]; rewrite Hx; rewrite ?orb_true_r; reflexivity.
Qed.

Lemma string_app_assoc (a b c : string) :
  ((a ++ b) ++ c = a ++ (b ++ c))%string.
Proof. induction a as [|x a IH]; simpl; [reflexivity | rewrite IH; reflexivity]. Qed.

Lemma csv_run_app (a b : string) : forall st,
  csv_run st (a ++ b)%string
  = match csv_run st a with
    | Some st' => csv_run st' b
    | None => None
    end.
Proof.
  induction a as [|x a IH]; intros st; simpl.
  - reflexivity.
  - destruct (csv_step st x); [apply IH | reflexivity].
Qed.

Lemma csv_run_double_quotes (c : string) : forall rows cells acc,
  csv_run (mkCsvState rows cells acc Inside) (JsString.double_quotes c)
  = Some (mkCsvState rows cells (acc ++ c)%string Inside).
Proof.
  induction c as [|x c IH]; intros rows cells acc.
  - simpl. replace (acc ++ "")%string with acc; [reflexivity |].
    induction acc as [|y acc IHa]; simpl; [reflexivity | rewrite <- IHa; reflexivity].
  - cbn [JsString.double_quotes].
    destruct (Ascii.eqb x JsString.dquote_char) eqn:E.
    + apply Ascii.eqb_eq in E. subst x.
      cbn [csv_run]. unfold csv_step at 1. cbn. 
      rewrite IH. rewrite string_app_assoc. reflexivity.
    + cbn [csv_run]. unfold csv_step at 1. cbn [csv_mode_of rows_read cells_read cell_read].
      rewrite E. rewrite IH. rewrite string_app_assoc. reflexivity.
Qed.

Lemma csv_run_cell (c : string) (rows : list (list string)) (cells : list string)
    (x : string) :
  csv_run (mkCsvState rows cells x Outside) (csv_cell c)
  = Some (mkCsvState rows cells c AfterQuote).
Proof.
  unfold csv_cell, JsString.dquote. cbn [append csv_run].
  unfold csv_step at 1. cbn [csv_mode_of rows_read cells_read cell_read].
  rewrite Ascii.eqb_refl.
  rewrite csv_run_app, csv_run_double_quotes. reflexivity.
Qed.

Lemma csv_run_line (cs : list string) : forall c rows cells x,
  csv_run (mkCsvState rows cells x Outside) (csv_line (c :: cs))
  = Some (mkCsvState rows (cells ++ removelast (c :: cs)) (last (c :: cs) "") AfterQuote).
Proof.
  induction cs as [|c' cs IH]; intros c rows cells x.
  - unfold csv_line, JsString.join. cbn [map String.concat removelast last].
    rewrite csv_run_cell, app_nil_r. reflexivity.
  - unfold csv_line, JsString.join in *. cbn [map String.concat] in *.
    rewrite csv_run_app, csv_run_cell. cbn [append csv_run].
    unfold csv_step at 1. cbn [csv_mode_of rows_read cells_read cell_read].
    change (Ascii.eqb "," JsString.dquote_char) with false. cbn iota.
    rewrite Ascii.eqb_refl.
    rewrite IH. 
    change (removelast (c :: c' :: cs)) with (c :: removelast (c' :: cs)).
    change (last (c :: c' :: cs) "") with (last (c' :: cs) "").
    rewrite <- app_assoc. reflexivity.
Qed.

Lemma csv_run_lines (rs : list (list string)) : forall r rows x,
  Forall (fun r' => r' <> []) (r :: rs) ->
  csv_run (mkCsvState rows [] x Outside) (JsString.join newline (map csv_line (r :: rs)))
  = Some (mkCsvState (rows ++ removelast (r :: rs))
            (removelast (last (r :: rs) []))
            (last (last (r :: rs) []) "") AfterQuote).
Proof.
  induction rs as [|r' rs IH]; intros r rows x Hne.
  - inversion Hne as [|? ? Hr _]; subst.
    destruct r as [|c cs]; [congruence |].
    unfold JsString.join. cbn [map String.concat removelast last].
    rewrite csv_run_line, app_nil_r. reflexivity.
  - inversion Hne as [|? ? Hr Hrest]; subst.
    destruct r as [|c cs]; [congruence |].
    unfold JsString.join in *. cbn [map String.concat] in *.
    rewrite csv_run_app, csv_run_line. unfold newline. cbn [append csv_run].
    unfold csv_step at 1. cbn [csv_mode_of rows_read cells_read cell_read].
    change (Ascii.eqb (ascii_of_nat 10) JsString.dquote_char) with false.
    change (Ascii.eqb (ascii_of_nat 10) ",") with false. cbn iota.
    rewrite Ascii.eqb_refl. cbn [app].
    rewrite <- (app_removelast_last (l := c :: cs) "") by congruence.
    rewrite (IH r' _ _ Hrest).
    change (removelast ((c :: cs) :: r' :: rs)) with ((c :: cs) :: removelast (r' :: rs)).
    change (last ((c :: cs) :: r' :: rs) []) with (last (r' :: rs) []).
    rewrite <- app_assoc. reflexivity.
Qed.

(** Rows of cells written as [exportToCsv] writes them are read back as
    they were. *)
Lemma csv_read_lines (rows : list (list string)) :
  rows <> [] -> Forall (fun r => r <> []) rows ->
  csv_read (JsString.join newline (map csv_line rows)) = Some rows.
Proof.
  intros Hrows Hne. destruct rows as [|r rs]; [congruence |].
  unfold csv_read. rewrite (csv_run_lines rs r [] "" Hne).
  cbn [csv_mode_of rows_read cells_read cell_read app].
  assert (Hlast : last (r :: rs) [] <> []).
  { assert (Hin : In (last (r :: rs) []) (r :: rs)).
    { clear. revert r. induction rs as [|r' rs IH]; intros r.
      - left. reflexivity.
      - right. apply IH. }
    rewrite Forall_forall in Hne. apply (Hne _ Hin). }
  rewrite <- (app_removelast_last "" Hlast).
  rewrite <- (app_removelast_last (l := r :: rs) []) by congruence.
  reflexivity.
Qed.

(** The CSV text can be read back.  A reader that takes each cell from
    between its double quotes, two double quotes inside a cell as one,
    cells apart at commas and rows at line feeds, finds in the text of
    [exportToCsv] the header row and then one row of six cells per entry,
    in order, each cell as it was before quoting: commas, quotes and line
    feeds in a name or a category do not break the table.  So two exports
    with the same text have the same rows. *)
Theorem exportToCsv_reads_back :
  forall txs : list (transaction float),
    csv_read (exportToCsv txs) = Some (csv_header :: map csv_row txs)
    /\ forall txs' : list (transaction float),
         exportToCsv txs = exportToCsv txs' -> map csv_row txs = map csv_row txs'.
Proof.
  assert (Hread : forall txs : list (transaction float),
            csv_read (exportToCsv txs) = Some (csv_header :: map csv_row txs)).
  { intros txs. unfold exportToCsv. apply csv_read_lines.
    - discriminate.
    - constructor; [discriminate |].
      apply Forall_forall. intros r Hr. apply in_map_iff in Hr.
      destruct Hr as (t & <- & _). discriminate. }
  intros txs. split; [apply Hread |].
  intros txs' E. pose proof (Hread txs) as H1. rewrite E, Hread in H1.
  inversion H1. reflexivity.
Qed.

(* ===================================================================== *)
(** * Properties: loading and normalising *)
(* ===================================================================== *)

Lemma get_prop (t : value) (key : string) :
  nullish t = false -> get t key = Normal (prop t key).
Proof. destruct t; simpl; intros Hn; try discriminate; reflexivity. Qed.

Lemma coalesce_nullish (v d : value) :
  coalesce v d = if nullish v then d else v.
Proof. destruct v; reflexivity. Qed.

Lemma normalize_nullish (r : reading) (t : value) :
  nullish t = true -> normalize r t = Throw TypeError.
Proof. destruct t; simpl; intros Hn; try discriminate; reflexivity. Qed.

Lemma coalesce_throws (v d : value) :
  ToPrimitive_throws d = false ->
  ToPrimitive_throws (coalesce v d) = ToPrimitive_throws v.
Proof. intros Hd. destruct v; simpl; try reflexivity; exact Hd. Qed.

(** A record whose amount cannot be converted makes the normaliser
    throw. *)
Lemma normalize_unconvertible (r : reading) (t : value) :
  nullish t = false -> ToPrimitive_throws (prop t "amount") = true ->
  normalize r t = Throw TypeError.
Proof.
  intros Hn Ha. unfold normalize. rewrite !(get_prop t _ Hn). cbn [bind].
  unfold ToNumber. rewrite (coalesce_throws (prop t "amount") (VNumber 0%float) eq_refl), Ha. reflexivity.
Qed.

Lemma normalize_unreadable (r : reading) (t : value) :
  unreadable t = true -> normalize r t = Throw TypeError.
Proof.
  unfold unreadable. destruct (nullish t) eqn:Hn; cbn [orb]; intros Ha.
  - apply normalize_nullish. exact Hn.
  - apply normalize_unconvertible; assumption.
Qed.

Lemma normalize_record (r : reading) (t : value) :
  unreadable t = false -> exists e, normalize r t = Normal e /\ normalized r t e.
Proof.
  unfold unreadable. intros Hr. apply orb_false_iff in Hr. destruct Hr as [Hn Ha].
  unfold normalize. rewrite !(get_prop t _ Hn). cbn [bind].
  unfold ToNumber at 1. rewrite (coalesce_throws (prop t "amount") (VNumber 0%float) eq_refl), Ha. cbn [bind].
  eexists. split; [reflexivity |].
  split; cbn [Loaded.id Loaded.name Loaded.amount Loaded.type Loaded.date Loaded.category];
    rewrite ?coalesce_nullish; try reflexivity.
  rewrite <- coalesce_nullish. unfold ToNumber.
  rewrite (coalesce_throws (prop t "amount") (VNumber 0%float) eq_refl), Ha. reflexivity.
Qed.

(** The map throws as soon as one element cannot be read, and otherwise
    normalises every element, each with its own reading. *)
Lemma Array_map_normalize_throws (readings : nat -> reading) (items : list value) :
  forall i, existsb unreadable items = true ->
            Array_map_normalize readings i items = Throw TypeError.
Proof.
  induction items as [|t items IH]; simpl; intros i Hex.
  - discriminate.
  - destruct (unreadable t) eqn:Hn.
    + rewrite (normalize_unreadable _ _ Hn). reflexivity.
    + destruct (normalize_record (readings i) t Hn) as (e & -> & _). simpl.
      rewrite (IH (S i) Hex). reflexivity.
Qed.

Lemma Array_map_normalize_returns (readings : nat -> reading) (items : list value) :
  forall i, existsb unreadable items = false ->
    exists txs,
      Array_map_normalize readings i items = Normal txs
      /\ Forall2 (fun '(k, t) e => normalized (readings k) t e)
           (combine (seq i (List.length items)) items) txs.
Proof.
  induction items as [|t items IH]; simpl; intros i Hex.
  - exists []. split; [reflexivity | constructor].
  - apply orb_false_iff in Hex. destruct Hex as [Hn Hex].
    destruct (normalize_record (readings i) t Hn) as (e & -> & He).
    destruct (IH (S i) Hex) as (txs & -> & Htxs).
    exists (e :: txs). split; [reflexivity |]. constructor; assumption.
Qed.

Section LoadFacts.

Variable JSON_parse : string -> completion value.
Variable readings : nat -> reading.

Lemma loadTransactions_returns (raw : option string) :
  exists txs, loadTransactions JSON_parse readings raw = Normal txs.
Proof.
  unfold loadTransactions.
  match goal with
  | |- exists txs, try_catch ?body _ = _ => destruct body as [txs | e]
  end; simpl; eexists; reflexivity.
Qed.

Lemma loadTransactions_unusable (raw : option string) :
  unusable JSON_parse raw -> loadTransactions JSON_parse readings raw = Normal [].
Proof.
  unfold loadTransactions, unusable. destruct raw as [text |]; [| reflexivity].
  intros [-> | [(e & He) | (v & Hv & Harr)]].
  - reflexivity.
  - destruct (JsString.truthy text); [rewrite He |]; reflexivity.
  - destruct (JsString.truthy text); [rewrite Hv |]; [| reflexivity].
    destruct v; try discriminate Harr; reflexivity.
Qed.

Lemma loadTransactions_array (text : string) (items : list value) :
  JsString.truthy text = true ->
  JSON_parse text = Normal (VArray items) ->
  loadTransactions JSON_parse readings (Some text) =
  try_catch (Array_map_normalize readings 0 items) (fun _ => Normal []).
Proof. intros Ht Hp. unfold loadTransactions. rewrite Ht, Hp. reflexivity. Qed.

End LoadFacts.

(** C4.  [loadTransactions] always returns; and it returns the empty
    ledger when nothing is stored, when the stored text does not parse,
    and when it parses to a value that is not an array. *)
Theorem loadTransactions_fail_safe :
  forall (JSON_parse : string -> completion value) (readings : nat -> reading)
         (raw : option string),
    (exists txs, loadTransactions JSON_parse readings raw = Normal txs)
    /\ (unusable JSON_parse raw ->
        loadTransactions JSON_parse readings raw = Normal []).
Proof.
  intros JSON_parse readings raw. split.
  - apply loadTransactions_returns.
  - apply loadTransactions_unusable.
Qed.

(** C4 on examples: nothing stored, a text that is no JSON, and a stored
    object. *)
Lemma loadTransactions_fail_safe_witness :
  loadTransactions parse_fixture readings_2024 None = Normal []
  /\ loadTransactions parse_fixture readings_2024 (Some "not json") = Normal []
  /\ loadTransactions parse_fixture readings_2024 (Some "{}") = Normal [].
Proof.
  split; [| split].
  - apply (loadTransactions_fail_safe parse_fixture readings_2024 None). exact I.
  - apply (loadTransactions_fail_safe parse_fixture readings_2024 (Some "not json")).
    right. left. exists SyntaxError. reflexivity.
  - apply (loadTransactions_fail_safe parse_fixture readings_2024 (Some "{}")).
    right. right. exists (VObject []). split; reflexivity.
Defined.

(** C10, as the code has it.  Of a stored array, one element that cannot
    be read empties the whole ledger: a [null] element, whose properties
    cannot be read, or an element whose [amount] cannot be converted to a
    number.  Without such an element every element is kept and normalised,
    objects or not. *)
Theorem loadTransactions_all_or_nothing :
  forall (JSON_parse : string -> completion value) (readings : nat -> reading)
         (text : string) (items : list value),
    JsString.truthy text = true ->
    JSON_parse text = Normal (VArray items) ->
    (existsb nullish items = true ->
     loadTransactions JSON_parse readings (Some text) = Normal [])
    /\ (existsb unreadable items = true ->
        loadTransactions JSON_parse readings (Some text) = Normal [])
    /\ (existsb unreadable items = false ->
        exists txs,
          loadTransactions JSON_parse readings (Some text) = Normal txs
          /\ List.length txs = List.length items).
Proof.
  intros JSON_parse readings text items Ht Hp.
  rewrite (loadTransactions_array _ _ _ _ Ht Hp).
  assert (Hthrows : existsb unreadable items = true ->
            try_catch (Array_map_normalize readings 0 items) (fun _ => Normal [])
            = Normal []).
  { intros Hex. rewrite (Array_map_normalize_throws _ _ 0%nat Hex). reflexivity. }
  split; [| split]; intros Hex.
  - apply Hthrows. apply existsb_exists in Hex. destruct Hex as (t & Ht' & Hn).
    apply existsb_exists. exists t. split; [exact Ht' |].
    unfold unreadable. rewrite Hn. reflexivity.
  - apply Hthrows. exact Hex.
  - destruct (Array_map_normalize_returns readings items 0%nat Hex) as (txs & -> & Htxs).
    exists txs. split; [reflexivity |].
    apply Forall2_length in Htxs. rewrite <- Htxs.
    rewrite length_combine, length_seq. apply Nat.min_id.
Qed.

(** C10 on examples: an array with a [null] in it, an array with an
    amount that cannot be converted, and an array of two objects. *)
Lemma loadTransactions_all_or_nothing_witness :
  loadTransactions parse_fixture readings_2024 (Some "[{},null]") = Normal []
  /\ loadTransactions parse_fixture readings_2024 (Some stubborn_blob) = Normal []
  /\ exists txs,
       loadTransactions parse_fixture readings_2024 (Some "[{},{}]") = Normal txs
       /\ List.length txs = 2%nat.
Proof.
  split; [| split].
  - apply (loadTransactions_all_or_nothing parse_fixture readings_2024 "[{},null]"
             [VObject []; VNull]); reflexivity.
  - apply (loadTransactions_all_or_nothing parse_fixture readings_2024 stubborn_blob
             [VObject []; stubborn_amount]); reflexivity.
  - apply (loadTransactions_all_or_nothing parse_fixture readings_2024 "[{},{}]"
             [VObject []; VObject []]); reflexivity.
Defined.

(** C10, where the claim fails.  An array holding the number 5, which is
    no object: the ledger is not emptied, the element becomes an entry of
    defaults. *)
Lemma loadTransactions_keeps_non_object :
  loadTransactions parse_fixture readings_2024 (Some "[5]") =
  Normal [Loaded.mk (VNumber 1704844800007%float) (VString "Unnamed") 0%float income
            (VString "2024-01-10") (VString "Uncategorized")].
Proof. vm_compute. reflexivity. Qed.

(** The year of a day between 1970-01-01 and 9999-12-31. *)
Lemma civil_year_range (z : Z) :
  0 <= z < 2932897 ->
  0 <= fst (fst (JsDate.civil_from_days z)) <= 9999.
Proof.
  intros Hz. unfold JsDate.civil_from_days. cbv zeta. cbn [fst].
  set (z' := z + 719468).
  set (era := z' / 146097).
  set (doe := z' - era * 146097).
  set (yoe := (doe - doe / 1460 + doe / 36524 - doe / 146096) / 365).
  set (doy := doe - (365 * yoe + yoe / 4 - yoe / 100)).
  set (mp := (5 * doy + 2) / 153).
  assert (Hz' : 719468 <= z' < 3652365) by (unfold z'; lia).
  clearbody z'. clear Hz z.
  assert (Hera : 4 <= era <= 24 /\ 0 <= doe <= 146096 /\ (era = 24 -> doe < 146037)).
  { unfold doe, era. Z.to_euclidean_division_equations. lia. }
  clearbody doe. clearbody era. clear Hz' z'.
  destruct Hera as (Hera & Hdoe & Hlast).
  assert (Hyoe : 0 <= yoe <= 399).
  { unfold yoe. Z.to_euclidean_division_equations. lia. }
  assert (Hdoy : (yoe = 399 -> doy = doe - 145731) /\ 0 <= doy).
  { unfold doy, yoe. Z.to_euclidean_division_equations. lia. }
  destruct Hdoy as [Hdoy Hdoy0].
  clearbody yoe. clearbody doy.
  assert (Hmp : (doy < 306 -> mp < 10) /\ 0 <= mp).
  { unfold mp. Z.to_euclidean_division_equations. lia. }
  clearbody mp. destruct Hmp as [Hmp Hmp0].
  destruct (Z.ltb_spec mp 10) as [Hlt | Hge].
  - destruct (Z.leb_spec (mp + 3) 2); lia.
  - destruct (Z.leb_spec (mp - 9) 2); lia.
Qed.

Lemma ymd_form_intro (y1 y2 y3 y4 m1 m2 d1 d2 : ascii) (rest : string) :
  JsString.is_digit y1 = true -> JsString.is_digit y2 = true ->
  JsString.is_digit y3 = true -> JsString.is_digit y4 = true ->
  JsString.is_digit m1 = true -> JsString.is_digit m2 = true ->
  JsString.is_digit d1 = true -> JsString.is_digit d2 = true ->
  ymd_form
    (JsString.slice 0 10
       (String y1 (String y2 (String y3 (String y4 (String "-"
          (String m1 (String m2 (String "-" (String d1 (String d2 rest)))))))))))
  = true.
Proof.
  intros H1 H2 H3 H4 H5 H6 H7 H8. unfold ymd_form, JsString.slice, JsDate.char_is.
  cbn [Nat.sub substring String.length Nat.eqb String.get all_digits andb].
  rewrite H1, H2, H3, H4, H5, H6, H7, H8. destruct rest; reflexivity.
Qed.

(** Between 1970 and 9999 the current date is written [YYYY-MM-DD]. *)
Lemma today_ymd_form (r : reading) :
  0 <= Date_now r < 253402300800000 -> ymd_form (today r) = true.
Proof.
  intros Hnow. unfold today, JsDate.toISOString.
  assert (Hday : 0 <= Date_now r / JsDate.msPerDay < 2932897).
  { unfold JsDate.msPerDay. Z.to_euclidean_division_equations. lia. }
  pose proof (civil_year_range _ Hday) as Hy.
  destruct (JsDate.civil_from_days (Date_now r / JsDate.msPerDay)) as [[y m] d].
  cbn [fst] in Hy.
  assert (Hfour : (0 <=? y) && (y <=? 9999) = true).
  { apply andb_true_iff. split; apply Z.leb_le; lia. }
  cbv zeta. rewrite Hfour.
  cbn [JsDate.pad append].
  apply ymd_form_intro; apply is_digit_digit_char.
Qed.



(** What the two records become. *)
Lemma normalize_stored_records :
  Array_map_normalize readings_2024 0 stored_records =
  Normal [ Loaded.mk (VNumber 1704844800007%float) (VString "X") 0%float income
             (VString "2024-01-10") (VString "Uncategorized");
           Loaded.mk (VNumber 7%float) (VString "Rent") 12.5%float expense
             (VString "2024-01-10") (VString "Home") ].
Proof. vm_compute. reflexivity. Qed.

(** The second of them has the documented shape of a transaction. *)
Lemma as_transaction_rent :
  as_transaction
    (Loaded.mk (VNumber 7%float) (VString "Rent") 12.5%float expense
       (VString "2024-01-10") (VString "Home"))
  = Some (mkTransaction 7 "Rent" 12.5%float expense (Some "2024-01-10") "Home").
Proof. vm_compute. reflexivity. Qed.


(** The normaliser leaves an entry of the ledger as it is. *)
Lemma normalize_to_value (r : reading) (t : transaction float) :
  date t <> None -> normalize r (to_value t) = Normal (stored t).
Proof.
  intros Hd. unfold normalize, to_value, stored, get, bind.
  cbn [lookup String.eqb Ascii.eqb Bool.eqb andb coalesce ToNumber].
  destruct (date t) as [d |]; [| congruence]. cbn [coalesce].
  destruct (type t); reflexivity.
Qed.

Lemma Array_map_normalize_to_value (readings : nat -> reading)
    (txs : list (transaction float)) : forall i,
  Forall (fun t => date t <> None) txs ->
  Array_map_normalize readings i (map to_value txs) = Normal (map stored txs).
Proof.
  induction txs as [|t txs IH]; intros i Hd.
  - reflexivity.
  - inversion Hd as [|? ? Ht Hrest]; subst.
    cbn [map Array_map_normalize].
    rewrite (normalize_to_value _ t Ht). cbn [bind].
    rewrite (IH _ Hrest). reflexivity.
Qed.

Lemma as_transaction_stored (t : transaction float) :
  date t <> None ->
  JsNumber.to_integer (JsNumber.of_Z (id t)) = Some (id t) ->
  as_transaction (stored t) = Some t.
Proof.
  intros Hd Hid. unfold as_transaction, stored.
  cbn [Loaded.id Loaded.name Loaded.date Loaded.category Loaded.amount Loaded.type].
  destruct t as [i n a ty [d |] c]; cbn [date id] in *; [| congruence].
  rewrite Hid. reflexivity.
Qed.

(** Saving and loading give the ledger back.  Where the text that
    [saveTransactions] stores is not empty and [JSON.parse] reads from it
    the array that was written (as it does when every amount is finite),
    where every entry has a date, and every id is an integer that a number
    holds exactly, [loadTransactions] returns the entries that were saved,
    in order, none of them changed: the normaliser applies no default to
    what the tracker itself has written. *)
Theorem save_then_load :
  forall (JSON_stringify : value -> string) (JSON_parse : string -> completion value)
         (readings : nat -> reading) (txs : list (transaction float)),
    saveTransactions JSON_stringify txs <> "" ->
    JSON_parse (saveTransactions JSON_stringify txs) = Normal (VArray (map to_value txs)) ->
    Forall (fun t => date t <> None
                     /\ JsNumber.to_integer (JsNumber.of_Z (id t)) = Some (id t)) txs ->
    exists loaded : list Loaded.transaction,
      loadTransactions JSON_parse readings (Some (saveTransactions JSON_stringify txs))
      = Normal loaded
      /\ map as_transaction loaded = map Some txs.
Proof.
  intros JSON_stringify JSON_parse readings txs Htext Hparse Hok.
  exists (map stored txs). split.
  - unfold loadTransactions, JsString.truthy.
    rewrite (proj2 (String.eqb_neq _ _) Htext). cbn [negb].
    rewrite Hparse. cbn [bind].
    rewrite Array_map_normalize_to_value; [reflexivity |].
    eapply Forall_impl; [| exact Hok]. intros t [Hd _]. exact Hd.
  - rewrite map_map. apply map_ext_in. intros t Ht.
    rewrite Forall_forall in Hok. destruct (Hok t Ht) as [Hd Hid].
    apply as_transaction_stored; assumption.
Qed.

(** The example ledger, saved and loaded. *)
Lemma save_then_load_witness :
  exists loaded : list Loaded.transaction,
    loadTransactions parse_back_fixture readings_2024
      (Some (saveTransactions stringify_fixture ledger_example)) = Normal loaded
    /\ map as_transaction loaded = map Some ledger_example.
Proof.
  apply (save_then_load stringify_fixture parse_back_fixture readings_2024 ledger_example).
  - discriminate.
  - reflexivity.
  - repeat constructor; try discriminate; vm_compute; reflexivity.
Defined.

(* ===================================================================== *)
(** * Properties: the default date *)
(* ===================================================================== *)

Lemma check_range_spec (p : Z -> bool) (n : nat) : forall lo,
  check_range p n lo = true -> forall x, lo <= x < lo + 2 ^ Z.of_nat n -> p x = true.
Proof.
  induction n as [|n IH]; intros lo Hc x Hx.
  - simpl in Hx. replace x with lo by lia. exact Hc.
  - cbn [check_range] in Hc. apply andb_true_iff in Hc. destruct Hc as [H1 H2].
    rewrite Nat2Z.inj_succ, Z.pow_succ_r in Hx by lia.
    destruct (Z.lt_ge_cases x (lo + 2 ^ Z.of_nat n)).
    + apply (IH lo H1). lia.
    + apply (IH _ H2). lia.
Qed.

(** Every day of the cycle of 400 years passes the test: the test is run
    on each of the 146097 days. *)
Lemma doe_ok_all (doe : Z) : doe_ok doe = true.
Proof.
  destruct ((0 <=? doe) && (doe <? 146097)) eqn:Hr.
  - apply andb_true_iff in Hr. destruct Hr as [H0 H1].
    apply Z.leb_le in H0. apply Z.ltb_lt in H1.
    apply (check_range_spec doe_ok 18 0); [vm_compute; reflexivity |].
    change (2 ^ Z.of_nat 18) with 262144. lia.
  - unfold doe_ok. rewrite Hr. reflexivity.
Qed.

Lemma is_leap_period (y e : Z) : JsDate.is_leap (y + e * 400) = JsDate.is_leap y.
Proof.
  unfold JsDate.is_leap.
  replace ((y + e * 400) mod 4) with (y mod 4)
    by (replace (e * 400) with (e * 100 * 4) by lia; symmetry; apply Z_mod_plus_full).
  replace ((y + e * 400) mod 100) with (y mod 100)
    by (replace (e * 400) with (e * 4 * 100) by lia; symmetry; apply Z_mod_plus_full).
  replace ((y + e * 400) mod 400) with (y mod 400)
    by (symmetry; apply Z_mod_plus_full).
  reflexivity.
Qed.

(** [civil_from_days] returns a calendar date, and [days_from_civil] takes
    it back to the day number. *)
Lemma civil_from_days_spec (z : Z) :
  let '(y, m, d) := JsDate.civil_from_days z in
  1 <= m <= 12 /\ 1 <= d <= JsDate.days_in_month y m
  /\ JsDate.days_from_civil y m d = z.
Proof.
  unfold JsDate.civil_from_days. cbv zeta.
  set (z' := z + 719468).
  set (era := z' / 146097).
  set (doe := z' - era * 146097).
  assert (Hdoe : 0 <= doe < 146097).
  { unfold doe, era. Z.to_euclidean_division_equations. lia. }
  assert (Hz : z = era * 146097 + doe - 719468) by (unfold doe, z'; lia).
  clearbody doe. clearbody era. clear z'. subst z.
  pose proof (doe_ok_all doe) as Hok. unfold doe_ok, civil_of_doe in Hok.
  rewrite (proj2 (andb_true_iff _ _)
             (conj (proj2 (Z.leb_le _ _) (proj1 Hdoe)) (proj2 (Z.ltb_lt _ _) (proj2 Hdoe))))
    in Hok.
  cbv zeta in Hok.
  set (yoe := (doe - doe / 1460 + doe / 36524 - doe / 146096) / 365) in *.
  set (doy := doe - (365 * yoe + yoe / 4 - yoe / 100)) in *.
  set (mp := (5 * doy + 2) / 153) in *.
  set (d := doy - (153 * mp + 2) / 5 + 1) in *.
  set (m := if mp <? 10 then mp + 3 else mp - 9) in *.
  clearbody m. clearbody d. clear mp doy. clearbody yoe.
  repeat (apply andb_true_iff in Hok; destruct Hok as [Hok ?]).
  repeat match goal with
         | H : (_ <=? _) = true |- _ => apply Z.leb_le in H
         | H : (_ =? _) = true |- _ => apply Z.eqb_eq in H
         end.
  assert (Hdim : JsDate.days_in_month
                   (if m <=? 2 then yoe + era * 400 + 1 else yoe + era * 400) m
                 = JsDate.days_in_month (if m <=? 2 then yoe + 1 else yoe) m).
  { unfold JsDate.days_in_month.
    replace (if m <=? 2 then yoe + era * 400 + 1 else yoe + era * 400)
      with ((if m <=? 2 then yoe + 1 else yoe) + era * 400)
      by (destruct (m <=? 2); lia).
    rewrite is_leap_period. reflexivity. }
  rewrite Hdim. split; [lia | split; [lia |]].
  unfold JsDate.days_from_civil. cbv zeta.
  replace (if m <=? 2
           then (if m <=? 2 then yoe + era * 400 + 1 else yoe + era * 400) - 1
           else (if m <=? 2 then yoe + era * 400 + 1 else yoe + era * 400))
    with (yoe + era * 400) by (destruct (m <=? 2); lia).
  assert (Hera : (yoe + era * 400) / 400 = era).
  { Z.to_euclidean_division_equations. lia. }
  rewrite Hera.
  replace (yoe + era * 400 - era * 400) with yoe by lia.
  lia.
Qed.

Lemma digit_digit_char (n : Z) :
  JsDate.digit (JsString.digit_char (n mod 10)) = Some (n mod 10).
Proof.
  pose proof (Z.mod_pos_bound n 10 ltac:(lia)) as Hv.
  set (v := n mod 10) in *. clearbody v.
  assert (Hcases : v = 0 \/ v = 1 \/ v = 2 \/ v = 3 \/ v = 4 \/ v = 5 \/ v = 6
                   \/ v = 7 \/ v = 8 \/ v = 9) by lia.
  repeat (destruct Hcases as [-> | Hcases]; [reflexivity |]). subst v. reflexivity.
Qed.

Lemma parse_ymd_pad (y m d : Z) (rest : string) :
  0 <= y <= 9999 -> 1 <= m <= 12 -> 1 <= d <= JsDate.days_in_month y m ->
  JsDate.parse_ymd
    (JsString.slice 0 10
       (JsDate.pad 4 y ++ "-" ++ JsDate.pad 2 m ++ "-" ++ JsDate.pad 2 d ++ rest)%string)
  = Some (JsDate.days_from_civil y m d).
Proof.
  intros Hy Hm Hd.
  assert (Hdim : JsDate.days_in_month y m <= 31).
  { unfold JsDate.days_in_month.
    destruct (m =? 2); [destruct (JsDate.is_leap y); lia |].
    destruct ((m =? 4) || (m =? 6) || (m =? 9) || (m =? 11)); lia. }
  cbn [JsDate.pad append].
  unfold JsDate.parse_ymd, JsDate.field, JsDate.char_is, JsString.slice.
  cbn [Nat.sub substring String.length Nat.eqb String.get JsDate.digits_value].
  rewrite !digit_digit_char. rewrite !Ascii.eqb_refl.
  assert (Ey : 10 * (10 * (10 * (10 * 0 + y / 10 / 10 / 10 mod 10) + y / 10 / 10 mod 10)
                     + y / 10 mod 10) + y mod 10 = y).
  { Z.to_euclidean_division_equations. lia. }
  assert (Em : 10 * (10 * 0 + m / 10 mod 10) + m mod 10 = m).
  { Z.to_euclidean_division_equations. lia. }
  assert (Ed : 10 * (10 * 0 + d / 10 mod 10) + d mod 10 = d).
  { Z.to_euclidean_division_equations. lia. }
  destruct rest;
    cbn [substring String.length Nat.eqb JsDate.digits_value];
    rewrite Ey, Em, Ed;
    rewrite (proj2 (Z.leb_le 1 m)), (proj2 (Z.leb_le m 12)),
            (proj2 (Z.leb_le 1 d)), (proj2 (Z.leb_le d _)) by lia; reflexivity.
Qed.

Lemma today_length (r : reading) :
  0 <= Date_now r < 253402300800000 -> String.length (today r) = 10%nat.
Proof.
  intros Hnow. unfold today, JsDate.toISOString.
  assert (Hday : 0 <= Date_now r / JsDate.msPerDay < 2932897).
  { unfold JsDate.msPerDay. Z.to_euclidean_division_equations. lia. }
  pose proof (civil_year_range _ Hday) as Hy.
  destruct (JsDate.civil_from_days (Date_now r / JsDate.msPerDay)) as [[y m] d].
  cbn [fst] in Hy.
  assert (Hfour : (0 <=? y) && (y <=? 9999) = true).
  { apply andb_true_iff. split; apply Z.leb_le; lia. }
  cbv zeta. rewrite Hfour. cbn [JsDate.pad append]. reflexivity.
Qed.

Lemma today_parse (r : reading) :
  0 <= Date_now r < 253402300800000 ->
  JsDate.parse_ymd (today r) = Some (Date_now r / JsDate.msPerDay).
Proof.
  intros Hnow. unfold today, JsDate.toISOString.
  assert (Hday : 0 <= Date_now r / JsDate.msPerDay < 2932897).
  { unfold JsDate.msPerDay. Z.to_euclidean_division_equations. lia. }
  pose proof (civil_year_range _ Hday) as Hy.
  pose proof (civil_from_days_spec (Date_now r / JsDate.msPerDay)) as Hspec.
  destruct (JsDate.civil_from_days (Date_now r / JsDate.msPerDay)) as [[y m] d].
  cbn [fst] in Hy. destruct Hspec as (Hm & Hd & Hback).
  assert (Hfour : (0 <=? y) && (y <=? 9999) = true).
  { apply andb_true_iff. split; apply Z.leb_le; lia. }
  cbv zeta. rewrite Hfour.
  repeat rewrite <- string_app_assoc.
  repeat rewrite string_app_assoc.
  rewrite <- Hback.
  apply (parse_ymd_pad y m d); assumption.
Qed.

(** The default date is the calendar day of the clock in UTC.  Between
    1970 and 9999 the text [today] is a date that [new Date] accepts: as
    the value of a date input it is the midnight in UTC that begins the
    current day of UTC, and as the date of an entry it is the local
    midnight of that same calendar day; the local calendar day of the
    clock plays no part. *)
Theorem today_is_utc_day :
  forall (r : reading) (tza : Z),
    0 <= Date_now r < 253402300800000 ->
    let day := Date_now r / JsDate.msPerDay in
    JsDate.parse_ymd (today r) = Some day
    /\ JsDate.Date_new tza (today r) = Some (day * JsDate.msPerDay)
    /\ JsDate.Date_new tza (today r ++ "T00:00:00")%string
       = Some (day * JsDate.msPerDay - tza).
Proof.
  intros r tza Hnow day.
  pose proof (today_length r Hnow) as Hlen.
  pose proof (today_parse r Hnow) as Hparse. fold day in Hparse.
  split; [exact Hparse | split].
  - apply Date_new_date_only; assumption.
  - apply Date_new_local_midnight; assumption.
Qed.

(** On 2024-01-10 at 00:00 UTC, in the zone UTC+05:30. *)
Lemma today_is_utc_day_witness :
  JsDate.parse_ymd (today (readings_2024 0)) = Some 19732
  /\ JsDate.Date_new (330 * 60000) (today (readings_2024 0)) = Some (19732 * 86400000)
  /\ JsDate.Date_new (330 * 60000) (today (readings_2024 0) ++ "T00:00:00")%string
     = Some (19732 * 86400000 - 330 * 60000).
Proof.
  apply (today_is_utc_day (readings_2024 0) (330 * 60000)).
  cbn [readings_2024 Date_now Z.of_nat]. lia.
Defined.

(* ===================================================================== *)
(** * Properties: adding *)
(* ===================================================================== *)

Lemma trimStart_spec (s : string) :
  exists l, s = (l ++ JsString.trimStart s)%string
            /\ all_whitespace l = true
            /\ starts_with_whitespace (JsString.trimStart s) = false.
Proof.
  induction s as [|c s IH]; simpl.
  - exists EmptyString. repeat split.
  - destruct (JsString.is_whitespace c) eqn:Hc.
    + destruct IH as (l & Hs & Hl & Hstart).
      exists (String c l). simpl. rewrite Hc, Hl, <- Hs. repeat split. exact Hstart.
    + exists EmptyString. simpl. rewrite Hc. repeat split.
Qed.

Lemma trimEnd_spec (s : string) :
  exists r, s = (JsString.trimEnd s ++ r)%string
            /\ all_whitespace r = true
            /\ ends_with_whitespace (JsString.trimEnd s) = false.
Proof.
  induction s as [|c s IH].
  - exists EmptyString. repeat split.
  - destruct IH as (r & Hs & Hr & Hend).
    cbn [JsString.trimEnd].
    destruct (JsString.trimEnd s) as [|c' t] eqn:Ht.
    + simpl in Hs. subst r.
      destruct (JsString.is_whitespace c) eqn:Hc.
      * exists (String c s). simpl. rewrite Hc, Hr. repeat split.
      * exists s. simpl. rewrite Hc. repeat split. exact Hr.
    + exists r. split; [| split; [exact Hr | exact Hend]].
      rewrite Hs at 1. reflexivity.
Qed.

Lemma trimEnd_start (s : string) :
  starts_with_whitespace s = false ->
  starts_with_whitespace (JsString.trimEnd s) = false.
Proof.
  destruct s as [|c s]; simpl; intros Hc.
  - reflexivity.
  - destruct (JsString.trimEnd s); [rewrite Hc |]; simpl; try rewrite Hc; reflexivity.
Qed.

Lemma trim_trimmed (s : string) : trimmed s (JsString.trim s).
Proof.
  unfold trimmed, JsString.trim.
  destruct (trimStart_spec s) as (l & Hs & Hl & Hstart).
  destruct (trimEnd_spec (JsString.trimStart s)) as (r & Ht & Hr & Hend).
  exists l, r. split; [| split; [exact Hl | split; [exact Hr | split]]].
  - rewrite <- Ht. exact Hs.
  - apply trimEnd_start. exact Hstart.
  - exact Hend.
Qed.

(** C3, as the code has it.  Where [Number(amount)] returns,
    [addTransaction] appends one entry to the ledger and leaves the entries
    before it as they are.  The new entry has the clock reading plus the
    random offset as id, the name without the white space at its ends, the
    amount [Number(amount)] with its sign, the type and date as given, and
    the category without the white space at its ends, or [Uncategorized]
    when nothing is left of it.  Where [Number(amount)] throws,
    [addTransaction] throws the same before it appends anything; a number
    and a string never throw. *)
Theorem addTransaction_spec :
  forall (r : reading) (name0 : string) (amount0 : value) (type0 : txType)
         (date0 category0 : string) (transactions : list (transaction float)),
    match ToNumber amount0 with
    | Normal n =>
        exists tx : transaction float,
          addTransaction r name0 amount0 type0 date0 category0 transactions
            = Normal (transactions ++ [tx])
          /\ id tx = Date_now r + random_offset r
          /\ name tx = JsString.trim name0
          /\ trimmed name0 (name tx)
          /\ amount tx = n
          /\ type tx = type0
          /\ date tx = Some date0
          /\ category tx = (if (JsString.trim category0 =? "")%string then "Uncategorized"
                            else JsString.trim category0)
          /\ trimmed category0 (JsString.trim category0)
    | Throw e =>
        addTransaction r name0 amount0 type0 date0 category0 transactions = Throw e
    end
    /\ (forall n : float, ToNumber (VNumber n) = Normal n)
    /\ (forall text : string,
          ToNumber (VString text) = Normal (JsNumber.StringToNumber text)).
Proof.
  intros r name0 amount0 type0 date0 category0 transactions.
  split; [| split; intros; reflexivity].
  unfold addTransaction. destruct (ToNumber amount0) as [n | e]; cbn [bind].
  - eexists. split; [reflexivity |]. cbn [id name amount type date category].
    repeat split; try apply trim_trimmed.
    unfold JsString.truthy. destruct (JsString.trim category0 =? "")%string; reflexivity.
  - reflexivity.
Qed.

(** C3, where the claim fails.  Called with the number -5,
    [addTransaction] stores -5. *)
Lemma addTransaction_keeps_sign :
  match addTransaction (readings_2024 0) "Tea" (VNumber (-5)%float) expense
          "2024-01-10" "Food" [] with
  | Normal transactions => map amount transactions = [(-5)%float]
  | Throw _ => False
  end
  /\ JsNumber.Math_abs (-5)%float = 5%float
  /\ PrimFloat.eqb (-5)%float 5%float = false.
Proof. vm_compute. repeat split. Qed.

(** The submit handler takes the absolute value before it validates and
    calls [addTransaction]: through the form, what is stored is the
    magnitude of what was typed, and only when that is a positive finite
    number. *)
Theorem submit_stores_magnitude :
  forall (r : reading) (form : transactionForm) (transactions : list (transaction float)),
    submit r form transactions = transactions
    \/ exists tx : transaction float,
         submit r form transactions = transactions ++ [tx]
         /\ amount tx = JsNumber.Math_abs (JsNumber.StringToNumber (transactionAmount form))
         /\ JsNumber.isNaN (amount tx) = false
         /\ JsNumber.isFinite (amount tx) = true
         /\ PrimFloat.leb (amount tx) 0 = false.
Proof.
  intros r form transactions. unfold submit.
  set (amount0 := JsNumber.Math_abs (JsNumber.StringToNumber (transactionAmount form))).
  match goal with
  | |- context [validateInputs ?n amount0 ?d ?c] =>
      destruct (validateInputs n amount0 d c) eqn:Hv
  end; cbn [negb].
  - right. eexists. split; [reflexivity |]. cbn [amount].
    unfold validateInputs in Hv.
    repeat match type of Hv with
           | (if ?b then false else _) = true => destruct b eqn:?; [discriminate Hv |]
           end.
    repeat match goal with
           | H : _ || _ = false |- _ => apply orb_false_iff in H; destruct H
           | H : negb _ = false |- _ => apply negb_false_iff in H
           end.
    repeat split; assumption.
  - left. reflexivity.
Qed.

Lemma pad_nonempty (w : nat) (n : Z) : JsDate.pad (S w) n <> "".
Proof.
  cbn [JsDate.pad]. destruct (JsDate.pad w (n / 10)); discriminate.
Qed.

Lemma today_nonempty (r : reading) : today r <> "".
Proof.
  unfold today, JsDate.toISOString.
  destruct (JsDate.civil_from_days (Date_now r / JsDate.msPerDay)) as [[y m] d].
  cbv zeta.
  destruct ((0 <=? y) && (y <=? 9999)).
  - pose proof (pad_nonempty 3 y) as Hp.
    destruct (JsDate.pad 4 y); [congruence | discriminate].
  - destruct (y <? 0); discriminate.
Qed.

Lemma name_test (n : string) :
  negb (JsString.truthy n) || (JsString.trim n =? "")%string
  = (JsString.trim n =? "")%string.
Proof. destruct n; reflexivity. Qed.

Lemma submitted_date_truthy (r : reading) (form : transactionForm) :
  JsString.truthy (submitted_date r form) = true.
Proof.
  unfold submitted_date, JsString.truthy.
  destruct (String.eqb_spec (transactionDate form) "") as [_ | Hd]; cbn [negb].
  - apply negb_true_iff, String.eqb_neq, today_nonempty.
  - apply negb_true_iff, String.eqb_neq, Hd.
Qed.

(** [validateInputs] on what the submit handler hands to it. *)
Lemma validateInputs_submitted (r : reading) (form : transactionForm) :
  validateInputs (transactionName form) (typed_amount form)
    (submitted_date r form) (submitted_category form)
  = form_accepted form.
Proof.
  unfold validateInputs, form_accepted. rewrite name_test, submitted_date_truthy.
  destruct (JsString.trim (transactionName form) =? "")%string; [reflexivity |].
  cbn [negb andb]. unfold amount_accepted.
  destruct (JsNumber.isNaN (typed_amount form)); [reflexivity |].
  destruct (JsNumber.isFinite (typed_amount form)); [| reflexivity].
  destruct (PrimFloat.leb (typed_amount form) 0); [reflexivity |].
  cbn [negb andb orb].
  unfold submitted_category, JsString.truthy.
  destruct (transactionCategory form =? "")%string eqn:Hc; cbn [negb orb].
  - reflexivity.
  - rewrite Hc. cbn [negb orb].
    destruct (JsString.trim (transactionCategory form) =? "")%string; reflexivity.
Qed.

(** [addTransaction] on what the submit handler hands to it, for a
    category that is empty or has something other than white space in
    it. *)
Lemma addTransaction_submitted (r : reading) (form : transactionForm)
    (txs : list (transaction float)) :
  (transactionCategory form =? "")%string
  || negb (JsString.trim (transactionCategory form) =? "")%string = true ->
  addTransaction r (transactionName form) (VNumber (typed_amount form))
    (transactionType form) (submitted_date r form) (submitted_category form) txs
  = Normal (txs ++ [form_entry r form]).
Proof.
  intros Hcat.
  unfold addTransaction, form_entry, submitted_date, submitted_category, JsString.truthy.
  change (ToNumber (VNumber (typed_amount form))) with (Normal (typed_amount form)).
  cbn [bind].
  destruct (transactionDate form =? "")%string;
    destruct (transactionCategory form =? "")%string; cbn [negb orb] in *;
    try reflexivity;
    apply negb_true_iff in Hcat; rewrite Hcat; reflexivity.
Qed.

Lemma trim_no_whitespace_ends (s : string) :
  starts_with_whitespace (JsString.trim s) = false
  /\ ends_with_whitespace (JsString.trim s) = false.
Proof.
  destruct (trim_trimmed s) as (l & r & _ & _ & _ & Hs & He). split; assumption.
Qed.

(** When the submit handler accepts a form.  It appends one entry when the
    name has something other than white space in it, the magnitude of the
    amount typed is a finite number above zero, and the category is empty
    or has something other than white space in it; otherwise it leaves the
    ledger as it is.  An empty date input and an empty category input are
    never a reason to reject: the date becomes [today] and the category
    [Uncategorized] before [validateInputs] sees them, so its date test
    never fails and its category test fails on white space only. *)
Theorem submit_accepts :
  forall (r : reading) (form : transactionForm) (txs : list (transaction float)),
    submit r form txs
    = if form_accepted form then txs ++ [form_entry r form] else txs.
Proof.
  intros r form txs. unfold submit.
  fold (typed_amount form) (submitted_date r form) (submitted_category form).
  rewrite validateInputs_submitted.
  destruct (form_accepted form) eqn:Hacc; cbn [negb]; [| reflexivity].
  rewrite addTransaction_submitted; [reflexivity |].
  unfold form_accepted in Hacc. apply andb_true_iff in Hacc. apply Hacc.
Qed.

(** An entry that comes in through the form has a name and a category
    that are not empty and have no white space at their ends, and a date
    that is not empty; its id is the clock reading plus the random
    offset. *)
Theorem submit_entry_texts :
  forall (r : reading) (form : transactionForm) (txs : list (transaction float)),
    submit r form txs = txs
    \/ exists (tx : transaction float) (d : string),
         submit r form txs = txs ++ [tx]
         /\ id tx = Date_now r + random_offset r
         /\ name tx <> ""
         /\ starts_with_whitespace (name tx) = false
         /\ ends_with_whitespace (name tx) = false
         /\ date tx = Some d /\ d <> ""
         /\ category tx <> ""
         /\ starts_with_whitespace (category tx) = false
         /\ ends_with_whitespace (category tx) = false.
Proof.
  intros r form txs. unfold submit.
  fold (typed_amount form) (submitted_date r form) (submitted_category form).
  rewrite validateInputs_submitted.
  destruct (form_accepted form) eqn:Hacc; cbn [negb]; [right | left; reflexivity].
  unfold form_accepted in Hacc.
  apply andb_true_iff in Hacc. destruct Hacc as [Hacc Hcat].
  apply andb_true_iff in Hacc. destruct Hacc as [Hname _].
  apply negb_true_iff, String.eqb_neq in Hname.
  rewrite (addTransaction_submitted r form txs Hcat).
  eexists. eexists. split; [reflexivity |].
  unfold form_entry. cbn [id name date category].
  destruct (trim_no_whitespace_ends (transactionName form)) as [Hn1 Hn2].
  destruct (trim_no_whitespace_ends (transactionCategory form)) as [Hc1 Hc2].
  split; [reflexivity |]. split; [exact Hname |].
  split; [exact Hn1 |]. split; [exact Hn2 |].
  split; [reflexivity |]. split.
  - destruct (String.eqb_spec (transactionDate form) ""); [apply today_nonempty | assumption].
  - destruct (String.eqb_spec (transactionCategory form) "") as [E | E].
    + split; [discriminate | split; reflexivity].
    + cbn [orb] in Hcat. apply negb_true_iff, String.eqb_neq in Hcat.
      split; [exact Hcat | split; assumption].
Qed.

(** Adding and then deleting.  Deleting the id of the entry just added
    takes that entry away again, together with every older entry of the
    same id: ids come from the clock and a random offset and can collide.
    Where no entry had that id the ledger is back as it was; and a ledger
    whose ids are all different keeps them all different exactly when the
    new id is not among them.  [addTransaction] adds an entry whenever
    [Number(amount)] returns. *)
Theorem add_then_delete :
  forall (r : reading) (name0 : string) (amount0 : value) (type0 : txType)
         (date0 category0 : string) (txs : list (transaction float)),
    let id0 := Date_now r + random_offset r in
    match addTransaction r name0 amount0 type0 date0 category0 txs with
    | Normal txs' =>
        deleteTransaction id0 txs' = deleteTransaction id0 txs
        /\ ((forall t, In t txs -> id t <> id0) -> deleteTransaction id0 txs' = txs)
        /\ (NoDup (map id txs) ->
            (NoDup (map id txs') <-> forall t, In t txs -> id t <> id0))
    | Throw e => ToNumber amount0 = Throw e
    end.
Proof.
  intros r name0 amount0 type0 date0 category0 txs id0.
  unfold addTransaction.
  destruct (ToNumber amount0) as [n | e]; cbn [bind]; [| reflexivity].
  match goal with |- context [txs ++ [?t]] => set (tx := t) end.
  assert (Hdel : deleteTransaction id0 (txs ++ [tx]) = deleteTransaction id0 txs).
  { rewrite deleteTransaction_app.
    cbn [deleteTransaction filter id tx]. fold id0. rewrite Z.eqb_refl.
    cbn [negb]. apply app_nil_r. }
  split; [exact Hdel | split].
  - intros Hfresh. rewrite Hdel. apply deleteTransaction_absent. exact Hfresh.
  - intros Hnd. rewrite map_app. cbn [map id tx]. fold id0.
    split.
    + intros Hnd' t Ht E.
      apply (Permutation_NoDup (Permutation_sym (Permutation_cons_append _ _))) in Hnd'.
      apply NoDup_cons_iff in Hnd'. destruct Hnd' as [Hnot _].
      apply Hnot. rewrite <- E. apply in_map. exact Ht.
    + intros Hfresh.
      apply (Permutation_NoDup (Permutation_cons_append _ _)).
      constructor; [| exact Hnd].
      intros Hin. apply in_map_iff in Hin. destruct Hin as (t & E & Ht).
      exact (Hfresh t Ht E).
Qed.

Lemma trim_all_whitespace (s : string) :
  all_whitespace s = true -> JsString.trim s = "".
Proof.
  unfold JsString.trim. induction s as [|c s IH]; cbn [all_whitespace JsString.trimStart].
  - reflexivity.
  - intros H. apply andb_true_iff in H. destruct H as [Hc Hs].
    rewrite Hc. apply IH. exact Hs.
Qed.

(** An amount input that is empty or holds white space only converts to
    the number 0, and the submit handler leaves the ledger as it is. *)
Theorem submit_blank_amount :
  forall (r : reading) (form : transactionForm) (txs : list (transaction float)),
    all_whitespace (transactionAmount form) = true ->
    typed_amount form = 0%float /\ submit r form txs = txs.
Proof.
  intros r form txs Hblank.
  assert (Hzero : typed_amount form = 0%float).
  { unfold typed_amount, JsNumber.StringToNumber.
    rewrite (trim_all_whitespace _ Hblank). reflexivity. }
  split; [exact Hzero |].
  unfold submit.
  fold (typed_amount form) (submitted_date r form) (submitted_category form).
  rewrite validateInputs_submitted. unfold form_accepted. rewrite Hzero.
  change (amount_accepted 0%float) with false.
  rewrite andb_false_r. reflexivity.
Qed.

(** Two spaces as amount. *)
Lemma submit_blank_amount_witness :
  typed_amount (mkTransactionForm "Tea" "  " "2024-01-10" "Food" expense) = 0%float
  /\ submit (readings_2024 0) (mkTransactionForm "Tea" "  " "2024-01-10" "Food" expense)
       ledger_example = ledger_example.
Proof.
  apply (submit_blank_amount (readings_2024 0)
           (mkTransactionForm "Tea" "  " "2024-01-10" "Food" expense) ledger_example).
  reflexivity.
Defined.


(* ===================================================================== *)
(** * Properties: the page *)
(* ===================================================================== *)

Section PageFacts.

Variable collate : string -> string -> Z.
Variable JSON_stringify : value -> string.

Lemma select_set_value_ok (options : list string) (v : string) :
  select_set_value options v = "" \/ In (select_set_value options v) options.
Proof.
  unfold select_set_value. destruct (existsb (String.eqb v) options) eqn:E.
  - right. apply existsb_exists in E. destruct E as (x & Hx & E).
    apply String.eqb_eq in E. subst x. exact Hx.
  - left. reflexivity.
Qed.

Lemma populate_ok (txs : list (transaction float)) (form : filterForm) :
  let (options, form') := populateCategoryFilter collate txs form in
  options = "all" :: getAllCategories collate txs
  /\ (filterCategorySelect form' = "" \/ In (filterCategorySelect form') options).
Proof.
  unfold populateCategoryFilter. cbv zeta. split; [reflexivity |].
  cbn [filterCategorySelect].
  destruct (JsString.truthy (filterCategorySelect form)).
  - apply select_set_value_ok.
  - right. left. reflexivity.
Qed.

Lemma refresh_ok (p : page) (txs : list (transaction float)) :
  page_ok collate JSON_stringify (refresh collate JSON_stringify p txs).
Proof.
  unfold refresh. pose proof (populate_ok txs (page_filter p)) as H.
  destruct (populateCategoryFilter collate txs (page_filter p)) as [options form].
  destruct H as [Ho Hv]. unfold page_ok. cbn. split; [exact Ho |].
  split; [right; reflexivity | exact Hv].
Qed.

Lemma handle_ok (p : page) (e : event) :
  page_ok collate JSON_stringify p ->
  page_ok collate JSON_stringify (handle collate JSON_stringify p e).
Proof.
  intros (Ho & Hw & Hv). destruct e; cbn [handle].
  - unfold submit_page. cbv zeta.
    match goal with |- context [validateInputs ?a ?b ?c ?d] =>
      destruct (validateInputs a b c d) end; cbn [negb].
    + apply refresh_ok.
    + split; [exact Ho | split; [exact Hw | exact Hv]].
  - apply refresh_ok.
  - pose proof (populate_ok (page_transactions p) (page_filter p)) as H.
    destruct (populateCategoryFilter collate (page_transactions p) (page_filter p))
      as [options form].
    destruct H as [Ho' Hv']. unfold page_ok. cbn.
    split; [exact Ho' | split; [exact Hw | exact Hv']].
  - unfold page_ok. cbn. split; [exact Ho | split; [exact Hw |]].
    apply select_set_value_ok.
  - unfold page_ok. cbn. split; [exact Ho | split; [exact Hw | exact Hv]].
  - unfold page_ok. cbn. split; [exact Ho | split; [exact Hw | exact Hv]].
  - unfold page_ok. cbn. split; [exact Ho | split; [exact Hw |]].
    apply select_set_value_ok.
  - split; [exact Ho | split; [exact Hw | exact Hv]].
Qed.

Lemma init_page_ok (txs : list (transaction float)) (form : filterForm) :
  page_ok collate JSON_stringify (init_page collate txs form).
Proof.
  unfold init_page. pose proof (populate_ok txs form) as H.
  destruct (populateCategoryFilter collate txs form) as [options form'].
  destruct H as [Ho Hv]. unfold page_ok. cbn.
  split; [exact Ho | split; [left; reflexivity | exact Hv]].
Qed.

Lemma run_ok (events : list event) : forall p : page,
  page_ok collate JSON_stringify p ->
  page_ok collate JSON_stringify (run collate JSON_stringify p events).
Proof.
  induction events as [|e events IH]; intros p Hp; cbn [run fold_left].
  - exact Hp.
  - apply IH. apply handle_ok. exact Hp.
Qed.

Lemma refresh_transactions (p : page) (txs : list (transaction float)) :
  page_transactions (refresh collate JSON_stringify p txs) = txs.
Proof.
  unfold refresh.
  destruct (populateCategoryFilter collate txs (page_filter p)). reflexivity.
Qed.

(** What an event does to the array. *)
Lemma handle_transactions (p : page) (e : event) :
  page_transactions (handle collate JSON_stringify p e)
  = match e with
    | SubmitForm r form => submit r form (page_transactions p)
    | ConfirmDelete id0 => deleteTransaction id0 (page_transactions p)
    | _ => page_transactions p
    end.
Proof.
  destruct e; cbn [handle]; try reflexivity; try apply refresh_transactions.
  unfold submit_page, submit. cbv zeta.
  match goal with |- context [validateInputs ?a ?b ?c ?d] =>
    destruct (validateInputs a b c d) end; cbn [negb].
  - apply refresh_transactions.
  - reflexivity.
Qed.

Lemma form_entry_well_formed (r : reading) (form : transactionForm) :
  form_accepted form = true -> well_formed (form_entry r form).
Proof.
  intros Hacc. unfold form_accepted in Hacc.
  apply andb_true_iff in Hacc. destruct Hacc as [Hacc Hcat].
  apply andb_true_iff in Hacc. destruct Hacc as [Hname Hamount].
  apply negb_true_iff, String.eqb_neq in Hname.
  unfold well_formed, form_entry. cbn [name category date amount].
  split; [exact Hname |]. split; [| split; [| exact Hamount]].
  - destruct (String.eqb_spec (transactionCategory form) "") as [E | E].
    + discriminate.
    + cbn [orb] in Hcat. apply negb_true_iff, String.eqb_neq in Hcat. exact Hcat.
  - eexists. split; [reflexivity |].
    destruct (String.eqb_spec (transactionDate form) ""); [apply today_nonempty | assumption].
Qed.

Lemma handle_well_formed (p : page) (e : event) :
  Forall well_formed (page_transactions p) ->
  Forall well_formed (page_transactions (handle collate JSON_stringify p e)).
Proof.
  intros Hp. rewrite handle_transactions. destruct e; try exact Hp.
  - unfold submit. cbn [ToNumber].
    fold (typed_amount form) (submitted_date r form) (submitted_category form).
    rewrite validateInputs_submitted.
    destruct (form_accepted form) eqn:Hacc; cbn [negb]; [| exact Hp].
    rewrite addTransaction_submitted
      by (unfold form_accepted in Hacc; apply andb_true_iff in Hacc; apply Hacc).
    apply Forall_app. split; [exact Hp |].
    constructor; [| constructor]. apply form_entry_well_formed. exact Hacc.
  - unfold deleteTransaction. apply Forall_forall. intros t Ht.
    apply filter_In in Ht. rewrite Forall_forall in Hp. apply Hp. apply Ht.
Qed.

Lemma run_well_formed (events : list event) : forall p : page,
  Forall well_formed (page_transactions p) ->
  Forall well_formed (page_transactions (run collate JSON_stringify p events)).
Proof.
  induction events as [|e events IH]; intros p Hp; cbn [run fold_left].
  - exact Hp.
  - apply IH. apply handle_well_formed. exact Hp.
Qed.

End PageFacts.

(** Whatever happens on the page, it hangs together.  From the start of
    [init] on and after any sequence of events (submissions, confirmed
    deletions, clicks on Apply, Clear and Export, changes of the filter
    inputs) the category select offers [all] followed by the categories of
    the entries that are in the array at that moment; the text written to
    the storage, once something was written, is the array as it is at that
    moment; and the category select has one of its own options selected,
    or none. *)
Theorem page_stays_consistent :
  forall (collate : string -> string -> Z) (JSON_stringify : value -> string)
         (txs : list (transaction float)) (form : filterForm) (events : list event),
    page_ok collate JSON_stringify
      (run collate JSON_stringify (init_page collate txs form) events).
Proof.
  intros collate JSON_stringify txs form events.
  apply run_ok. apply init_page_ok.
Qed.

(** The page keeps a ledger well formed.  If every entry the page starts
    with has a name, a category and a date that are not empty and an
    amount that is a finite number above zero, so has every entry after
    any sequence of events: the form lets nothing else in, and nothing
    else changes the array.  Every entry is then offered under its own
    category, none under [Uncategorized] in place of an empty one. *)
Theorem page_keeps_well_formed :
  forall (collate : string -> string -> Z) (JSON_stringify : value -> string)
         (txs : list (transaction float)) (form : filterForm) (events : list event),
    Forall well_formed txs ->
    Forall well_formed
      (page_transactions (run collate JSON_stringify (init_page collate txs form) events))
    /\ Forall (fun t => category_label t = category t)
         (page_transactions (run collate JSON_stringify (init_page collate txs form) events)).
Proof.
  intros collate JSON_stringify txs form events Hwf.
  assert (H : Forall well_formed
                (page_transactions
                   (run collate JSON_stringify (init_page collate txs form) events))).
  { apply run_well_formed. unfold init_page.
    destruct (populateCategoryFilter collate txs form). exact Hwf. }
  split; [exact H |].
  eapply Forall_impl; [| exact H].
  intros t (_ & Hc & _). unfold category_label, JsString.truthy.
  rewrite (proj2 (String.eqb_neq _ _) Hc). reflexivity.
Qed.

(** From the empty ledger: a submission with the date and the category
    left empty, and a deletion. *)
Lemma page_keeps_well_formed_witness :
  Forall well_formed
    (page_transactions
       (run JsString.code_unit_order stringify_fixture
          (init_page JsString.code_unit_order [] (mkFilterForm "" "" "all"))
          [SubmitForm (readings_2024 0)
             (mkTransactionForm "Tea" "4.5" "" "" expense);
           ConfirmDelete 3]))
  /\ Forall (fun t => category_label t = category t)
       (page_transactions
          (run JsString.code_unit_order stringify_fixture
             (init_page JsString.code_unit_order [] (mkFilterForm "" "" "all"))
             [SubmitForm (readings_2024 0)
                (mkTransactionForm "Tea" "4.5" "" "" expense);
              ConfirmDelete 3])).
Proof.
  apply (page_keeps_well_formed JsString.code_unit_order stringify_fixture []
           (mkFilterForm "" "" "all")).
  constructor.
Defined.
